(** * OSUSat core: ring buffers, event bus and structured logging

    A shallow embedding of the C sources
    - [ring_buffer.c]       (module [RingBuffer]),
    - [ring_buffer_pow2.c]  (module [RingBufferPow2]),
    - [event_bus.c]         (module [EventBus]),
    - [slog.c]              (module [Slog]),
    followed by the properties proved about them.

    Conventions.  C integers are [Z]; a narrowing cast is written out with
    [uint8], [uint16] or [uint32].  A C array is a [list], read with
    [Arr.get] and written with [Arr.set]; local arrays whose bounds are at
    stake are written with the checked [Arr.store].  A nullable pointer is an
    [option].  Loops whose trip count is not a syntactic bound take a [fuel]
    argument and answer [OutOfFuel] when it runs out.  The critical section
    macros expand to nothing on a hosted build and are not modelled. *)

From Stdlib Require Import ZArith List Bool Lia.
Import ListNotations.
Local Open Scope Z_scope.

(** ** Fixed-width casts *)

Definition uint8 (x : Z) : Z := x mod 256.
Definition uint16 (x : Z) : Z := x mod 65536.
Definition uint32 (x : Z) : Z := x mod 4294967296.

(** ** Results of code that may fault or loop *)

Inductive outcome (A : Type) : Type :=
| Done (a : A)      (* normal return *)
| Fault             (* access outside a local array, or call through NULL *)
| OutOfFuel.        (* the model's loop budget was exhausted *)
Arguments Done {A} a.
Arguments Fault {A}.
Arguments OutOfFuel {A}.

Definition bind {A B} (m : outcome A) (k : A -> outcome B) : outcome B :=
  match m with
  | Done a => k a
  | Fault => Fault
  | OutOfFuel => OutOfFuel
  end.

Declare Scope outcome_scope.
Notation "x <- m ;; k" := (bind m (fun x => k))
  (at level 61, m at next level, right associativity) : outcome_scope.

(** ** C arrays *)

Module Arr.

Fixpoint upd {A} (n : nat) (v : A) (l : list A) {struct l} : list A :=
  match l with
  | [] => []
  | x :: t => match n with
              | O => v :: t
              | S n' => x :: upd n' v t
              end
  end.

Definition get {A} (d : A) (a : list A) (i : Z) : A := nth (Z.to_nat i) a d.

(** Unchecked write, for storage whose index is kept in range by the
    caller's protocol (ring indices). *)
Definition set {A} (a : list A) (i : Z) (v : A) : list A :=
  upd (Z.to_nat i) v a.

(** Checked write, for local arrays whose bounds are to be established. *)
Definition store {A} (a : list A) (i : Z) (v : A) : outcome (list A) :=
  if (0 <=? i) && (i <? Z.of_nat (length a)) then Done (set a i v) else Fault.

(** The C string held in a char array: the bytes before the first NUL. *)
Fixpoint cstring (a : list Z) : list Z :=
  match a with
  | [] => []
  | c :: t => if c =? 0 then [] else c :: cstring t
  end.

(** The last [n] elements of a list (all of it when it is shorter). *)
Definition keep_last {A} (n : nat) (l : list A) : list A :=
  skipn (length l - n) l.

(** Whether a char array holds a NUL, that is, a terminated string. *)
Definition terminated (a : list Z) : bool := existsb (fun c => c =? 0) a.

End Arr.

(** ** ring_buffer.c *)

Module RingBuffer.

Record osusat_ring_buffer_t := {
  buffer : list Z;
  capacity : Z;
  head : Z;
  tail : Z;
  overwrite : bool
}.

Definition osusat_ring_buffer_init (storage : list Z) (cap : Z) (ovw : bool)
  : osusat_ring_buffer_t :=
  {| buffer := storage; capacity := cap; head := 0; tail := 0;
     overwrite := ovw |}.

Definition osusat_ring_buffer_clear (rb : osusat_ring_buffer_t)
  : osusat_ring_buffer_t :=
  {| buffer := buffer rb; capacity := capacity rb; head := 0; tail := 0;
     overwrite := overwrite rb |}.

Definition osusat_ring_buffer_empty (rb : osusat_ring_buffer_t) : bool :=
  head rb =? tail rb.

Definition osusat_ring_buffer_full (rb : osusat_ring_buffer_t) : bool :=
  (head rb + 1) mod capacity rb =? tail rb.

Definition osusat_ring_buffer_size (rb : osusat_ring_buffer_t) : Z :=
  if head rb >=? tail rb then head rb - tail rb
  else capacity rb - (tail rb - head rb).

(** [push] returns the C boolean together with the buffer afterwards. *)
Definition osusat_ring_buffer_push (rb : osusat_ring_buffer_t) (byte : Z)
  : bool * osusat_ring_buffer_t :=
  let next := (head rb + 1) mod capacity rb in
  if (next =? tail rb) && negb (overwrite rb) then (false, rb)
  else
    let tail' := if next =? tail rb then (tail rb + 1) mod capacity rb
                 else tail rb in
    (true, {| buffer := Arr.set (buffer rb) (head rb) byte;
              capacity := capacity rb;
              head := next;
              tail := tail';
              overwrite := overwrite rb |}).

(** [pop] returns [None] for the C [false]; otherwise the byte written to
    [*out] and the buffer afterwards. *)
Definition osusat_ring_buffer_pop (rb : osusat_ring_buffer_t)
  : option (Z * osusat_ring_buffer_t) :=
  if tail rb =? head rb then None
  else Some (Arr.get 0 (buffer rb) (tail rb),
             {| buffer := buffer rb;
                capacity := capacity rb;
                head := head rb;
                tail := (tail rb + 1) mod capacity rb;
                overwrite := overwrite rb |}).

Definition osusat_ring_buffer_peek (rb : osusat_ring_buffer_t) : option Z :=
  if tail rb =? head rb then None
  else Some (Arr.get 0 (buffer rb) (tail rb)).

(** The handle describes its storage: indices inside a non-empty array. *)
Definition wf (rb : osusat_ring_buffer_t) : Prop :=
  0 < capacity rb /\ Z.of_nat (length (buffer rb)) = capacity rb /\
  0 <= head rb < capacity rb /\ 0 <= tail rb < capacity rb.

(** The bytes a consumer will pop, oldest first. *)
Definition contents (rb : osusat_ring_buffer_t) : list Z :=
  map (fun k => Arr.get 0 (buffer rb) ((tail rb + Z.of_nat k) mod capacity rb))
      (seq 0 (Z.to_nat (osusat_ring_buffer_size rb))).

(** The buffer of the ring-buffer tests: [cap] zeroed bytes of storage. *)
Definition fresh (cap : Z) (ovw : bool) : osusat_ring_buffer_t :=
  osusat_ring_buffer_init (repeat 0 (Z.to_nat cap)) cap ovw.

(** Successive pushes, results ignored as in the tests and the example. *)
Definition push_list (rb : osusat_ring_buffer_t) (bs : list Z)
  : osusat_ring_buffer_t :=
  fold_left (fun r b => snd (osusat_ring_buffer_push r b)) bs rb.

(** [n] successive pops: the bytes obtained, oldest first, and the buffer
    afterwards; [None] as soon as one of the pops fails. *)
Fixpoint pop_n (n : nat) (rb : osusat_ring_buffer_t)
  : option (list Z * osusat_ring_buffer_t) :=
  match n with
  | O => Some ([], rb)
  | S n' =>
      match osusat_ring_buffer_pop rb with
      | None => None
      | Some (x, rb') =>
          match pop_n n' rb' with
          | None => None
          | Some (xs, rb'') => Some (x :: xs, rb'')
          end
      end
  end.

End RingBuffer.

(** ** ring_buffer_pow2.c *)

Module RingBufferPow2.

Record osusat_ring_buffer_pow2_t := {
  buffer : list Z;
  capacity : Z;
  mask : Z;
  head : Z;
  tail : Z
}.

(** [x && !(x & (x - 1))]: the right operand is evaluated only for [x <> 0],
    so [x - 1] never wraps below zero. *)
Definition osusat_is_pow2 (x : Z) : bool :=
  negb (x =? 0) && (Z.land x (x - 1) =? 0).

(** Returns the C boolean and the handle afterwards; [rb] is the handle as
    the caller passed it in, with whatever its fields held. *)
Definition osusat_ring_buffer_pow2_init (rb : osusat_ring_buffer_pow2_t)
    (storage : list Z) (cap : Z) : bool * osusat_ring_buffer_pow2_t :=
  if negb (osusat_is_pow2 cap) then (false, rb)
  else (true, {| buffer := storage; capacity := cap; mask := cap - 1;
                 head := 0; tail := 0 |}).

Definition osusat_ring_buffer_pow2_clear (rb : osusat_ring_buffer_pow2_t)
  : osusat_ring_buffer_pow2_t :=
  {| buffer := buffer rb; capacity := capacity rb; mask := mask rb;
     head := 0; tail := 0 |}.

Definition osusat_ring_buffer_pow2_empty (rb : osusat_ring_buffer_pow2_t)
  : bool := head rb =? tail rb.

Definition osusat_ring_buffer_pow2_full (rb : osusat_ring_buffer_pow2_t)
  : bool := Z.land (head rb + 1) (mask rb) =? tail rb.

Definition osusat_ring_buffer_pow2_push (rb : osusat_ring_buffer_pow2_t)
    (byte : Z) : bool * osusat_ring_buffer_pow2_t :=
  let next := Z.land (head rb + 1) (mask rb) in
  if next =? tail rb then (false, rb)
  else (true, {| buffer := Arr.set (buffer rb) (head rb) byte;
                 capacity := capacity rb; mask := mask rb;
                 head := next; tail := tail rb |}).

Definition osusat_ring_buffer_pow2_pop (rb : osusat_ring_buffer_pow2_t)
  : option (Z * osusat_ring_buffer_pow2_t) :=
  if head rb =? tail rb then None
  else Some (Arr.get 0 (buffer rb) (tail rb),
             {| buffer := buffer rb; capacity := capacity rb;
                mask := mask rb; head := head rb;
                tail := Z.land (tail rb + 1) (mask rb) |}).

Definition osusat_ring_buffer_pow2_peek (rb : osusat_ring_buffer_pow2_t)
  : option Z :=
  if head rb =? tail rb then None
  else Some (Arr.get 0 (buffer rb) (tail rb)).

(** The handle as a successful [init] leaves it and as [push] and [pop]
    keep it. *)
Definition wf (rb : osusat_ring_buffer_pow2_t) : Prop :=
  (exists k, 0 <= k /\ capacity rb = 2 ^ k) /\
  mask rb = capacity rb - 1 /\
  Z.of_nat (length (buffer rb)) = capacity rb /\
  0 <= head rb < capacity rb /\ 0 <= tail rb < capacity rb.

(** The same state read as a handle of the modulo-indexed buffer, overwrite
    disabled. *)
Definition to_generic (rb : osusat_ring_buffer_pow2_t)
  : RingBuffer.osusat_ring_buffer_t :=
  {| RingBuffer.buffer := buffer rb;
     RingBuffer.capacity := capacity rb;
     RingBuffer.head := head rb;
     RingBuffer.tail := tail rb;
     RingBuffer.overwrite := false |}.

(** The bytes a consumer will pop, oldest first. *)
Definition contents (rb : osusat_ring_buffer_pow2_t) : list Z :=
  RingBuffer.contents (to_generic rb).

(** An uninitialized handle, and the buffer of the tests: [cap] zeroed
    bytes of storage handed to [init]. *)
Definition blank : osusat_ring_buffer_pow2_t :=
  {| buffer := []; capacity := 0; mask := 0; head := 0; tail := 0 |}.

Definition fresh (cap : Z) : osusat_ring_buffer_pow2_t :=
  snd (osusat_ring_buffer_pow2_init blank (repeat 0 (Z.to_nat cap)) cap).

Definition push_list (rb : osusat_ring_buffer_pow2_t) (bs : list Z)
  : osusat_ring_buffer_pow2_t :=
  fold_left (fun r b => snd (osusat_ring_buffer_pow2_push r b)) bs rb.

End RingBufferPow2.

(** ** event_bus.c *)

Module EventBus.

Local Open Scope outcome_scope.

Definition OSUSAT_EVENT_MAX_PAYLOAD : Z := 32.
Definition OSUSAT_EVENT_MAX_SUBSCRIBERS : Z := 128.

Definition OSUSAT_BUILD_EVENT_ID (svc_uid code : Z) : Z :=
  Z.lor (uint32 (Z.shiftl (uint32 svc_uid) 16)) (Z.land (uint32 code) 65535).
Definition OSUSAT_GET_SERVICE_UID (event_id : Z) : Z :=
  uint16 (Z.shiftr event_id 16).
Definition OSUSAT_GET_LOCAL_CODE (event_id : Z) : Z :=
  uint16 (Z.land event_id 65535).

Record osusat_event_t := {
  id : Z;
  payload : list Z;       (* OSUSAT_EVENT_MAX_PAYLOAD bytes *)
  payload_len : Z
}.

(** A handler is a function pointer: [None] is NULL, [Some h] names the
    function.  The context pointer is opaque to the bus. *)
Definition osusat_event_handler_t := option nat.

Record subscriber_entry_t := {
  sub_id : Z;
  handler : osusat_event_handler_t;
  ctx : Z
}.

Record bus_t := {
  subs : list subscriber_entry_t;     (* OSUSAT_EVENT_MAX_SUBSCRIBERS slots *)
  sub_count : Z;
  queue : option (list osusat_event_t);   (* caller's storage, or NULL *)
  capacity : Z;
  head : Z;
  tail : Z
}.

Definition zero_event : osusat_event_t :=
  {| id := 0; payload := repeat 0 (Z.to_nat OSUSAT_EVENT_MAX_PAYLOAD);
     payload_len := 0 |}.
Definition zero_entry : subscriber_entry_t :=
  {| sub_id := 0; handler := None; ctx := 0 |}.

(** [memset(&bus, 0, sizeof(bus))], then the binding when it is usable. *)
Definition osusat_event_bus_init (queue_storage : option (list osusat_event_t))
    (queue_capacity : Z) : bus_t :=
  let bound := match queue_storage with
               | Some _ => 0 <? queue_capacity
               | None => false
               end in
  {| subs := repeat zero_entry (Z.to_nat OSUSAT_EVENT_MAX_SUBSCRIBERS);
     sub_count := 0;
     queue := if bound then queue_storage else None;
     capacity := if bound then queue_capacity else 0;
     head := 0;
     tail := 0 |}.

Definition osusat_event_bus_subscribe (bus : bus_t) (event_id : Z)
    (h : osusat_event_handler_t) (c : Z) : bool * bus_t :=
  if sub_count bus >=? OSUSAT_EVENT_MAX_SUBSCRIBERS then (false, bus)
  else match h with
       | None => (false, bus)
       | Some _ =>
           (true, {| subs := Arr.set (subs bus) (sub_count bus)
                               {| sub_id := event_id; handler := h; ctx := c |};
                     sub_count := sub_count bus + 1;
                     queue := queue bus;
                     capacity := capacity bus;
                     head := head bus;
                     tail := tail bus |})
       end.

(** [memcpy(dst, src, n)] on byte arrays. *)
Definition memcpy (dst src : list Z) (n : Z) : list Z :=
  firstn (Z.to_nat n) src ++ skipn (Z.to_nat n) dst.

(** [memset(dst, c, n)] on a byte array. *)
Definition memset (dst : list Z) (c : Z) (n : Z) : list Z :=
  repeat c (Z.to_nat n) ++ skipn (Z.to_nat n) dst.

(** The writes to the slot [event = &bus.queue[bus.head]]: the id, the
    length narrowed to [uint8_t], and the payload bytes.  [data] is the
    caller's buffer behind the [payload] pointer ([None] for a NULL pointer);
    it must hold at least [len] bytes. *)
Definition fill_slot (slot : osusat_event_t) (event_id : Z)
    (data : option (list Z)) (len : Z) : osusat_event_t :=
  {| id := event_id;
     payload := match data with
                | Some src =>
                    if len >? 0 then memcpy (payload slot) src len
                    else memset (payload slot) 0 OSUSAT_EVENT_MAX_PAYLOAD
                | None => memset (payload slot) 0 OSUSAT_EVENT_MAX_PAYLOAD
                end;
     payload_len := uint8 len |}.

Definition osusat_event_bus_publish (bus : bus_t) (event_id : Z)
    (data : option (list Z)) (len : Z) : bool * bus_t :=
  match queue bus with
  | None => (false, bus)
  | Some q =>
      let len := if len >? OSUSAT_EVENT_MAX_PAYLOAD
                 then OSUSAT_EVENT_MAX_PAYLOAD else len in
      let next_head := (head bus + 1) mod capacity bus in
      if negb (next_head =? tail bus) then
        let event := fill_slot (Arr.get zero_event q (head bus))
                       event_id data len in
        (true, {| subs := subs bus;
                  sub_count := sub_count bus;
                  queue := Some (Arr.set q (head bus) event);
                  capacity := capacity bus;
                  head := next_head;
                  tail := tail bus |})
      else (false, bus)
  end.

(** One handler invocation, as observed from outside: which function was
    called, on which event value, with which context. *)
Record call_t := {
  call_handler : nat;
  call_event : osusat_event_t;
  call_ctx : Z
}.

(** The subscriber scan [for (i = 0; i < sub_count; i++)], with [n] the
    number of iterations left.  Handlers are opaque: they are recorded, and
    assumed not to re-enter the bus. *)
Fixpoint scan_subscribers (table : list subscriber_entry_t) (i : Z) (n : nat)
    (ev : osusat_event_t) (calls : list call_t) : outcome (list call_t) :=
  match n with
  | O => Done calls
  | S n' =>
      let s := Arr.get zero_entry table i in
      if sub_id s =? id ev then
        match handler s with
        | None => Fault
        | Some h =>
            scan_subscribers table (i + 1) n' ev
              (calls ++ [{| call_handler := h; call_event := ev;
                            call_ctx := ctx s |}])
        end
      else scan_subscribers table (i + 1) n' ev calls
  end.

(** The drain loop [while (bus.tail != bus.head)]. *)
Fixpoint process_loop (fuel : nat) (q : list osusat_event_t) (bus : bus_t)
    (calls : list call_t) : outcome (bus_t * list call_t) :=
  if negb (tail bus =? head bus) then
    match fuel with
    | O => OutOfFuel
    | S fuel' =>
        let current_event := Arr.get zero_event q (tail bus) in
        calls' <- scan_subscribers (subs bus) 0 (Z.to_nat (sub_count bus))
                    current_event calls ;;
        process_loop fuel' q
          {| subs := subs bus;
             sub_count := sub_count bus;
             queue := queue bus;
             capacity := capacity bus;
             head := head bus;
             tail := (tail bus + 1) mod capacity bus |}
          calls'
    end
  else Done (bus, calls).

Definition osusat_event_bus_process (fuel : nat) (bus : bus_t)
  : outcome (bus_t * list call_t) :=
  match queue bus with
  | None => Done (bus, [])
  | Some q => process_loop fuel q bus []
  end.

(** The bus as [init], [subscribe] and [publish] leave it. *)
Definition wf (bus : bus_t) : Prop :=
  Z.of_nat (length (subs bus)) = OSUSAT_EVENT_MAX_SUBSCRIBERS /\
  0 <= sub_count bus <= OSUSAT_EVENT_MAX_SUBSCRIBERS /\
  (forall i, 0 <= i < sub_count bus ->
             handler (Arr.get zero_entry (subs bus) i) <> None) /\
  match queue bus with
  | None => capacity bus = 0 /\ head bus = 0 /\ tail bus = 0
  | Some q => 0 < capacity bus /\ Z.of_nat (length q) = capacity bus /\
              0 <= head bus < capacity bus /\ 0 <= tail bus < capacity bus
  end.

(** Number of events waiting in the queue. *)
Definition pending_count (bus : bus_t) : Z :=
  (head bus - tail bus) mod capacity bus.

(** The events waiting in the queue, oldest first. *)
Definition pending (bus : bus_t) : list osusat_event_t :=
  match queue bus with
  | None => []
  | Some q =>
      map (fun k => Arr.get zero_event q
                      ((tail bus + Z.of_nat k) mod capacity bus))
          (seq 0 (Z.to_nat (pending_count bus)))
  end.

(** The registered subscriptions, in registration order. *)
Definition subscriptions (bus : bus_t) : list subscriber_entry_t :=
  firstn (Z.to_nat (sub_count bus)) (subs bus).

(** What the handler contract prescribes for one event: a call for every
    subscription with the event's id, in table order. *)
Definition deliveries (table : list subscriber_entry_t) (ev : osusat_event_t)
  : list call_t :=
  flat_map (fun s =>
              if sub_id s =? id ev then
                match handler s with
                | Some h => [{| call_handler := h; call_event := ev;
                                call_ctx := ctx s |}]
                | None => []
                end
              else [])
           table.

(** API calls, for statements about arbitrary call sequences. *)
Inductive op :=
| OpInit (storage : option (list osusat_event_t)) (cap : Z)
| OpSubscribe (event_id : Z) (h : osusat_event_handler_t) (c : Z)
| OpPublish (event_id : Z) (data : option (list Z)) (len : Z)
| OpProcess (fuel : nat).

Definition step (bus : bus_t) (o : op) : bus_t :=
  match o with
  | OpInit storage cap => osusat_event_bus_init storage cap
  | OpSubscribe e h c => snd (osusat_event_bus_subscribe bus e h c)
  | OpPublish e d l => snd (osusat_event_bus_publish bus e d l)
  | OpProcess fuel =>
      match osusat_event_bus_process fuel bus with
      | Done (bus', _) => bus'
      | _ => bus
      end
  end.

Definition run (bus : bus_t) (ops : list op) : bus_t := fold_left step ops bus.

(** A sequence of publishes; [None] as soon as one is rejected. *)
Record publication := {
  pub_id : Z;
  pub_data : option (list Z);
  pub_len : Z
}.

Fixpoint publish_all (bus : bus_t) (ps : list publication) : option bus_t :=
  match ps with
  | [] => Some bus
  | p :: ps' =>
      match osusat_event_bus_publish bus (pub_id p) (pub_data p) (pub_len p) with
      | (true, bus') => publish_all bus' ps'
      | (false, _) => None
      end
  end.

(** The record [publish] leaves behind when it accepts an event. *)
Definition enqueued (bus : bus_t) (q : list osusat_event_t)
    (ev : osusat_event_t) : bus_t :=
  {| subs := subs bus; sub_count := sub_count bus;
     queue := Some (Arr.set q (head bus) ev);
     capacity := capacity bus;
     head := (head bus + 1) mod capacity bus;
     tail := tail bus |}.

(** The record [process] leaves behind when it has consumed one event. *)
Definition dequeued (bus : bus_t) : bus_t :=
  {| subs := subs bus; sub_count := sub_count bus; queue := queue bus;
     capacity := capacity bus; head := head bus;
     tail := (tail bus + 1) mod capacity bus |}.

(** The record [process] leaves behind when the queue is drained. *)
Definition drained (bus : bus_t) : bus_t :=
  {| subs := subs bus; sub_count := sub_count bus; queue := queue bus;
     capacity := capacity bus; head := head bus; tail := head bus |}.

(** The scenario of the bus tests: a queue of four slots (it holds three
    events), handler 1 subscribed to event A and handler 2 to event B, and
    the events A, B, A published in that order. *)
Definition EVENT_A : Z := OSUSAT_BUILD_EVENT_ID 47735 1.
Definition EVENT_B : Z := OSUSAT_BUILD_EVENT_ID 47735 2.

Definition test_bus : bus_t :=
  run (osusat_event_bus_init (Some (repeat zero_event 4)) 4)
      [OpSubscribe EVENT_A (Some 1%nat) 100;
       OpSubscribe EVENT_B (Some 2%nat) 200].

Definition test_publications : list publication :=
  [ {| pub_id := EVENT_A; pub_data := Some [1; 2; 3]; pub_len := 3 |};
    {| pub_id := EVENT_B; pub_data := None; pub_len := 0 |};
    {| pub_id := EVENT_A; pub_data := Some [4; 5]; pub_len := 2 |} ].

Definition full_bus : bus_t :=
  run test_bus (map (fun p => OpPublish (pub_id p) (pub_data p) (pub_len p))
                    test_publications).

Definition full_queue : list osusat_event_t :=
  match queue full_bus with
  | Some q => q
  | None => []
  end.

(** A bus whose subscriber table has been filled to the last slot. *)
Definition crowded_bus : bus_t :=
  run (osusat_event_bus_init (Some (repeat zero_event 4)) 4)
      (repeat (OpSubscribe EVENT_A (Some 1%nat) 100)
              (Z.to_nat OSUSAT_EVENT_MAX_SUBSCRIBERS)).

(** What a successful publish of [p] stores: the id, the truncated length,
    and either the caller's bytes in front or an all-zero payload. *)
Definition stored_as (p : publication) (ev : osusat_event_t) : Prop :=
  id ev = pub_id p /\
  payload_len ev = Z.min (pub_len p) OSUSAT_EVENT_MAX_PAYLOAD /\
  match pub_data p with
  | Some src =>
      0 < pub_len p ->
      firstn (Z.to_nat (Z.min (pub_len p) OSUSAT_EVENT_MAX_PAYLOAD))
             (payload ev)
      = firstn (Z.to_nat (Z.min (pub_len p) OSUSAT_EVENT_MAX_PAYLOAD)) src
  | None => True
  end.

(** The publications honour the caller's side of the interface: a length
    that is a [size_t], and a buffer that holds that many bytes (up to the
    payload capacity, beyond which nothing is read). *)
Definition publication_ok (p : publication) : Prop :=
  0 <= pub_len p /\
  match pub_data p with
  | Some src =>
      Z.min (pub_len p) OSUSAT_EVENT_MAX_PAYLOAD <= Z.of_nat (length src)
  | None => True
  end.

(** A sequence of API calls without a call of [init]. *)
Definition no_init (ops : list op) : Prop :=
  Forall (fun o => match o with OpInit _ _ => False | _ => True end) ops.

(** A sequence of API calls in which every [init] that binds storage is
    given the number of slots the storage has. *)
Definition sized_init (ops : list op) : Prop :=
  Forall (fun o => match o with
                   | OpInit (Some storage) cap =>
                       0 < cap -> Z.of_nat (length storage) = cap
                   | _ => True
                   end) ops.

(** The publishes of [ps] as API calls, results ignored. *)
Definition publish_ops (ps : list publication) : list op :=
  map (fun p => OpPublish (pub_id p) (pub_data p) (pub_len p)) ps.

End EventBus.

(** ** slog.c *)

Module Slog.

Import RingBuffer.
Local Open Scope outcome_scope.

Definition MAX_LOG_MESSAGE_LEN : Z := 128.

Inductive osusat_slog_level_t :=
| OSUSAT_SLOG_DEBUG
| OSUSAT_SLOG_INFO
| OSUSAT_SLOG_WARN
| OSUSAT_SLOG_ERROR
| OSUSAT_SLOG_CRITICAL.

Definition level_value (l : osusat_slog_level_t) : Z :=
  match l with
  | OSUSAT_SLOG_DEBUG => 0
  | OSUSAT_SLOG_INFO => 1
  | OSUSAT_SLOG_WARN => 2
  | OSUSAT_SLOG_ERROR => 3
  | OSUSAT_SLOG_CRITICAL => 4
  end.

(** The packed header; every field holds the value of its C type. *)
Record osusat_slog_entry_t := {
  timestamp_ms : Z;   (* uint32_t *)
  level : Z;          (* uint8_t *)
  component_id : Z;   (* uint8_t *)
  line : Z;           (* uint16_t *)
  message_len : Z     (* uint16_t *)
}.

Definition sizeof_entry : Z := 10.

(** The object representation of the packed struct, as the byte pointer
    [header_bytes] cast from [&entry] sees it on a little-endian target. *)
Definition entry_bytes (e : osusat_slog_entry_t) : list Z :=
  [ uint8 (timestamp_ms e);
    uint8 (timestamp_ms e / 256);
    uint8 (timestamp_ms e / 65536);
    uint8 (timestamp_ms e / 16777216);
    uint8 (level e);
    uint8 (component_id e);
    uint8 (line e);
    uint8 (line e / 256);
    uint8 (message_len e);
    uint8 (message_len e / 256) ].

(** The struct read back from the ten bytes stored through [header_bytes]. *)
Definition entry_of_bytes (bs : list Z) : osusat_slog_entry_t :=
  let b := Arr.get 0 bs in
  {| timestamp_ms := b 0 + 256 * b 1 + 65536 * b 2 + 16777216 * b 3;
     level := b 4;
     component_id := b 5;
     line := b 6 + 256 * b 7;
     message_len := b 8 + 256 * b 9 |}.

(** The timestamp source reads the environment (a tick counter, say); the
    model hands it the environment [env] of the moment of the call. *)
Definition osusat_slog_timestamp_fn_t := Z -> Z.

Record slog_state := {
  g_log_buffer : option osusat_ring_buffer_t;
  g_timestamp_fn : option osusat_slog_timestamp_fn_t;
  g_min_level : osusat_slog_level_t
}.

Definition osusat_slog_init (log_buf : option osusat_ring_buffer_t)
    (timestamp_fn : option osusat_slog_timestamp_fn_t)
    (min_level : osusat_slog_level_t) : slog_state :=
  {| g_log_buffer := log_buf; g_timestamp_fn := timestamp_fn;
     g_min_level := min_level |}.

Definition osusat_slog_change_min_log_level (st : slog_state)
    (min_level : osusat_slog_level_t) : slog_state :=
  {| g_log_buffer := g_log_buffer st; g_timestamp_fn := g_timestamp_fn st;
     g_min_level := min_level |}.

Definition with_buffer (st : slog_state) (rb : osusat_ring_buffer_t)
  : slog_state :=
  {| g_log_buffer := Some rb; g_timestamp_fn := g_timestamp_fn st;
     g_min_level := g_min_level st |}.

(** [vsnprintf(message, size, fmt, args)].  [formatted] is the complete
    expansion of [fmt] with its arguments, [None] when the conversion fails.
    The result is the array contents up to and including the terminator
    (the bytes behind it are not written and never read by the caller) and
    the returned length, which [int] is assumed to hold. *)
Definition vsnprintf (size : Z) (formatted : option (list Z)) : list Z * Z :=
  match formatted with
  | None => ([], -1)
  | Some m => (firstn (Z.to_nat (size - 1)) m ++ [0], Z.of_nat (length m))
  end.

(** [for (i = from; n iterations; i++) if (!push(rb, src[i])) return;]:
    the C boolean tells whether every push succeeded. *)
Fixpoint push_bytes (rb : osusat_ring_buffer_t) (src : list Z) (i : Z) (n : nat)
  : bool * osusat_ring_buffer_t :=
  match n with
  | O => (true, rb)
  | S n' =>
      match osusat_ring_buffer_push rb (uint8 (Arr.get 0 src i)) with
      | (false, rb') => (false, rb')
      | (true, rb') => push_bytes rb' src (i + 1) n'
      end
  end.

(** The header [write] builds once the message has been formatted. *)
Definition build_entry (st : slog_state) (env : Z) (lvl : osusat_slog_level_t)
    (component line len : Z) : osusat_slog_entry_t :=
  {| timestamp_ms := match g_timestamp_fn st with
                     | Some f => uint32 (f env)
                     | None => 0
                     end;
     level := uint8 (level_value lvl);
     component_id := component;
     line := line;
     message_len := uint16 len |}.

(** The length [write] keeps after clamping [vsnprintf]'s result. *)
Definition clamp_len (len : Z) : Z :=
  if len >=? MAX_LOG_MESSAGE_LEN then MAX_LOG_MESSAGE_LEN - 1 else len.

(** [component] and [line] are values of [uint8_t] and [uint16_t]. *)
Definition osusat_slog_write_internal (st : slog_state) (env : Z)
    (lvl : osusat_slog_level_t) (component line : Z)
    (formatted : option (list Z)) : slog_state :=
  match g_log_buffer st with
  | None => st
  | Some rb =>
      if level_value lvl <? level_value (g_min_level st) then st
      else
        let (message, len) := vsnprintf MAX_LOG_MESSAGE_LEN formatted in
        if len <? 0 then st
        else
          let len := clamp_len len in
          let entry := build_entry st env lvl component line len in
          match push_bytes rb (entry_bytes entry) 0 (Z.to_nat sizeof_entry) with
          | (false, rb') => with_buffer st rb'
          | (true, rb') =>
              with_buffer st (snd (push_bytes rb' message 0 (Z.to_nat (len + 1))))
          end
  end.

(** [for (i = 0; i < sizeof(entry); i++) if (!pop(rb, &header_bytes[i]))
    return count;]: the bytes read, or [None] when a pop failed, and the
    buffer afterwards. *)
Fixpoint pop_bytes (rb : osusat_ring_buffer_t) (n : nat)
  : option (list Z) * osusat_ring_buffer_t :=
  match n with
  | O => (Some [], rb)
  | S n' =>
      match osusat_ring_buffer_pop rb with
      | None => (None, rb)
      | Some (b, rb') =>
          match pop_bytes rb' n' with
          | (Some bs, rb'') => (Some (b :: bs), rb'')
          | (None, rb'') => (None, rb'')
          end
      end
  end.

(** The message loop [for (msg_idx = 0; msg_idx <= entry.message_len;
    msg_idx++)], with [n] the iterations the loop condition still allows.
    Every write to the local [message] array is bounds-checked. *)
Fixpoint read_message (n : nat) (msg_idx : Z) (rb : osusat_ring_buffer_t)
    (message : list Z) : outcome (osusat_ring_buffer_t * list Z) :=
  match n with
  | O => Done (rb, message)
  | S n' =>
      if msg_idx >=? MAX_LOG_MESSAGE_LEN then Done (rb, message)
      else
        match osusat_ring_buffer_pop rb with
        | None =>
            message' <- Arr.store message msg_idx 0 ;;
            Done (rb, message')
        | Some (b, rb') =>
            message' <- Arr.store message msg_idx b ;;
            if Arr.get 0 message' msg_idx =? 0 then Done (rb', message')
            else read_message n' (msg_idx + 1) rb' message'
        end
  end.

(** One invocation of the flush callback: the header and the 128-byte
    [message] array it is handed. *)
Record flush_call := {
  flushed_entry : osusat_slog_entry_t;
  flushed_message : list Z
}.

Record flush_result := {
  flush_count : Z;
  flush_calls : list flush_call;
  flush_buffer : osusat_ring_buffer_t
}.

(** The loop [while (true)] of [flush].  [stack k] is the indeterminate
    content of the local [message] array at the start of iteration [k].
    The callback is opaque: its calls are recorded, and it is assumed not to
    re-enter the logger. *)
Fixpoint flush_loop (fuel : nat) (rb : osusat_ring_buffer_t)
    (stack : nat -> list Z) (k : nat) (count : Z) (calls : list flush_call)
  : outcome flush_result :=
  if osusat_ring_buffer_empty rb then
    Done {| flush_count := count; flush_calls := calls; flush_buffer := rb |}
  else
    match fuel with
    | O => OutOfFuel
    | S fuel' =>
        match pop_bytes rb (Z.to_nat sizeof_entry) with
        | (None, rb1) =>
            Done {| flush_count := count; flush_calls := calls;
                    flush_buffer := rb1 |}
        | (Some header_bytes, rb1) =>
            let entry := entry_of_bytes header_bytes in
            r <- read_message (Z.to_nat (message_len entry + 1)) 0 rb1 (stack k) ;;
            let (rb2, message) := r in
            message' <- Arr.store message (MAX_LOG_MESSAGE_LEN - 1) 0 ;;
            flush_loop fuel' rb2 stack (S k) (count + 1)
              (calls ++ [{| flushed_entry := entry;
                            flushed_message := message' |}])
        end
    end.

(** [flush_fn] is [None] for a NULL callback.  The result carries the
    returned count, the callback invocations in order, and the logger state
    afterwards. *)
Definition osusat_slog_flush (fuel : nat) (st : slog_state)
    (flush_fn : option nat) (stack : nat -> list Z)
  : outcome (Z * list flush_call * slog_state) :=
  match g_log_buffer st, flush_fn with
  | Some rb, Some _ =>
      r <- flush_loop fuel rb stack 0 0 [] ;;
      Done (flush_count r, flush_calls r, with_buffer st (flush_buffer r))
  | _, _ => Done (0, [], st)
  end.

Definition osusat_slog_pending_count (st : slog_state) : Z :=
  match g_log_buffer st with
  | None => 0
  | Some rb => osusat_ring_buffer_size rb / 40
  end.

(** A stack whose [message] slot is 128 bytes wide at every iteration. *)
Definition stack_ok (stack : nat -> list Z) : Prop :=
  forall k, Z.of_nat (length (stack k)) = MAX_LOG_MESSAGE_LEN.

(** The bytes [push_bytes] offers to the store, in order. *)
Definition pushed (src : list Z) (i : Z) (n : nat) : list Z :=
  map (fun k => uint8 (Arr.get 0 src (i + Z.of_nat k))) (seq 0 n).

(** The callback's [message] argument is a string that ends inside the
    128-byte array: the array has that size, its last byte is NUL, and so
    the string is at most 127 characters long. *)
Definition message_ok (c : flush_call) : Prop :=
  Z.of_nat (length (flushed_message c)) = MAX_LOG_MESSAGE_LEN /\
  Arr.get 0 (flushed_message c) (MAX_LOG_MESSAGE_LEN - 1) = 0 /\
  Arr.terminated (flushed_message c) = true /\
  Z.of_nat (length (Arr.cstring (flushed_message c))) <= MAX_LOG_MESSAGE_LEN - 1.

(** The field ranges of the C types of the header. *)
Definition entry_in_range (e : osusat_slog_entry_t) : Prop :=
  0 <= timestamp_ms e < 4294967296 /\ 0 <= level e < 256 /\
  0 <= component_id e < 256 /\ 0 <= line e < 65536 /\
  0 <= message_len e < 65536.

(** [n] successive calls of [write] with the given arguments. *)
Record log_call := {
  log_env : Z;
  log_level : osusat_slog_level_t;
  log_component : Z;
  log_line : Z;
  log_formatted : option (list Z)
}.

(** The fixtures of the logging tests: a zeroed store of [cap] bytes in
    overwrite mode, and a logger bound to it whose timestamp source returns
    the mock tick it is given. *)
Definition test_store (cap : Z) : osusat_ring_buffer_t :=
  osusat_ring_buffer_init (repeat 0 (Z.to_nat cap)) cap true.

Definition mock_get_timestamp : osusat_slog_timestamp_fn_t := fun env => env.

Definition test_logger (cap : Z) (min_level : osusat_slog_level_t)
  : slog_state :=
  osusat_slog_init (Some (test_store cap)) (Some mock_get_timestamp) min_level.

Definition TEST_COMPONENT_A : Z := 16.

(** "Test message" *)
Definition test_message : list Z :=
  [84; 101; 115; 116; 32; 109; 101; 115; 115; 97; 103; 101].

Definition zero_stack : nat -> list Z :=
  fun _ => repeat 0 (Z.to_nat MAX_LOG_MESSAGE_LEN).

(** Whether [write] stores a record for the call: the level passes the
    filter and the message formats. *)
Definition accepted (min_level : osusat_slog_level_t) (c : log_call) : bool :=
  negb (level_value (log_level c) <? level_value min_level)
  && match log_formatted c with
     | Some _ => true
     | None => false
     end.

(** The number of records a sequence of writes stores. *)
Definition written (st : slog_state) (cs : list log_call) : Z :=
  Z.of_nat (length (filter (accepted (g_min_level st)) cs)).

Definition write_all (st : slog_state) (cs : list log_call) : slog_state :=
  fold_left (fun s c => osusat_slog_write_internal s (log_env c) (log_level c)
                          (log_component c) (log_line c) (log_formatted c))
            cs st.

(** The count a flush returned, and a log call of the tests. *)
Definition flushed (r : outcome (Z * list flush_call * slog_state)) : Z :=
  match r with
  | Done (count, _, _) => count
  | _ => -1
  end.

Definition log (lvl : osusat_slog_level_t) (msg : list Z) : log_call :=
  {| log_env := 0; log_level := lvl; log_component := TEST_COMPONENT_A;
     log_line := 1; log_formatted := Some msg |}.

(** The writes of the overwrite test: twenty records "Entry 0" to
    "Entry 19" into a 128-byte store. *)
Definition decimal (i : Z) : list Z :=
  if i <? 10 then [48 + i] else [48 + i / 10; 48 + i mod 10].

Definition entry_call (i : nat) : log_call :=
  {| log_env := 0; log_level := OSUSAT_SLOG_INFO;
     log_component := TEST_COMPONENT_A; log_line := 300;
     log_formatted := Some ([69; 110; 116; 114; 121; 32]
                            ++ decimal (Z.of_nat i)) |}.

Definition overwrite_calls : list log_call := map entry_call (seq 0 20).

(** Two writes, of 9 and of 11 characters, into a 32-byte store. *)
Definition torn_calls : list log_call :=
  [ {| log_env := 0; log_level := OSUSAT_SLOG_INFO;
       log_component := TEST_COMPONENT_A; log_line := 7;
       log_formatted := Some (repeat 65 9) |};
    {| log_env := 0; log_level := OSUSAT_SLOG_INFO;
       log_component := TEST_COMPONENT_A; log_line := 7;
       log_formatted := Some (repeat 65 11) |} ].


(** The message a call formats ([[]] when the conversion fails). *)
Definition call_message (c : log_call) : list Z :=
  match log_formatted c with
  | Some m => m
  | None => []
  end.

(** The header and the message string [write] stores for an accepted
    call. *)
Definition stored_entry (st : slog_state) (c : log_call)
  : osusat_slog_entry_t :=
  build_entry st (log_env c) (log_level c) (log_component c) (log_line c)
    (Z.min (Z.of_nat (length (call_message c))) 127).

Definition stored_message (c : log_call) : list Z :=
  firstn 127 (call_message c).

(** A record in the byte store: header, message, terminator. *)
Definition record_bytes (e : osusat_slog_entry_t) (msg : list Z) : list Z :=
  entry_bytes e ++ msg ++ [0].

(** The records a sequence of writes stores, in write order, and the bytes
    they take. *)
Definition stored_records (st : slog_state) (cs : list log_call)
  : list (osusat_slog_entry_t * list Z) :=
  map (fun c => (stored_entry st c, stored_message c))
      (filter (accepted (g_min_level st)) cs).

Definition stored_bytes (st : slog_state) (cs : list log_call) : list Z :=
  concat (map (fun r => record_bytes (fst r) (snd r)) (stored_records st cs)).

(** The arguments of a call are values of their C types: a [uint8_t]
    component, a [uint16_t] line, a [uint32_t] from the timestamp source,
    and a message that is a string of non-NUL bytes. *)
Definition call_ok (st : slog_state) (c : log_call) : Prop :=
  0 <= log_component c < 256 /\ 0 <= log_line c < 65536 /\
  (forall f, g_timestamp_fn st = Some f ->
             0 <= f (log_env c) < 4294967296) /\
  Forall (fun ch => 0 < ch < 256) (call_message c).

(** The typing half of [call_ok]: every argument is a value of its C
    type, the formatted output being a sequence of bytes. *)
Definition call_typed (st : slog_state) (c : log_call) : Prop :=
  0 <= log_component c < 256 /\ 0 <= log_line c < 65536 /\
  (forall f, g_timestamp_fn st = Some f ->
             0 <= f (log_env c) < 4294967296) /\
  Forall (fun ch => 0 <= ch < 256) (call_message c).

(** The formatted output of the call has no NUL byte in it. *)
Definition nul_free (c : log_call) : Prop := ~ In 0 (call_message c).

(** What the callback saw: header and message string of each invocation. *)
Definition seen (calls : list flush_call)
  : list (osusat_slog_entry_t * list Z) :=
  map (fun c => (flushed_entry c, Arr.cstring (flushed_message c))) calls.

(** A record as [write] stores them: the header fields fit their types,
    [message_len] is the length of the message, and the message is at most
    127 non-NUL bytes. *)
Definition record_ok (r : osusat_slog_entry_t * list Z) : Prop :=
  entry_in_range (fst r) /\
  message_len (fst r) = Z.of_nat (length (snd r)) /\
  Forall (fun ch => 0 < ch < 256) (snd r) /\
  Z.of_nat (length (snd r)) <= MAX_LOG_MESSAGE_LEN - 1.

End Slog.

(** * Properties *)

(** ** Arithmetic and array facts *)

Lemma mod_inside (a n : Z) : 0 <= a < n -> a mod n = a.
Proof. intros H. apply Z.mod_small. exact H. Qed.

Lemma mod_wrapped (a n : Z) : n <= a < 2 * n -> a mod n = a - n.
Proof.
  intros H. replace a with ((a - n) + 1 * n) at 1 by ring.
  rewrite Z_mod_plus_full. apply Z.mod_small. lia.
Qed.

Lemma mod_succ_cases (a n : Z) :
  0 < n -> 0 <= a < n ->
  (a + 1 < n /\ (a + 1) mod n = a + 1) \/ (a + 1 = n /\ (a + 1) mod n = 0).
Proof.
  intros Hn Ha. destruct (Z.eq_dec (a + 1) n) as [E | E].
  - right. split; [exact E|]. rewrite E. apply Z_mod_same_full.
  - left. split; [lia|]. apply Z.mod_small. lia.
Qed.

Lemma mod_negative (a n : Z) : - n <= a < 0 -> a mod n = a + n.
Proof.
  intros H. replace a with ((a + n) + (-1) * n) at 1 by ring.
  rewrite Z_mod_plus_full. apply Z.mod_small. lia.
Qed.

(** Case analysis on every comparison of ring indices in the goal. *)
Ltac index_cases :=
  repeat match goal with
         | |- context [?a >=? ?b] => destruct (Z.geb_spec a b)
         end.

Module ArrFacts.
Import Arr.

Lemma length_upd {A} (n : nat) (v : A) (l : list A) :
  length (upd n v l) = length l.
Proof.
  revert n. induction l as [|x t IH]; intros [|n]; simpl; auto.
Qed.

Lemma nth_upd_same {A} (n : nat) (v d : A) (l : list A) :
  (n < length l)%nat -> nth n (upd n v l) d = v.
Proof.
  revert n. induction l as [|x t IH]; intros [|n] H; simpl in *; try lia; auto.
  apply IH. lia.
Qed.

Lemma nth_upd_other {A} (n m : nat) (v d : A) (l : list A) :
  n <> m -> nth m (upd n v l) d = nth m l d.
Proof.
  revert n m. induction l as [|x t IH]; intros [|n] [|m] H; simpl; auto;
    congruence.
Qed.

Lemma firstn_upd_snoc {A} (n : nat) (v : A) (l : list A) :
  (n < length l)%nat -> firstn (S n) (upd n v l) = firstn n l ++ [v].
Proof.
  revert n. induction l as [|x t IH]; intros [|n] H; simpl in *; try lia; auto.
  f_equal. apply IH. lia.
Qed.

Lemma Forall_firstn {A} (P : A -> Prop) (l : list A) :
  Forall P l -> forall n, Forall P (firstn n l).
Proof.
  induction 1 as [|x l Hx _ IH]; intros [|n]; simpl; constructor; auto.
Qed.

Lemma upd_split {A} (n : nat) (v : A) (l : list A) :
  (n < length l)%nat -> upd n v l = firstn n l ++ v :: skipn (S n) l.
Proof.
  revert n. induction l as [|x t IH]; intros [|n] H; simpl in *; try lia; auto.
  f_equal. apply IH. lia.
Qed.

Lemma length_set {A} (a : list A) (i : Z) (v : A) :
  length (set a i v) = length a.
Proof. apply length_upd. Qed.

Lemma get_set_same {A} (d : A) (a : list A) (i : Z) (v : A) :
  0 <= i < Z.of_nat (length a) -> get d (set a i v) i = v.
Proof. intros H. apply nth_upd_same. lia. Qed.

Lemma get_set_other {A} (d : A) (a : list A) (i j : Z) (v : A) :
  0 <= i -> 0 <= j -> i <> j -> get d (set a i v) j = get d a j.
Proof. intros Hi Hj H. apply nth_upd_other. lia. Qed.

(** A stretch of [n] slots of a circular array, starting at slot [t]. *)
Lemma window_cons {A} (d : A) (q : list A) (cap t : Z) (n : nat) :
  0 <= t < cap ->
  map (fun k => Arr.get d q ((t + Z.of_nat k) mod cap)) (seq 0 (S n))
  = Arr.get d q t
    :: map (fun k => Arr.get d q (((t + 1) mod cap + Z.of_nat k) mod cap))
           (seq 0 n).
Proof.
  intros Ht. rewrite <- cons_seq, <- seq_shift. cbn [map]. rewrite map_map.
  f_equal.
  - change (Z.of_nat 0) with 0. now rewrite Z.add_0_r, mod_inside.
  - apply map_ext. intros k. f_equal. rewrite Zplus_mod_idemp_l.
    f_equal. lia.
Qed.

Lemma window_snoc {A} (d : A) (q : list A) (cap t h : Z) (n : nat) (v : A) :
  0 < cap -> Z.of_nat (length q) = cap -> 0 <= h < cap ->
  (t + Z.of_nat n) mod cap = h ->
  (forall k, 0 <= k < Z.of_nat n -> (t + k) mod cap <> h) ->
  map (fun k => Arr.get d (Arr.set q h v) ((t + Z.of_nat k) mod cap))
      (seq 0 (n + 1))
  = map (fun k => Arr.get d q ((t + Z.of_nat k) mod cap)) (seq 0 n) ++ [v].
Proof.
  intros Hc Hl Hh Hat Hbefore. rewrite seq_app, map_app. cbn [seq map].
  f_equal.
  - apply map_ext_in. intros k Hk. apply in_seq in Hk.
    apply get_set_other; try lia.
    + apply Z.mod_pos_bound. lia.
    + intros E. symmetry in E. revert E. apply Hbefore. lia.
  - f_equal. rewrite Nat.add_0_l, Hat. apply get_set_same. lia.
Qed.

Lemma keep_last_all {A} (n : nat) (l : list A) :
  (length l <= n)%nat -> keep_last n l = l.
Proof.
  intros H. unfold keep_last.
  replace (length l - n)%nat with 0%nat by lia. reflexivity.
Qed.

Lemma keep_last_app {A} (n : nat) (l m : list A) :
  keep_last n (keep_last n l ++ m) = keep_last n (l ++ m).
Proof.
  destruct (Nat.le_gt_cases (length l) n) as [Hle | Hgt].
  - now rewrite (keep_last_all n l Hle).
  - unfold keep_last. rewrite !length_app, length_skipn, !skipn_app.
    rewrite skipn_skipn, length_skipn. f_equal; f_equal; lia.
Qed.

Lemma store_done {A} (a : list A) (i : Z) (v : A) :
  0 <= i < Z.of_nat (length a) -> store a i v = Done (set a i v).
Proof.
  intros [H1 H2]. unfold store.
  apply Z.leb_le in H1. apply Z.ltb_lt in H2. rewrite H1, H2. reflexivity.
Qed.

Lemma cstring_app_nul (m rest : list Z) :
  Forall (fun c => c <> 0) m -> cstring (m ++ 0 :: rest) = m.
Proof.
  induction 1 as [|c m Hc _ IH]; simpl.
  - reflexivity.
  - destruct (Z.eqb_spec c 0) as [E | _]; [contradiction|]. now rewrite IH.
Qed.

Lemma cstring_length_le (l : list Z) :
  forall n : nat, (n < length l)%nat -> nth n l 0 = 0 ->
                  (length (cstring l) <= n)%nat.
Proof.
  induction l as [|c t IH]; intros n Hn Hz; simpl in *.
  - lia.
  - destruct (Z.eqb_spec c 0) as [E | E]; simpl; [lia|].
    destruct n as [|n]; [contradiction|].
    apply le_n_S, IH; [lia | exact Hz].
Qed.

Lemma terminated_of_nul (l : list Z) (n : nat) :
  (n < length l)%nat -> nth n l 0 = 0 -> terminated l = true.
Proof.
  intros Hn Hz. unfold terminated. apply existsb_exists.
  exists 0. split; [|reflexivity]. rewrite <- Hz. apply nth_In. exact Hn.
Qed.

Lemma cstring_upd_nul (l : list Z) :
  forall n : nat, (length (cstring l) <= n)%nat ->
                  cstring (upd n 0 l) = cstring l.
Proof.
  induction l as [|c t IH]; intros n Hn; simpl in *.
  - reflexivity.
  - destruct (Z.eqb_spec c 0) as [E | E].
    + destruct n as [|n]; simpl; [reflexivity|].
      destruct (Z.eqb_spec c 0); [reflexivity|contradiction].
    + simpl in Hn. destruct n as [|n]; [lia|]. simpl.
      destruct (Z.eqb_spec c 0); [contradiction|].
      f_equal. apply IH. lia.
Qed.

End ArrFacts.

(** ** Facts about ring_buffer.c *)

Module RingBufferFacts.
Import RingBuffer.

Lemma size_range (rb : osusat_ring_buffer_t) :
  wf rb -> 0 <= osusat_ring_buffer_size rb < capacity rb.
Proof.
  intros (Hc & _ & Hh & Ht). unfold osusat_ring_buffer_size.
  destruct (Z.geb_spec (head rb) (tail rb)); lia.
Qed.

Lemma empty_size (rb : osusat_ring_buffer_t) :
  wf rb ->
  osusat_ring_buffer_empty rb = (osusat_ring_buffer_size rb =? 0).
Proof.
  intros (Hc & _ & Hh & Ht).
  unfold osusat_ring_buffer_empty, osusat_ring_buffer_size.
  destruct (Z.geb_spec (head rb) (tail rb));
    destruct (Z.eqb_spec (head rb) (tail rb)); symmetry;
    try (apply Z.eqb_eq; lia); apply Z.eqb_neq; lia.
Qed.

Lemma contents_length (rb : osusat_ring_buffer_t) :
  wf rb -> Z.of_nat (length (contents rb)) = osusat_ring_buffer_size rb.
Proof.
  intros H. unfold contents. rewrite length_map, length_seq.
  pose proof (size_range rb H). lia.
Qed.

(** The slot [k] places behind [tail] is the slot at [head] exactly when [k]
    is the number of stored bytes. *)
Lemma slot_at_size (rb : osusat_ring_buffer_t) :
  wf rb ->
  (tail rb + osusat_ring_buffer_size rb) mod capacity rb = head rb.
Proof.
  intros (Hc & _ & Hh & Ht). unfold osusat_ring_buffer_size.
  destruct (Z.geb_spec (head rb) (tail rb)).
  - rewrite mod_inside by lia. lia.
  - rewrite mod_wrapped by lia. lia.
Qed.

Lemma slot_before_size (rb : osusat_ring_buffer_t) (k : Z) :
  wf rb -> 0 <= k < osusat_ring_buffer_size rb ->
  (tail rb + k) mod capacity rb <> head rb.
Proof.
  intros (Hc & _ & Hh & Ht). unfold osusat_ring_buffer_size.
  destruct (Z.geb_spec (head rb) (tail rb)); intros Hk.
  - rewrite mod_inside by lia. lia.
  - destruct (Z_lt_ge_dec (tail rb + k) (capacity rb)).
    + rewrite mod_inside by lia. lia.
    + rewrite mod_wrapped by lia. lia.
Qed.

Lemma push_wf (rb : osusat_ring_buffer_t) (b : Z) :
  wf rb -> wf (snd (osusat_ring_buffer_push rb b)).
Proof.
  intros H. pose proof H as (Hc & Hl & Hh & Ht).
  unfold osusat_ring_buffer_push.
  destruct ((head rb + 1) mod capacity rb =? tail rb) eqn:E;
    destruct (overwrite rb); simpl; try exact H;
    unfold wf; simpl; rewrite ArrFacts.length_set;
    pose proof (Z.mod_pos_bound (head rb + 1) (capacity rb) Hc);
    pose proof (Z.mod_pos_bound (tail rb + 1) (capacity rb) Hc); lia.
Qed.

Lemma push_capacity (rb : osusat_ring_buffer_t) (b : Z) :
  capacity (snd (osusat_ring_buffer_push rb b)) = capacity rb.
Proof.
  unfold osusat_ring_buffer_push.
  destruct (((head rb + 1) mod capacity rb =? tail rb) && negb (overwrite rb));
    reflexivity.
Qed.

(** Pushing into a buffer with room appends to what the consumer sees. *)
Lemma push_room (rb : osusat_ring_buffer_t) (b : Z) :
  wf rb -> osusat_ring_buffer_size rb + 1 < capacity rb ->
  exists rb',
    osusat_ring_buffer_push rb b = (true, rb') /\ wf rb' /\
    capacity rb' = capacity rb /\
    osusat_ring_buffer_size rb' = osusat_ring_buffer_size rb + 1 /\
    contents rb' = contents rb ++ [b].
Proof.
  intros H Hroom. pose proof H as (Hc & Hl & Hh & Ht).
  pose proof (push_wf rb b H) as Hwf'.
  pose proof (size_range rb H) as Hs.
  assert (Hnext : (head rb + 1) mod capacity rb <> tail rb).
  { unfold osusat_ring_buffer_size in Hroom.
    destruct (Z.geb_spec (head rb) (tail rb));
      destruct (mod_succ_cases (head rb) (capacity rb) Hc Hh) as [[? E]|[? E]];
      rewrite E; lia. }
  unfold osusat_ring_buffer_push in *.
  apply Z.eqb_neq in Hnext. rewrite Hnext in *. simpl in Hwf'. simpl.
  eexists. split; [reflexivity|]. split; [exact Hwf'|]. split; [reflexivity|].
  apply Z.eqb_neq in Hnext.
  assert (Hsize : osusat_ring_buffer_size
            {| buffer := Arr.set (buffer rb) (head rb) b;
               capacity := capacity rb;
               head := (head rb + 1) mod capacity rb;
               tail := tail rb; overwrite := overwrite rb |}
          = osusat_ring_buffer_size rb + 1).
  { unfold osusat_ring_buffer_size in *. simpl.
    destruct (mod_succ_cases (head rb) (capacity rb) Hc Hh) as [[? E]|[? E]];
      rewrite E in *;
      index_cases; lia. }
  split; [exact Hsize|].
  unfold contents at 1. rewrite Hsize. simpl.
  replace (Z.to_nat (osusat_ring_buffer_size rb + 1))
    with (Z.to_nat (osusat_ring_buffer_size rb) + 1)%nat by lia.
  rewrite seq_app, map_app. simpl. f_equal.
  - unfold contents. apply map_ext_in. intros k Hk. apply in_seq in Hk.
    apply ArrFacts.get_set_other; try lia.
    + apply Z.mod_pos_bound. lia.
    + intros E. symmetry in E. revert E. apply slot_before_size; [exact H|lia].
  - f_equal. rewrite Z2Nat.id by lia. rewrite slot_at_size by exact H.
    apply ArrFacts.get_set_same. lia.
Qed.

(** Pushing into a full buffer in overwrite mode drops the oldest byte. *)
Lemma push_full_overwrite (rb : osusat_ring_buffer_t) (b : Z) :
  wf rb -> overwrite rb = true ->
  osusat_ring_buffer_size rb + 1 = capacity rb ->
  exists rb',
    osusat_ring_buffer_push rb b = (true, rb') /\ wf rb' /\
    capacity rb' = capacity rb /\ overwrite rb' = true /\
    osusat_ring_buffer_size rb' = osusat_ring_buffer_size rb /\
    contents rb' = skipn 1 (contents rb ++ [b]).
Proof.
  intros H Hov Hfull. pose proof H as (Hc & Hl & Hh & Ht).
  pose proof (push_wf rb b H) as Hwf'.
  assert (Hnext : (head rb + 1) mod capacity rb = tail rb).
  { unfold osusat_ring_buffer_size in Hfull.
    destruct (Z.geb_spec (head rb) (tail rb));
      destruct (mod_succ_cases (head rb) (capacity rb) Hc Hh) as [[? E]|[? E]];
      rewrite E; lia. }
  unfold osusat_ring_buffer_push in *.
  rewrite Hnext, Z.eqb_refl, Hov in *. cbn [negb andb snd] in *.
  eexists. split; [reflexivity|]. split; [exact Hwf'|].
  split; [reflexivity|]. split; [reflexivity|].
  assert (Hsize : osusat_ring_buffer_size
            {| buffer := Arr.set (buffer rb) (head rb) b;
               capacity := capacity rb; head := tail rb;
               tail := (tail rb + 1) mod capacity rb;
               overwrite := true |}
          = osusat_ring_buffer_size rb).
  { unfold osusat_ring_buffer_size in *. cbn [head tail capacity].
    destruct (mod_succ_cases (tail rb) (capacity rb) Hc Ht) as [[? E]|[? E]];
      rewrite E;
      index_cases; lia. }
  split; [exact Hsize|].
  unfold contents at 1. rewrite Hsize. cbn [buffer tail capacity].
  pose proof (size_range rb H) as Hs.
  destruct (Z.eq_dec (osusat_ring_buffer_size rb) 0) as [Hz | Hnz].
  - unfold contents. rewrite Hz. reflexivity.
  - unfold contents.
    replace (Z.to_nat (osusat_ring_buffer_size rb))
      with (S (Z.to_nat (osusat_ring_buffer_size rb - 1))) at 2 by lia.
    rewrite (ArrFacts.window_cons 0 (buffer rb) (capacity rb) (tail rb) _ Ht).
    cbn [app skipn].
    replace (Z.to_nat (osusat_ring_buffer_size rb))
      with (Z.to_nat (osusat_ring_buffer_size rb - 1) + 1)%nat by lia.
    apply ArrFacts.window_snoc; try assumption.
    + rewrite Zplus_mod_idemp_l, Z2Nat.id by lia.
      rewrite <- (slot_at_size rb H). f_equal. lia.
    + intros k Hk. rewrite Zplus_mod_idemp_l.
      replace (tail rb + 1 + k) with (tail rb + (k + 1)) by lia.
      apply slot_before_size; [exact H|lia].
Qed.

(** In overwrite mode every push succeeds, and the store keeps the newest
    capacity - 1 bytes. *)
Lemma push_overwrite (rb : osusat_ring_buffer_t) (b : Z) :
  wf rb -> overwrite rb = true ->
  exists rb',
    osusat_ring_buffer_push rb b = (true, rb') /\ wf rb' /\
    capacity rb' = capacity rb /\ overwrite rb' = true /\
    contents rb'
    = Arr.keep_last (Z.to_nat (capacity rb - 1)) (contents rb ++ [b]).
Proof.
  intros H Hov. pose proof (size_range rb H) as Hs.
  pose proof (contents_length rb H) as Hlen.
  destruct (Z.eq_dec (osusat_ring_buffer_size rb + 1) (capacity rb))
    as [Hfull | Hroom].
  - destruct (push_full_overwrite rb b H Hov Hfull)
      as (rb' & Hp & Hwf' & Hc' & Hov' & _ & Hk).
    exists rb'. split; [exact Hp|]. split; [exact Hwf'|].
    split; [exact Hc'|]. split; [exact Hov'|]. rewrite Hk.
    unfold Arr.keep_last. f_equal. rewrite length_app. cbn [length]. lia.
  - destruct (push_room rb b H) as (rb' & Hp & Hwf' & Hc' & _ & Hk); [lia|].
    exists rb'. split; [exact Hp|]. split; [exact Hwf'|].
    split; [exact Hc'|]. split.
    + unfold osusat_ring_buffer_push in Hp.
      destruct (((head rb + 1) mod capacity rb =? tail rb)
                && negb (overwrite rb)); [discriminate|].
      injection Hp as <-. exact Hov.
    + rewrite Hk. symmetry. apply ArrFacts.keep_last_all.
      rewrite length_app. cbn [length]. lia.
Qed.

(** Popping hands out the oldest byte; it fails exactly on an empty buffer. *)
Lemma pop_spec (rb : osusat_ring_buffer_t) :
  wf rb ->
  (osusat_ring_buffer_pop rb = None /\ contents rb = [] /\
   osusat_ring_buffer_size rb = 0) \/
  (exists x rb',
     osusat_ring_buffer_pop rb = Some (x, rb') /\ wf rb' /\
     capacity rb' = capacity rb /\
     osusat_ring_buffer_size rb' = osusat_ring_buffer_size rb - 1 /\
     contents rb = x :: contents rb').
Proof.
  intros H. pose proof H as (Hc & Hl & Hh & Ht).
  pose proof (size_range rb H) as Hs.
  unfold osusat_ring_buffer_pop.
  destruct (Z.eqb_spec (tail rb) (head rb)) as [E | E].
  - left. split; [reflexivity|].
    assert (Hz : osusat_ring_buffer_size rb = 0).
    { unfold osusat_ring_buffer_size.
      destruct (Z.geb_spec (head rb) (tail rb)); lia. }
    split; [|exact Hz]. unfold contents. rewrite Hz. reflexivity.
  - right. eexists. eexists. split; [reflexivity|].
    assert (Hwf' : wf {| buffer := buffer rb; capacity := capacity rb;
                         head := head rb;
                         tail := (tail rb + 1) mod capacity rb;
                         overwrite := overwrite rb |}).
    { repeat split; simpl; try lia; apply Z.mod_pos_bound; lia. }
    split; [exact Hwf'|]. split; [reflexivity|].
    assert (Hsize : osusat_ring_buffer_size
              {| buffer := buffer rb; capacity := capacity rb;
                 head := head rb;
                 tail := (tail rb + 1) mod capacity rb;
                 overwrite := overwrite rb |}
            = osusat_ring_buffer_size rb - 1).
    { unfold osusat_ring_buffer_size in *. simpl.
      destruct (mod_succ_cases (tail rb) (capacity rb) Hc Ht) as [[? E']|[? E']];
        rewrite E' in *;
        index_cases; lia. }
    split; [exact Hsize|].
    unfold contents at 2. rewrite Hsize. simpl.
    unfold contents.
    assert (Hpos : 0 < osusat_ring_buffer_size rb).
    { unfold osusat_ring_buffer_size.
      destruct (Z.geb_spec (head rb) (tail rb)); lia. }
    replace (Z.to_nat (osusat_ring_buffer_size rb))
      with (S (Z.to_nat (osusat_ring_buffer_size rb - 1))) by lia.
    rewrite <- cons_seq, <- seq_shift. cbn [map]. rewrite map_map. f_equal.
    + change (Z.of_nat 0) with 0. rewrite Z.add_0_r, mod_inside by lia.
      reflexivity.
    + apply map_ext. intros k. f_equal.
      rewrite Zplus_mod_idemp_l. f_equal. lia.
Qed.

End RingBufferFacts.

(** ** Facts about slog.c *)

Module SlogFacts.
Import RingBuffer Slog RingBufferFacts.

Lemma map_nth_seq {A B} (f : A -> B) (d : A) (l : list A) :
  map (fun k => f (nth k l d)) (seq 0 (length l)) = map f l.
Proof.
  induction l as [|x t IH]; simpl.
  - reflexivity.
  - f_equal. rewrite <- seq_shift, map_map. exact IH.
Qed.

Lemma pushed_all (src : list Z) :
  pushed src 0 (length src) = map uint8 src.
Proof.
  unfold pushed. rewrite <- (map_nth_seq uint8 0 src).
  apply map_ext. intros k. unfold Arr.get.
  now rewrite Z.add_0_l, Nat2Z.id.
Qed.

Lemma map_uint8_id (l : list Z) :
  Forall (fun c => 0 <= c < 256) l -> map uint8 l = l.
Proof.
  induction 1 as [|c l Hc _ IH]; simpl.
  - reflexivity.
  - unfold uint8 at 1. rewrite Z.mod_small by exact Hc. now rewrite IH.
Qed.

Lemma entry_bytes_range (e : osusat_slog_entry_t) :
  Forall (fun c => 0 <= c < 256) (entry_bytes e).
Proof.
  unfold entry_bytes, uint8.
  repeat (constructor; [apply Z.mod_pos_bound; lia|]). constructor.
Qed.

Lemma entry_bytes_length (e : osusat_slog_entry_t) :
  length (entry_bytes e) = Z.to_nat sizeof_entry.
Proof. reflexivity. Qed.

Lemma bytes_of_uint32 (x : Z) :
  0 <= x < 4294967296 ->
  uint8 x + 256 * uint8 (x / 256) + 65536 * uint8 (x / 65536)
  + 16777216 * uint8 (x / 16777216) = x.
Proof. unfold uint8. intros H. Z.div_mod_to_equations. lia. Qed.

Lemma bytes_of_uint16 (x : Z) :
  0 <= x < 65536 -> uint8 x + 256 * uint8 (x / 256) = x.
Proof. unfold uint8. intros H. Z.div_mod_to_equations. lia. Qed.

Lemma bytes_of_uint8 (x : Z) : 0 <= x < 256 -> uint8 x = x.
Proof. unfold uint8. intros H. apply Z.mod_small. exact H. Qed.

(** Reading the ten header bytes back yields the header that was stored. *)
Lemma entry_roundtrip (e : osusat_slog_entry_t) :
  entry_in_range e -> entry_of_bytes (entry_bytes e) = e.
Proof.
  destruct e as [ts lv co li ml].
  unfold entry_in_range, entry_of_bytes, entry_bytes, Arr.get.
  cbn [timestamp_ms level component_id line message_len].
  intros (Hts & Hlv & Hco & Hli & Hml).
  change (Z.to_nat 0) with 0%nat. change (Z.to_nat 1) with 1%nat.
  change (Z.to_nat 2) with 2%nat. change (Z.to_nat 3) with 3%nat.
  change (Z.to_nat 4) with 4%nat. change (Z.to_nat 5) with 5%nat.
  change (Z.to_nat 6) with 6%nat. change (Z.to_nat 7) with 7%nat.
  change (Z.to_nat 8) with 8%nat. change (Z.to_nat 9) with 9%nat.
  cbn [nth].
  rewrite (bytes_of_uint32 ts Hts), (bytes_of_uint16 li Hli),
    (bytes_of_uint16 ml Hml), (bytes_of_uint8 lv Hlv), (bytes_of_uint8 co Hco).
  reflexivity.
Qed.

Lemma message_len_roundtrip (e : osusat_slog_entry_t) :
  0 <= message_len e < 65536 ->
  message_len (entry_of_bytes (entry_bytes e)) = message_len e.
Proof.
  intros H. unfold entry_of_bytes, entry_bytes, Arr.get. cbn [message_len].
  change (Z.to_nat 8) with 8%nat. change (Z.to_nat 9) with 9%nat.
  cbn [nth]. apply bytes_of_uint16. exact H.
Qed.

(** With room for [n] more bytes, [push_bytes] stores them all, in order. *)
Lemma push_bytes_room (n : nat) :
  forall (rb : osusat_ring_buffer_t) (src : list Z) (i : Z),
    wf rb -> osusat_ring_buffer_size rb + Z.of_nat n < capacity rb ->
    exists rb',
      push_bytes rb src i n = (true, rb') /\ wf rb' /\
      capacity rb' = capacity rb /\
      osusat_ring_buffer_size rb' = osusat_ring_buffer_size rb + Z.of_nat n /\
      contents rb' = contents rb ++ pushed src i n.
Proof.
  induction n as [|n IH]; intros rb src i Hwf Hroom.
  - exists rb. simpl. unfold pushed. simpl. rewrite app_nil_r.
    split; [reflexivity|]. split; [exact Hwf|]. split; [reflexivity|].
    split; [lia|reflexivity].
  - cbn [push_bytes].
    destruct (push_room rb (uint8 (Arr.get 0 src i)) Hwf)
      as (rb1 & Hp & Hwf1 & Hc1 & Hs1 & Hk1); [lia|].
    rewrite Hp.
    destruct (IH rb1 src (i + 1) Hwf1) as (rb2 & Hp2 & Hwf2 & Hc2 & Hs2 & Hk2);
      [lia|].
    exists rb2. split; [exact Hp2|]. split; [exact Hwf2|].
    split; [congruence|]. split; [lia|].
    rewrite Hk2, Hk1, <- app_assoc. f_equal.
    unfold pushed. rewrite <- cons_seq, <- seq_shift. cbn [map app].
    rewrite map_map. f_equal.
    + change (Z.of_nat 0) with 0. now rewrite Z.add_0_r.
    + apply map_ext. intros k. do 2 f_equal. lia.
Qed.

(** In overwrite mode [push_bytes] stores every byte, and the store keeps
    the newest capacity - 1 of the old and the new ones. *)
Lemma push_bytes_overwrite (n : nat) :
  forall (rb : osusat_ring_buffer_t) (src : list Z) (i : Z),
    wf rb -> overwrite rb = true ->
    exists rb',
      push_bytes rb src i n = (true, rb') /\ wf rb' /\
      capacity rb' = capacity rb /\ overwrite rb' = true /\
      contents rb'
      = Arr.keep_last (Z.to_nat (capacity rb - 1))
          (contents rb ++ pushed src i n).
Proof.
  induction n as [|n IH]; intros rb src i Hwf Hov.
  - exists rb. cbn [push_bytes]. unfold pushed. cbn [seq map].
    rewrite app_nil_r. split; [reflexivity|]. split; [exact Hwf|].
    split; [reflexivity|]. split; [exact Hov|].
    symmetry. apply ArrFacts.keep_last_all.
    pose proof (contents_length rb Hwf). pose proof (size_range rb Hwf). lia.
  - cbn [push_bytes].
    destruct (push_overwrite rb (uint8 (Arr.get 0 src i)) Hwf Hov)
      as (rb1 & Hp & Hwf1 & Hc1 & Hov1 & Hk1).
    rewrite Hp.
    destruct (IH rb1 src (i + 1) Hwf1 Hov1)
      as (rb2 & Hp2 & Hwf2 & Hc2 & Hov2 & Hk2).
    exists rb2. split; [exact Hp2|]. split; [exact Hwf2|].
    split; [congruence|]. split; [exact Hov2|].
    rewrite Hk2, Hk1, Hc1, ArrFacts.keep_last_app, <- app_assoc.
    do 2 f_equal.
    unfold pushed. rewrite <- cons_seq, <- seq_shift. cbn [map app].
    rewrite map_map. f_equal.
    + change (Z.of_nat 0) with 0. now rewrite Z.add_0_r.
    + apply map_ext. intros k. do 2 f_equal. lia.
Qed.

(** [push_bytes] keeps the handle well formed whatever the store holds. *)
Lemma push_bytes_wf (n : nat) :
  forall (rb : osusat_ring_buffer_t) (src : list Z) (i : Z),
    wf rb -> wf (snd (push_bytes rb src i n)).
Proof.
  induction n as [|n IH]; intros rb src i Hwf; cbn [push_bytes].
  - exact Hwf.
  - pose proof (push_wf rb (uint8 (Arr.get 0 src i)) Hwf) as H1.
    destruct (osusat_ring_buffer_push rb (uint8 (Arr.get 0 src i)))
      as [[|] rb1]; simpl in H1.
    + apply IH. exact H1.
    + exact H1.
Qed.

Lemma push_bytes_capacity (n : nat) :
  forall (rb : osusat_ring_buffer_t) (src : list Z) (i : Z),
    capacity (snd (push_bytes rb src i n)) = capacity rb.
Proof.
  induction n as [|n IH]; intros rb src i; cbn [push_bytes]; [reflexivity|].
  pose proof (push_capacity rb (uint8 (Arr.get 0 src i))) as H1.
  destruct (osusat_ring_buffer_push rb (uint8 (Arr.get 0 src i)))
    as [[|] rb1]; simpl in H1.
  - rewrite IH. exact H1.
  - exact H1.
Qed.

(** [pop_bytes] reads a prefix of the stored bytes. *)
Lemma pop_bytes_prefix (bs : list Z) :
  forall (rb : osusat_ring_buffer_t) (rest : list Z),
    wf rb -> contents rb = bs ++ rest ->
    exists rb',
      pop_bytes rb (length bs) = (Some bs, rb') /\ wf rb' /\
      capacity rb' = capacity rb /\ contents rb' = rest.
Proof.
  induction bs as [|b bs IH]; intros rb rest Hwf Hc; cbn [pop_bytes length].
  - exists rb. auto.
  - destruct (pop_spec rb Hwf) as [(_ & Hnil & _) | (x & rb1 & Hp & Hwf1 & Hc1 & _ & Hk)].
    + rewrite Hnil in Hc. discriminate.
    + rewrite Hp. rewrite Hk in Hc. simpl in Hc. injection Hc as -> Hc.
      destruct (IH rb1 rest Hwf1 Hc) as (rb2 & Hp2 & Hwf2 & Hc2 & Hk2).
      rewrite Hp2. exists rb2. split; [reflexivity|]. split; [exact Hwf2|].
      split; [congruence|exact Hk2].
Qed.

(** In general [pop_bytes] either reads [n] bytes or runs the store dry. *)
Lemma pop_bytes_size (n : nat) :
  forall (rb : osusat_ring_buffer_t),
    wf rb ->
    exists r rb',
      pop_bytes rb n = (r, rb') /\ wf rb' /\
      match r with
      | Some bs => osusat_ring_buffer_size rb' =
                   osusat_ring_buffer_size rb - Z.of_nat n
      | None => osusat_ring_buffer_size rb' = 0
      end.
Proof.
  induction n as [|n IH]; intros rb Hwf; cbn [pop_bytes].
  - exists (Some []), rb. split; [reflexivity|]. split; [exact Hwf|]. lia.
  - destruct (pop_spec rb Hwf) as [(Hp & _ & Hz) | (x & rb1 & Hp & Hwf1 & _ & Hs & _)];
      rewrite Hp.
    + exists None, rb. auto.
    + destruct (IH rb1 Hwf1) as (r & rb2 & Hp2 & Hwf2 & Hr). rewrite Hp2.
      destruct r as [bs|].
      * exists (Some (x :: bs)), rb2. split; [reflexivity|].
        split; [exact Hwf2|]. lia.
      * exists None, rb2. auto.
Qed.

Lemma pop_capacity (rb : osusat_ring_buffer_t) :
  match osusat_ring_buffer_pop rb with
  | Some (_, rb') => capacity rb' = capacity rb
  | None => True
  end.
Proof.
  unfold osusat_ring_buffer_pop. destruct (tail rb =? head rb); simpl; auto.
Qed.

Lemma pop_bytes_capacity (n : nat) :
  forall rb : osusat_ring_buffer_t,
    capacity (snd (pop_bytes rb n)) = capacity rb.
Proof.
  induction n as [|n IH]; intros rb; cbn [pop_bytes]; [reflexivity|].
  pose proof (pop_capacity rb) as H.
  destruct (osusat_ring_buffer_pop rb) as [[b rb1]|]; [|reflexivity].
  specialize (IH rb1).
  destruct (pop_bytes rb1 n) as [[bs|] rb2]; simpl in *; congruence.
Qed.

Lemma read_message_capacity (n : nat) :
  forall (idx : Z) (rb : osusat_ring_buffer_t) (message : list Z),
    match read_message n idx rb message with
    | Done r => capacity (fst r) = capacity rb
    | _ => True
    end.
Proof.
  induction n as [|n IH]; intros idx rb message; cbn [read_message].
  - reflexivity.
  - destruct (idx >=? MAX_LOG_MESSAGE_LEN); [reflexivity|].
    pose proof (pop_capacity rb) as H.
    destruct (osusat_ring_buffer_pop rb) as [[b rb1]|].
    + destruct (Arr.store message idx b) as [m| |]; cbn [bind]; auto.
      destruct (Arr.get 0 m idx =? 0); [exact H|].
      specialize (IH (idx + 1) rb1 m).
      destruct (read_message n (idx + 1) rb1 m); auto. congruence.
    + destruct (Arr.store message idx 0); cbn [bind]; auto.
Qed.

(** The message loop never leaves the local array, and ends. *)
Lemma read_message_safe (n : nat) :
  forall (idx : Z) (rb : osusat_ring_buffer_t) (message : list Z),
    wf rb -> 0 <= idx ->
    Z.of_nat (length message) = MAX_LOG_MESSAGE_LEN ->
    exists rb' message',
      read_message n idx rb message = Done (rb', message') /\ wf rb' /\
      Z.of_nat (length message') = MAX_LOG_MESSAGE_LEN /\
      osusat_ring_buffer_size rb' <= osusat_ring_buffer_size rb.
Proof.
  induction n as [|n IH]; intros idx rb message Hwf Hidx Hlen;
    cbn [read_message].
  - exists rb, message. split; [reflexivity|]. split; [exact Hwf|].
    split; [exact Hlen|lia].
  - destruct (Z.geb_spec idx MAX_LOG_MESSAGE_LEN) as [Hge | Hlt].
    + exists rb, message. split; [reflexivity|]. split; [exact Hwf|].
      split; [exact Hlen|lia].
    + destruct (pop_spec rb Hwf)
        as [(Hp & _ & _) | (x & rb1 & Hp & Hwf1 & _ & Hs & _)]; rewrite Hp.
      * rewrite ArrFacts.store_done by lia. cbn [bind].
        exists rb, (Arr.set message idx 0). split; [reflexivity|].
        split; [exact Hwf|]. rewrite ArrFacts.length_set.
        split; [exact Hlen|lia].
      * rewrite ArrFacts.store_done by lia. cbn [bind].
        destruct (Arr.get 0 (Arr.set message idx x) idx =? 0).
        -- exists rb1, (Arr.set message idx x). split; [reflexivity|].
           split; [exact Hwf1|]. rewrite ArrFacts.length_set.
           split; [exact Hlen|lia].
        -- destruct (IH (idx + 1) rb1 (Arr.set message idx x) Hwf1)
             as (rb2 & m2 & Hr & Hwf2 & Hl2 & Hs2);
             [lia | now rewrite ArrFacts.length_set |].
           exists rb2, m2. split; [exact Hr|]. split; [exact Hwf2|].
           split; [exact Hl2|lia].
Qed.

(** On a stored string followed by its terminator the loop copies the string
    into the array, terminator included, and consumes exactly that much. *)
Lemma read_message_string (msg : list Z) :
  forall (n : nat) (idx : Z) (rb : osusat_ring_buffer_t)
         (message rest : list Z),
    wf rb -> contents rb = msg ++ 0 :: rest ->
    Forall (fun c => c <> 0) msg ->
    0 <= idx -> idx + Z.of_nat (length msg) < MAX_LOG_MESSAGE_LEN ->
    Z.of_nat (length message) = MAX_LOG_MESSAGE_LEN ->
    (length msg < n)%nat ->
    exists rb' message' junk,
      read_message n idx rb message = Done (rb', message') /\ wf rb' /\
      capacity rb' = capacity rb /\ contents rb' = rest /\
      Z.of_nat (length message') = MAX_LOG_MESSAGE_LEN /\
      message' = firstn (Z.to_nat idx) message ++ msg ++ 0 :: junk.
Proof.
  induction msg as [|c msg IH];
    intros n idx rb message rest Hwf Hc Hnz Hidx Hfit Hlen Hn;
    (destruct n as [|n]; [simpl in Hn; lia|]); cbn [read_message];
    (destruct (Z.geb_spec idx MAX_LOG_MESSAGE_LEN) as [Hge | Hlt];
     [simpl in Hfit; lia|]);
    (destruct (pop_spec rb Hwf)
       as [(_ & Hnil & _) | (x & rb1 & Hp & Hwf1 & Hc1 & _ & Hk)];
     [rewrite Hnil in Hc; discriminate|]);
    rewrite Hp; rewrite Hk in Hc; simpl in Hc; injection Hc as -> Hc;
    rewrite ArrFacts.store_done by lia; cbn [bind];
    rewrite ArrFacts.get_set_same by lia.
  - rewrite Z.eqb_refl.
    exists rb1, (Arr.set message idx 0), (skipn (S (Z.to_nat idx)) message).
    split; [reflexivity|]. split; [exact Hwf1|]. split; [exact Hc1|].
    split; [exact Hc|]. rewrite ArrFacts.length_set. split; [exact Hlen|].
    simpl. apply ArrFacts.upd_split. lia.
  - inversion Hnz as [|? ? Hc0 Hnz']; subst.
    destruct (Z.eqb_spec c 0) as [E | _]; [contradiction|].
    destruct (IH n (idx + 1) rb1 (Arr.set message idx c) rest Hwf1 Hc Hnz')
      as (rb2 & m2 & junk & Hr & Hwf2 & Hc2 & Hk2 & Hl2 & Hm2);
      [lia | simpl in Hfit; lia | now rewrite ArrFacts.length_set
       | simpl in Hn; lia |].
    exists rb2, m2, junk. split; [exact Hr|]. split; [exact Hwf2|].
    split; [congruence|]. split; [exact Hk2|]. split; [exact Hl2|].
    rewrite Hm2. replace (Z.to_nat (idx + 1)) with (S (Z.to_nat idx)) by lia.
    unfold Arr.set. rewrite ArrFacts.firstn_upd_snoc by lia.
    rewrite <- app_assoc. reflexivity.
Qed.

Lemma message_ok_after_store (e : osusat_slog_entry_t) (message : list Z) :
  Z.of_nat (length message) = MAX_LOG_MESSAGE_LEN ->
  message_ok {| flushed_entry := e;
                flushed_message :=
                  Arr.set message (MAX_LOG_MESSAGE_LEN - 1) 0 |}.
Proof.
  intros Hlen. unfold message_ok. cbn [flushed_message].
  assert (Hl : Z.of_nat (length (Arr.set message (MAX_LOG_MESSAGE_LEN - 1) 0))
               = MAX_LOG_MESSAGE_LEN)
    by (rewrite ArrFacts.length_set; exact Hlen).
  assert (Hz : Arr.get 0 (Arr.set message (MAX_LOG_MESSAGE_LEN - 1) 0)
                 (MAX_LOG_MESSAGE_LEN - 1) = 0)
    by (apply ArrFacts.get_set_same; unfold MAX_LOG_MESSAGE_LEN in *; lia).
  split; [exact Hl|]. split; [exact Hz|].
  unfold MAX_LOG_MESSAGE_LEN in *. unfold Arr.get in Hz.
  assert (Hn : (Z.to_nat (128 - 1)
                < length (Arr.set message (128 - 1)%Z 0%Z))%nat) by lia.
  split.
  - exact (ArrFacts.terminated_of_nul _ _ Hn Hz).
  - pose proof (ArrFacts.cstring_length_le _ _ Hn Hz). lia.
Qed.

(** [flush] always returns: every iteration consumes a header, every array
    access is in bounds, and every message handed out is terminated. *)
Lemma flush_loop_total (fuel : nat) :
  forall (rb : osusat_ring_buffer_t) (stack : nat -> list Z) (k : nat)
         (count : Z) (calls : list flush_call),
    wf rb -> stack_ok stack ->
    osusat_ring_buffer_size rb <= Z.of_nat fuel ->
    exists r new,
      flush_loop fuel rb stack k count calls = Done r /\
      wf (flush_buffer r) /\
      capacity (flush_buffer r) = capacity rb /\
      osusat_ring_buffer_size (flush_buffer r) = 0 /\
      flush_calls r = calls ++ new /\
      Forall message_ok new /\
      flush_count r = count + Z.of_nat (length new) /\
      sizeof_entry * Z.of_nat (length new) <= osusat_ring_buffer_size rb.
Proof.
  induction fuel as [|fuel IH]; intros rb stack k count calls Hwf Hst Hfuel;
    cbn [flush_loop]; rewrite (empty_size rb Hwf);
    pose proof (size_range rb Hwf) as Hrange;
    destruct (Z.eqb_spec (osusat_ring_buffer_size rb) 0) as [Hz | Hnz].
  1, 3: eexists; exists []; cbn [flush_buffer flush_calls flush_count length];
        rewrite app_nil_r; (split; [reflexivity|]); (split; [exact Hwf|]);
        (split; [reflexivity|]); (split; [exact Hz|]);
        (split; [reflexivity|]); (split; [apply Forall_nil|]);
        cbn [flush_count]; unfold sizeof_entry; lia.
  - lia.
  - destruct (pop_bytes_size (Z.to_nat sizeof_entry) rb Hwf)
      as (r & rb1 & Hp & Hwf1 & Hr).
    pose proof (pop_bytes_capacity (Z.to_nat sizeof_entry) rb) as Hc1.
    rewrite Hp in *. cbn [snd] in Hc1. destruct r as [hb|].
    + change (Z.of_nat (Z.to_nat sizeof_entry)) with 10 in Hr.
      pose proof (size_range rb1 Hwf1) as Hrange1.
      destruct (read_message_safe
                  (Z.to_nat (message_len (entry_of_bytes hb) + 1)) 0 rb1
                  (stack k) Hwf1 ltac:(lia) (Hst k))
        as (rb2 & m & Hread & Hwf2 & Hlen & Hs2).
      pose proof (read_message_capacity
                    (Z.to_nat (message_len (entry_of_bytes hb) + 1)) 0 rb1
                    (stack k)) as Hc2.
      rewrite Hread in *. cbn [bind]. cbn [fst] in Hc2.
      rewrite ArrFacts.store_done
        by (unfold MAX_LOG_MESSAGE_LEN in *; lia).
      cbn [bind].
      destruct (IH rb2 stack (S k) (count + 1)
                  (calls ++ [{| flushed_entry := entry_of_bytes hb;
                                flushed_message :=
                                  Arr.set m (MAX_LOG_MESSAGE_LEN - 1) 0 |}])
                  Hwf2 Hst ltac:(lia))
        as (res & new & Hrun & Hwfr & Hcr & Hsr & Hcalls & Hok & Hcount & Hbound).
      exists res, ({| flushed_entry := entry_of_bytes hb;
                      flushed_message :=
                        Arr.set m (MAX_LOG_MESSAGE_LEN - 1) 0 |} :: new).
      split; [exact Hrun|]. split; [exact Hwfr|]. split; [congruence|].
      split; [exact Hsr|]. split; [rewrite Hcalls, <- app_assoc; reflexivity|].
      split; [constructor; [apply message_ok_after_store; exact Hlen
                           |exact Hok]|].
      cbn [length]. unfold sizeof_entry in *. split; lia.
    + eexists; exists [];
        cbn [flush_buffer flush_calls flush_count length].
      rewrite app_nil_r. split; [reflexivity|]. split; [exact Hwf1|].
      split; [exact Hc1|]. split; [exact Hr|]. split; [reflexivity|].
      split; [apply Forall_nil|]. cbn [flush_count]. unfold sizeof_entry.
      split; lia.
Qed.

Lemma clamp_len_min (l : Z) : clamp_len l = Z.min l 127.
Proof.
  unfold clamp_len, MAX_LOG_MESSAGE_LEN.
  destruct (Z.geb_spec l 128); lia.
Qed.

Lemma uint16_small (l : Z) : 0 <= l < 65536 -> uint16 l = l.
Proof. intros H. unfold uint16. apply Z.mod_small. exact H. Qed.

Lemma truncated_length (M : list Z) :
  Z.of_nat (length (firstn 127 M ++ [0]))
  = Z.min (Z.of_nat (length M)) 127 + 1.
Proof. rewrite length_app, length_firstn. cbn [length]. lia. Qed.

(** A write that passes the filter, into a store with room for the record,
    appends the header bytes, the truncated message and a terminator. *)
Lemma write_room (st : slog_state) (rb : osusat_ring_buffer_t) (env : Z)
    (lvl : osusat_slog_level_t) (c n : Z) (M : list Z) :
  g_log_buffer st = Some rb -> wf rb ->
  level_value (g_min_level st) <= level_value lvl ->
  osusat_ring_buffer_size rb + sizeof_entry
  + Z.min (Z.of_nat (length M)) 127 + 1 < capacity rb ->
  exists rb',
    osusat_slog_write_internal st env lvl c n (Some M) = with_buffer st rb' /\
    wf rb' /\ capacity rb' = capacity rb /\
    osusat_ring_buffer_size rb'
    = osusat_ring_buffer_size rb + sizeof_entry
      + Z.min (Z.of_nat (length M)) 127 + 1 /\
    contents rb'
    = contents rb
      ++ entry_bytes (build_entry st env lvl c n
                        (Z.min (Z.of_nat (length M)) 127))
      ++ map uint8 (firstn 127 M) ++ [0].
Proof.
  intros Hb Hwf Hlvl Hroom. unfold osusat_slog_write_internal. rewrite Hb.
  destruct (Z.ltb_spec (level_value lvl) (level_value (g_min_level st)));
    [lia|].
  cbn [vsnprintf].
  destruct (Z.ltb_spec (Z.of_nat (length M)) 0); [lia|].
  rewrite clamp_len_min.
  change (Z.to_nat (MAX_LOG_MESSAGE_LEN - 1)) with 127%nat.
  set (len := Z.min (Z.of_nat (length M)) 127) in *.
  set (e := build_entry st env lvl c n len).
  destruct (push_bytes_room (Z.to_nat sizeof_entry) rb (entry_bytes e) 0 Hwf)
    as (rb1 & Hp1 & Hwf1 & Hc1 & Hs1 & Hk1).
  { change (Z.of_nat (Z.to_nat sizeof_entry)) with sizeof_entry. lia. }
  rewrite Hp1.
  change (Z.of_nat (Z.to_nat sizeof_entry)) with sizeof_entry in Hs1.
  destruct (push_bytes_room (Z.to_nat (len + 1)) rb1 (firstn 127 M ++ [0]) 0
              Hwf1) as (rb2 & Hp2 & Hwf2 & Hc2 & Hs2 & Hk2); [lia|].
  rewrite Hp2. cbn [snd]. exists rb2. split; [reflexivity|].
  split; [exact Hwf2|]. split; [congruence|]. split; [lia|].
  rewrite Hk2, Hk1, <- app_assoc. f_equal.
  change (Z.to_nat sizeof_entry) with (length (entry_bytes e)).
  rewrite pushed_all, (map_uint8_id _ (entry_bytes_range e)). f_equal.
  replace (Z.to_nat (len + 1)) with (length (firstn 127 M ++ [0]))
    by (pose proof (truncated_length M); lia).
  rewrite pushed_all, map_app. reflexivity.
Qed.

(** In overwrite mode a write that passes the filter always stores its
    record; the store keeps the newest capacity - 1 bytes. *)
Lemma write_overwrite (st : slog_state) (rb : osusat_ring_buffer_t) (env : Z)
    (lvl : osusat_slog_level_t) (c n : Z) (M : list Z) :
  g_log_buffer st = Some rb -> wf rb -> overwrite rb = true ->
  level_value (g_min_level st) <= level_value lvl ->
  exists rb',
    osusat_slog_write_internal st env lvl c n (Some M) = with_buffer st rb' /\
    wf rb' /\ capacity rb' = capacity rb /\ overwrite rb' = true /\
    contents rb'
    = Arr.keep_last (Z.to_nat (capacity rb - 1))
        (contents rb
         ++ entry_bytes (build_entry st env lvl c n
                           (Z.min (Z.of_nat (length M)) 127))
         ++ map uint8 (firstn 127 M) ++ [0]).
Proof.
  intros Hb Hwf Hov Hlvl. unfold osusat_slog_write_internal. rewrite Hb.
  destruct (Z.ltb_spec (level_value lvl) (level_value (g_min_level st)));
    [lia|].
  cbn [vsnprintf].
  destruct (Z.ltb_spec (Z.of_nat (length M)) 0); [lia|].
  rewrite clamp_len_min.
  change (Z.to_nat (MAX_LOG_MESSAGE_LEN - 1)) with 127%nat.
  set (len := Z.min (Z.of_nat (length M)) 127) in *.
  set (e := build_entry st env lvl c n len).
  destruct (push_bytes_overwrite (Z.to_nat sizeof_entry) rb (entry_bytes e) 0
              Hwf Hov) as (rb1 & Hp1 & Hwf1 & Hc1 & Hov1 & Hk1).
  rewrite Hp1.
  destruct (push_bytes_overwrite (Z.to_nat (len + 1)) rb1
              (firstn 127 M ++ [0]) 0 Hwf1 Hov1)
    as (rb2 & Hp2 & Hwf2 & Hc2 & Hov2 & Hk2).
  rewrite Hp2. cbn [snd]. exists rb2. split; [reflexivity|].
  split; [exact Hwf2|]. split; [congruence|]. split; [exact Hov2|].
  rewrite Hk2, Hk1, Hc1, ArrFacts.keep_last_app, <- app_assoc.
  do 3 f_equal.
  - change (Z.to_nat sizeof_entry) with (length (entry_bytes e)).
    now rewrite pushed_all, (map_uint8_id _ (entry_bytes_range e)).
  - replace (Z.to_nat (len + 1)) with (length (firstn 127 M ++ [0]))
      by (pose proof (truncated_length M); lia).
    rewrite pushed_all, map_app. reflexivity.
Qed.

(** Whatever the store holds, [write] leaves a bound store bound, well
    formed and of the same capacity. *)
Lemma write_wf (st : slog_state) (rb : osusat_ring_buffer_t) (env : Z)
    (lvl : osusat_slog_level_t) (c n : Z) (formatted : option (list Z)) :
  g_log_buffer st = Some rb -> wf rb ->
  exists rb',
    g_log_buffer (osusat_slog_write_internal st env lvl c n formatted)
    = Some rb' /\ wf rb' /\ capacity rb' = capacity rb.
Proof.
  intros Hb Hwf. unfold osusat_slog_write_internal. rewrite Hb.
  destruct (level_value lvl <? level_value (g_min_level st));
    [exists rb; auto|].
  destruct (vsnprintf MAX_LOG_MESSAGE_LEN formatted) as [message len].
  destruct (len <? 0); [exists rb; auto|].
  set (e := build_entry st env lvl c n (clamp_len len)).
  pose proof (push_bytes_wf (Z.to_nat sizeof_entry) rb (entry_bytes e) 0 Hwf)
    as Hwf1.
  pose proof (push_bytes_capacity (Z.to_nat sizeof_entry) rb (entry_bytes e) 0)
    as Hc1.
  destruct (push_bytes rb (entry_bytes e) 0 (Z.to_nat sizeof_entry))
    as [[|] rb1]; cbn [snd] in *.
  - pose proof (push_bytes_wf (Z.to_nat (clamp_len len + 1)) rb1 message 0
                  Hwf1) as Hwf2.
    pose proof (push_bytes_capacity (Z.to_nat (clamp_len len + 1)) rb1
                  message 0) as Hc2.
    eexists. split; [reflexivity|]. split; [exact Hwf2|]. congruence.
  - exists rb1. auto.
Qed.

Lemma write_all_wf (cs : list log_call) :
  forall (st : slog_state) (rb : osusat_ring_buffer_t),
    g_log_buffer st = Some rb -> wf rb ->
    exists rb',
      g_log_buffer (write_all st cs) = Some rb' /\ wf rb' /\
      capacity rb' = capacity rb.
Proof.
  induction cs as [|c cs IH]; intros st rb Hb Hwf.
  - exists rb. auto.
  - destruct (write_wf st rb (log_env c) (log_level c) (log_component c)
                (log_line c) (log_formatted c) Hb Hwf)
      as (rb1 & Hb1 & Hwf1 & Hc1).
    destruct (IH _ rb1 Hb1 Hwf1) as (rb2 & Hb2 & Hwf2 & Hc2).
    exists rb2. split; [exact Hb2|]. split; [exact Hwf2|]. congruence.
Qed.

Lemma wf_test_store (cap : Z) : 0 < cap -> wf (test_store cap).
Proof.
  intros H. unfold wf, test_store, osusat_ring_buffer_init.
  cbn [buffer capacity head tail]. rewrite repeat_length. lia.
Qed.

Lemma empty_contents (rb : osusat_ring_buffer_t) :
  wf rb -> osusat_ring_buffer_empty rb = true ->
  osusat_ring_buffer_size rb = 0 /\ contents rb = [].
Proof.
  intros Hwf He. rewrite (empty_size rb Hwf) in He. apply Z.eqb_eq in He.
  split; [exact He|]. unfold contents. rewrite He. reflexivity.
Qed.

(** C6.  A write below the configured minimum level, or with no store
    bound, returns without touching anything: the logger state, and with it
    the size and contents of the byte store, is the one before the call. *)
Theorem write_filtered_is_noop (st : slog_state) (env : Z)
    (lvl : osusat_slog_level_t) (c n : Z) (formatted : option (list Z)) :
  level_value lvl < level_value (g_min_level st) \/ g_log_buffer st = None ->
  osusat_slog_write_internal st env lvl c n formatted = st.
Proof.
  intros [Hlvl | Hnone]; unfold osusat_slog_write_internal.
  - destruct (g_log_buffer st); [|reflexivity].
    apply Z.ltb_lt in Hlvl. rewrite Hlvl. reflexivity.
  - rewrite Hnone. reflexivity.
Qed.

Lemma write_filtered_is_noop_witness :
  osusat_slog_write_internal (test_logger 512 OSUSAT_SLOG_WARN) 0
    OSUSAT_SLOG_INFO TEST_COMPONENT_A 142 (Some test_message)
  = test_logger 512 OSUSAT_SLOG_WARN.
Proof.
  apply (write_filtered_is_noop (test_logger 512 OSUSAT_SLOG_WARN) 0
           OSUSAT_SLOG_INFO TEST_COMPONENT_A 142 (Some test_message)).
  left. reflexivity.
Defined.

(** C7.  A write that passes the filter stores, behind what the store
    held, the ten header bytes, the formatted output cut to its first 127
    characters, and a NUL byte (in overwrite mode the store keeps the newest
    capacity - 1 bytes of the whole).  The header's [message_len] is the
    length of the output capped at 127, which is the length of the stored
    message; it never exceeds 127, and for an output of 128 characters or
    more it is exactly 127. *)
Theorem write_message_len_bounded (st : slog_state)
    (rb : osusat_ring_buffer_t) (env : Z) (lvl : osusat_slog_level_t)
    (c n : Z) (M : list Z) :
  g_log_buffer st = Some rb -> wf rb ->
  level_value (g_min_level st) <= level_value lvl ->
  overwrite rb = true \/
  osusat_ring_buffer_size rb + sizeof_entry
  + Z.min (Z.of_nat (length M)) 127 + 1 < capacity rb ->
  exists rb' e,
    g_log_buffer (osusat_slog_write_internal st env lvl c n (Some M))
    = Some rb' /\
    contents rb'
    = Arr.keep_last (Z.to_nat (capacity rb - 1))
        (contents rb ++ entry_bytes e ++ map uint8 (firstn 127 M) ++ [0]) /\
    (osusat_ring_buffer_size rb + sizeof_entry
     + Z.min (Z.of_nat (length M)) 127 + 1 < capacity rb ->
     contents rb'
     = contents rb ++ entry_bytes e ++ map uint8 (firstn 127 M) ++ [0]) /\
    message_len (entry_of_bytes (entry_bytes e)) = message_len e /\
    message_len e = Z.min (Z.of_nat (length M)) 127 /\
    message_len e = Z.of_nat (length (firstn 127 M)) /\
    message_len e <= MAX_LOG_MESSAGE_LEN - 1 /\
    (MAX_LOG_MESSAGE_LEN <= Z.of_nat (length M) ->
     message_len e = MAX_LOG_MESSAGE_LEN - 1).
Proof.
  intros Hb Hwf Hlvl Hmode.
  set (len := Z.min (Z.of_nat (length M)) 127) in *.
  set (e := build_entry st env lvl c n len) in *.
  assert (Hml : message_len e = len)
    by (unfold e; cbn [build_entry message_len]; apply uint16_small; lia).
  set (record := entry_bytes e ++ map uint8 (firstn 127 M) ++ [0]).
  assert (Hrec : Z.of_nat (length record) = sizeof_entry + len + 1).
  { unfold record. rewrite length_app, entry_bytes_length, length_app.
    rewrite length_map, length_firstn. cbn [length].
    unfold sizeof_entry, len. lia. }
  pose proof (contents_length rb Hwf) as Hcl.
  assert (Hfits : osusat_ring_buffer_size rb + sizeof_entry + len + 1
                  < capacity rb ->
                  Arr.keep_last (Z.to_nat (capacity rb - 1))
                    (contents rb ++ record) = contents rb ++ record).
  { intros Hroom. apply ArrFacts.keep_last_all. rewrite length_app. lia. }
  assert (Hstored : exists rb',
             g_log_buffer (osusat_slog_write_internal st env lvl c n (Some M))
             = Some rb' /\
             contents rb'
             = Arr.keep_last (Z.to_nat (capacity rb - 1))
                 (contents rb ++ record)).
  { destruct Hmode as [Hov | Hroom].
    - destruct (write_overwrite st rb env lvl c n M Hb Hwf Hov Hlvl)
        as (rb' & Hw & _ & _ & _ & Hk).
      exists rb'. rewrite Hw. split; [reflexivity|exact Hk].
    - destruct (write_room st rb env lvl c n M Hb Hwf Hlvl Hroom)
        as (rb' & Hw & _ & _ & _ & Hk).
      exists rb'. rewrite Hw. split; [reflexivity|].
      rewrite (Hfits Hroom). exact Hk. }
  destruct Hstored as (rb' & Hw & Hk).
  exists rb', e. split; [exact Hw|]. split; [exact Hk|].
  split; [intros Hroom; rewrite Hk; apply Hfits; exact Hroom|].
  split; [apply message_len_roundtrip; lia|].
  rewrite Hml. split; [reflexivity|].
  split; [rewrite length_firstn; lia|].
  unfold MAX_LOG_MESSAGE_LEN. split; lia.
Qed.

Lemma write_message_len_bounded_witness :
  exists rb' e,
    g_log_buffer (osusat_slog_write_internal (test_logger 1024 OSUSAT_SLOG_DEBUG)
                    0 OSUSAT_SLOG_INFO TEST_COMPONENT_A 224
                    (Some (repeat 65 199)))
    = Some rb' /\
    contents rb' = entry_bytes e ++ repeat 65 127 ++ [0] /\
    message_len e = 127.
Proof.
  destruct (write_message_len_bounded (test_logger 1024 OSUSAT_SLOG_DEBUG)
              (test_store 1024) 0 OSUSAT_SLOG_INFO TEST_COMPONENT_A 224
              (repeat 65 199))
    as (rb' & e & Hw & _ & Hk & _ & _ & _ & _ & Hlen).
  - reflexivity.
  - apply wf_test_store. lia.
  - vm_compute. discriminate.
  - left. reflexivity.
  - exists rb', e. split; [exact Hw|]. split.
    + rewrite Hk by (vm_compute; reflexivity). reflexivity.
    + apply Hlen. vm_compute. discriminate.
Defined.




(** C4.  Whatever the store holds (torn records included) and whatever is
    written on top of it, [flush] with a non-null
    callback returns: no access leaves the 128-byte [message] array, and
    every message handed to the callback sits in a 128-byte array whose last
    byte is NUL, so it is a terminated string of at most 127 characters.
    Every returned record consumed a 10-byte header, so the count times 10
    is below the capacity; the count is therefore strictly below the number
    of records written as soon as that number times 10 reaches the
    capacity. *)
Theorem flush_is_safe_and_bounded (st : slog_state)
    (rb : osusat_ring_buffer_t) (cs : list log_call) (fn : nat)
    (stack : nat -> list Z) (fuel : nat) :
  g_log_buffer st = Some rb -> wf rb -> stack_ok stack ->
  capacity rb <= Z.of_nat fuel ->
  exists count calls st',
    osusat_slog_flush fuel (write_all st cs) (Some fn) stack
    = Done (count, calls, st') /\
    Forall message_ok calls /\
    count = Z.of_nat (length calls) /\
    sizeof_entry * count < capacity rb /\
    (capacity rb <= sizeof_entry * written st cs -> count < written st cs).
Proof.
  intros Hb Hwf Hstack Hfuel.
  destruct (write_all_wf cs st rb Hb Hwf) as (rb1 & Hb1 & Hwf1 & Hc1).
  pose proof (size_range rb1 Hwf1) as Hrange.
  destruct (flush_loop_total fuel rb1 stack 0%nat 0 [] Hwf1 Hstack)
    as (r & new & Hrun & _ & _ & _ & Hcalls & Hok & Hcount & Hbound); [lia|].
  unfold osusat_slog_flush. rewrite Hb1, Hrun. cbn [bind].
  cbn [app] in Hcalls.
  exists (flush_count r), (flush_calls r),
         (with_buffer (write_all st cs) (flush_buffer r)).
  split; [reflexivity|]. rewrite Hcalls. split; [exact Hok|].
  unfold sizeof_entry in *. split; [lia|]. split; lia.
Qed.

Lemma flush_is_safe_and_bounded_witness :
  exists count calls st',
    osusat_slog_flush 128
      (write_all (test_logger 128 OSUSAT_SLOG_DEBUG) overwrite_calls)
      (Some 0%nat) zero_stack
    = Done (count, calls, st') /\
    Forall message_ok calls /\
    count = Z.of_nat (length calls) /\
    sizeof_entry * count < capacity (test_store 128) /\
    count < written (test_logger 128 OSUSAT_SLOG_DEBUG) overwrite_calls.
Proof.
  destruct (flush_is_safe_and_bounded (test_logger 128 OSUSAT_SLOG_DEBUG)
              (test_store 128) overwrite_calls 0%nat zero_stack 128%nat)
    as (count & calls & st' & Hrun & Hok & Hcount & Hbound & Hfewer).
  - reflexivity.
  - apply wf_test_store. lia.
  - intros k. reflexivity.
  - vm_compute. discriminate.
  - exists count, calls, st'. split; [exact Hrun|]. split; [exact Hok|].
    split; [exact Hcount|]. split; [exact Hbound|].
    apply Hfewer. vm_compute. discriminate.
Defined.

(** Counterexample to a count bound by the bytes written (C4).  Two
    records, of 20 and of 22 bytes, are written into a store of capacity 32
    in overwrite mode: 42 bytes, more than the capacity.  The eviction tears
    the first record; the flush reads its remains and the head of the second
    as one record and the rest of the second as another, and returns 2, the
    number written. *)
Lemma flush_returns_as_many_as_written :
  written (test_logger 32 OSUSAT_SLOG_DEBUG) torn_calls = 2 /\
  (sizeof_entry + 9 + 1) + (sizeof_entry + 11 + 1) > capacity (test_store 32) /\
  overwrite (test_store 32) = true /\
  exists count calls st',
    osusat_slog_flush 32
      (write_all (test_logger 32 OSUSAT_SLOG_DEBUG) torn_calls)
      (Some 0%nat) zero_stack
    = Done (count, calls, st') /\
    count = 2 /\
    ~ count < written (test_logger 32 OSUSAT_SLOG_DEBUG) torn_calls.
Proof.
  split; [reflexivity|]. split; [reflexivity|]. split; [reflexivity|].
  eexists. eexists. eexists. split; [vm_compute; reflexivity|].
  split; [reflexivity|]. vm_compute. discriminate.
Qed.

(** C10.  [pending_count] is 0 without a store and otherwise the stored
    byte count divided by 40, rounded down; on a well-formed store that is
    the number of bytes a consumer would pop, divided by 40.  It is 0 below
    40 bytes, records pending or not: after the single write of the basic
    logging test (23 bytes) it answers 0 although the flush that follows
    returns one record. *)
Theorem pending_count_is_size_div_40 (st : slog_state) :
  (g_log_buffer st = None -> osusat_slog_pending_count st = 0) /\
  (forall rb : osusat_ring_buffer_t,
     g_log_buffer st = Some rb ->
     osusat_slog_pending_count st = osusat_ring_buffer_size rb / 40 /\
     (wf rb ->
      osusat_slog_pending_count st = Z.of_nat (length (contents rb)) / 40) /\
     (0 <= osusat_ring_buffer_size rb < 40 ->
      osusat_slog_pending_count st = 0)) /\
  (exists rb calls st',
     g_log_buffer (osusat_slog_write_internal
                     (test_logger 512 OSUSAT_SLOG_DEBUG) 1000
                     OSUSAT_SLOG_INFO TEST_COMPONENT_A 90 (Some test_message))
     = Some rb /\
     osusat_ring_buffer_size rb = 23 /\
     osusat_slog_pending_count
       (osusat_slog_write_internal (test_logger 512 OSUSAT_SLOG_DEBUG) 1000
          OSUSAT_SLOG_INFO TEST_COMPONENT_A 90 (Some test_message)) = 0 /\
     osusat_slog_flush 1
       (osusat_slog_write_internal (test_logger 512 OSUSAT_SLOG_DEBUG) 1000
          OSUSAT_SLOG_INFO TEST_COMPONENT_A 90 (Some test_message))
       (Some 0%nat) zero_stack
     = Done (1, calls, st')).
Proof.
  unfold osusat_slog_pending_count. split; [|split].
  - intros ->. reflexivity.
  - intros rb ->. split; [reflexivity|]. split.
    + intros Hwf. now rewrite (contents_length rb Hwf).
    + intros H. apply Z.div_small. exact H.
  - eexists. eexists. eexists. vm_compute. repeat split; reflexivity.
Qed.

End SlogFacts.

(** ** Facts about event_bus.c *)

Module EventBusFacts.
Import EventBus.

(** On a well-formed bus the modular count is the plain distance. *)
Lemma pending_count_cases (bus : bus_t) :
  0 < capacity bus -> 0 <= head bus < capacity bus ->
  0 <= tail bus < capacity bus ->
  pending_count bus = if head bus >=? tail bus then head bus - tail bus
                      else capacity bus - (tail bus - head bus).
Proof.
  intros Hc Hh Ht. unfold pending_count.
  destruct (Z.geb_spec (head bus) (tail bus)).
  - apply mod_inside. lia.
  - rewrite mod_negative by lia. lia.
Qed.

Lemma pending_count_range (bus : bus_t) :
  0 < capacity bus -> 0 <= pending_count bus < capacity bus.
Proof. intros Hc. apply Z.mod_pos_bound. exact Hc. Qed.

Lemma firstn_as_map {A} (d : A) (l : list A) :
  forall n : nat, (n <= length l)%nat ->
                  map (fun k => nth k l d) (seq 0 n) = firstn n l.
Proof.
  induction l as [|x t IH]; intros [|n] Hn; simpl in *; try lia; auto.
  f_equal. rewrite <- seq_shift, map_map. apply IH. lia.
Qed.

Lemma firstn_exact {A} (a b : list A) :
  firstn (length a) (a ++ b) = a.
Proof. induction a as [|x a IH]; simpl; [now destruct b|now rewrite IH]. Qed.

Lemma wf_queue (bus : bus_t) (q : list osusat_event_t) :
  wf bus -> queue bus = Some q ->
  0 < capacity bus /\ Z.of_nat (length q) = capacity bus /\
  0 <= head bus < capacity bus /\ 0 <= tail bus < capacity bus.
Proof. intros (_ & _ & _ & H) Hq. rewrite Hq in H. exact H. Qed.

Lemma not_full_iff (bus : bus_t) (q : list osusat_event_t) :
  wf bus -> queue bus = Some q ->
  ((head bus + 1) mod capacity bus = tail bus
   <-> pending_count bus = capacity bus - 1).
Proof.
  intros Hwf Hq. destruct (wf_queue bus q Hwf Hq) as (Hc & _ & Hh & Ht).
  rewrite (pending_count_cases bus Hc Hh Ht).
  destruct (mod_succ_cases (head bus) (capacity bus) Hc Hh) as [[? E]|[? E]];
    rewrite E; destruct (Z.geb_spec (head bus) (tail bus)); lia.
Qed.

Lemma pending_after_publish (bus : bus_t) (q : list osusat_event_t)
    (ev : osusat_event_t) :
  wf bus -> queue bus = Some q ->
  (head bus + 1) mod capacity bus <> tail bus ->
  wf (enqueued bus q ev) /\
  pending_count (enqueued bus q ev) = pending_count bus + 1 /\
  pending (enqueued bus q ev) = pending bus ++ [ev].
Proof.
  intros Hwf Hq Hnf. pose proof Hwf as (Hs1 & Hs2 & Hs3 & _).
  destruct (wf_queue bus q Hwf Hq) as (Hc & Hl & Hh & Ht).
  pose proof (Z.mod_pos_bound (head bus + 1) (capacity bus) Hc) as Hnext.
  assert (Hwf' : wf (enqueued bus q ev)).
  { unfold wf, enqueued. cbn [subs sub_count queue capacity head tail].
    rewrite ArrFacts.length_set. auto 10. }
  assert (Hcount : pending_count (enqueued bus q ev) = pending_count bus + 1).
  { rewrite (pending_count_cases bus Hc Hh Ht).
    rewrite (pending_count_cases (enqueued bus q ev) Hc Hnext Ht).
    cbn [enqueued capacity head tail].
    destruct (mod_succ_cases (head bus) (capacity bus) Hc Hh) as [[? E]|[? E]];
      rewrite E in *;
      index_cases; lia. }
  split; [exact Hwf'|]. split; [exact Hcount|].
  unfold pending. rewrite Hcount, Hq. cbn [enqueued queue capacity tail].
  pose proof (pending_count_range bus Hc) as Hr.
  replace (Z.to_nat (pending_count bus + 1))
    with (Z.to_nat (pending_count bus) + 1)%nat by lia.
  pose proof (pending_count_cases bus Hc Hh Ht) as Hpc.
  apply ArrFacts.window_snoc; try assumption.
  - rewrite Z2Nat.id by lia. rewrite Hpc.
    destruct (Z.geb_spec (head bus) (tail bus)).
    + rewrite mod_inside by lia. lia.
    + rewrite mod_wrapped by lia. lia.
  - intros k Hk. rewrite Z2Nat.id in Hk by lia. rewrite Hpc in Hk.
    destruct (Z.geb_spec (head bus) (tail bus)).
    + rewrite mod_inside by lia. lia.
    + destruct (Z_lt_ge_dec (tail bus + k) (capacity bus)).
      * rewrite mod_inside by lia. lia.
      * rewrite mod_wrapped by lia. lia.
Qed.

Lemma pending_empty (bus : bus_t) :
  0 < capacity bus -> tail bus = head bus -> pending bus = [].
Proof.
  intros Hc E. unfold pending, pending_count. rewrite E, Z.sub_diag.
  rewrite Z.mod_0_l by lia. now destruct (queue bus).
Qed.

Lemma pending_before_process (bus : bus_t) (q : list osusat_event_t) :
  wf bus -> queue bus = Some q -> tail bus <> head bus ->
  wf (dequeued bus) /\
  pending_count (dequeued bus) = pending_count bus - 1 /\
  pending bus = Arr.get zero_event q (tail bus) :: pending (dequeued bus).
Proof.
  intros Hwf Hq Hne. pose proof Hwf as (Hs1 & Hs2 & Hs3 & _).
  destruct (wf_queue bus q Hwf Hq) as (Hc & Hl & Hh & Ht).
  pose proof (Z.mod_pos_bound (tail bus + 1) (capacity bus) Hc) as Hnext.
  assert (Hwf' : wf (dequeued bus)).
  { unfold wf, dequeued. cbn [subs sub_count queue capacity head tail].
    rewrite Hq. auto 10. }
  assert (Hcount : pending_count (dequeued bus) = pending_count bus - 1).
  { rewrite (pending_count_cases bus Hc Hh Ht).
    rewrite (pending_count_cases (dequeued bus) Hc Hh Hnext).
    cbn [dequeued capacity head tail].
    destruct (mod_succ_cases (tail bus) (capacity bus) Hc Ht) as [[? E]|[? E]];
      rewrite E in *;
      index_cases; lia. }
  split; [exact Hwf'|]. split; [exact Hcount|].
  unfold pending. rewrite Hcount. cbn [dequeued queue capacity tail].
  rewrite Hq.
  assert (Hpos : 0 < pending_count bus).
  { rewrite (pending_count_cases bus Hc Hh Ht).
    destruct (Z.geb_spec (head bus) (tail bus)); lia. }
  replace (Z.to_nat (pending_count bus))
    with (S (Z.to_nat (pending_count bus - 1))) by lia.
  apply ArrFacts.window_cons. exact Ht.
Qed.

Lemma truncated_len (len : Z) :
  (if len >? OSUSAT_EVENT_MAX_PAYLOAD then OSUSAT_EVENT_MAX_PAYLOAD else len)
  = Z.min len OSUSAT_EVENT_MAX_PAYLOAD.
Proof.
  unfold OSUSAT_EVENT_MAX_PAYLOAD. destruct (Z.gtb_spec len 32); lia.
Qed.

(** A publish into a queue that is not full writes the slot at [head] and
    advances [head]; nothing else changes. *)
Lemma publish_room (bus : bus_t) (q : list osusat_event_t) (e : Z)
    (d : option (list Z)) (l : Z) :
  queue bus = Some q -> (head bus + 1) mod capacity bus <> tail bus ->
  osusat_event_bus_publish bus e d l
  = (true, enqueued bus q
             (fill_slot (Arr.get zero_event q (head bus)) e d
                (Z.min l OSUSAT_EVENT_MAX_PAYLOAD))).
Proof.
  intros Hq Hnf. unfold osusat_event_bus_publish. rewrite Hq, truncated_len.
  apply Z.eqb_neq in Hnf. rewrite Hnf. reflexivity.
Qed.

Lemma publish_full (bus : bus_t) (e : Z) (d : option (list Z)) (l : Z) :
  (head bus + 1) mod capacity bus = tail bus ->
  osusat_event_bus_publish bus e d l = (false, bus).
Proof.
  intros Hf. unfold osusat_event_bus_publish.
  destruct (queue bus); [|reflexivity].
  apply Z.eqb_eq in Hf. rewrite Hf. reflexivity.
Qed.

Lemma fill_slot_stored (slot : osusat_event_t) (p : publication) :
  publication_ok p ->
  stored_as p (fill_slot slot (pub_id p) (pub_data p)
                 (Z.min (pub_len p) OSUSAT_EVENT_MAX_PAYLOAD)).
Proof.
  intros [Hlen Hsrc]. unfold stored_as, fill_slot. cbn [id payload payload_len].
  split; [reflexivity|]. split.
  - unfold uint8, OSUSAT_EVENT_MAX_PAYLOAD. apply Z.mod_small. lia.
  - destruct (pub_data p) as [src|]; [|exact I]. intros Hpos.
    destruct (Z.gtb_spec (Z.min (pub_len p) OSUSAT_EVENT_MAX_PAYLOAD) 0);
      [|unfold OSUSAT_EVENT_MAX_PAYLOAD in *; lia].
    unfold memcpy.
    set (n := Z.to_nat (Z.min (pub_len p) OSUSAT_EVENT_MAX_PAYLOAD)).
    assert (Hn : length (firstn n src) = n)
      by (rewrite length_firstn; unfold n; lia).
    rewrite <- Hn at 1. apply firstn_exact.
Qed.

(** The subscriber scan calls the matching handlers, in table order. *)
Lemma scan_subscribers_spec (n : nat) :
  forall (table : list subscriber_entry_t) (i : Z) (ev : osusat_event_t)
         (calls : list call_t),
    (forall j, i <= j < i + Z.of_nat n ->
               handler (Arr.get zero_entry table j) <> None) ->
    scan_subscribers table i n ev calls
    = Done (calls
            ++ deliveries
                 (map (fun k => Arr.get zero_entry table (i + Z.of_nat k))
                      (seq 0 n)) ev).
Proof.
  induction n as [|n IH]; intros table i ev calls Hh; cbn [scan_subscribers].
  - unfold deliveries. simpl. now rewrite app_nil_r.
  - rewrite <- cons_seq, <- seq_shift. cbn [map]. rewrite map_map.
    change (Z.of_nat 0) with 0. rewrite Z.add_0_r.
    unfold deliveries at 1. cbn [flat_map].
    assert (Hi : handler (Arr.get zero_entry table i) <> None)
      by (apply Hh; lia).
    assert (Hext : map (fun k => Arr.get zero_entry table (i + Z.of_nat (S k)))
                       (seq 0 n)
                   = map (fun k => Arr.get zero_entry table
                                     (i + 1 + Z.of_nat k)) (seq 0 n)).
    { apply map_ext. intros k. f_equal. lia. }
    rewrite Hext.
    destruct (sub_id (Arr.get zero_entry table i) =? id ev).
    + destruct (handler (Arr.get zero_entry table i)) as [h|];
        [|contradiction].
      rewrite IH by (intros j Hj; apply Hh; lia).
      rewrite <- app_assoc. reflexivity.
    + rewrite IH by (intros j Hj; apply Hh; lia). reflexivity.
Qed.

Lemma scan_registered (bus : bus_t) (ev : osusat_event_t)
    (calls : list call_t) :
  wf bus ->
  scan_subscribers (subs bus) 0 (Z.to_nat (sub_count bus)) ev calls
  = Done (calls ++ deliveries (subscriptions bus) ev).
Proof.
  intros (Hl & Hc & Hh & _).
  rewrite scan_subscribers_spec by (intros j Hj; apply Hh; lia).
  do 3 f_equal. unfold subscriptions.
  rewrite <- (firstn_as_map zero_entry) by lia.
  apply map_ext. intros k. unfold Arr.get. now rewrite Z.add_0_l, Nat2Z.id.
Qed.

(** The drain loop delivers the waiting events oldest first and stops with
    an empty queue. *)
Lemma process_loop_spec (fuel : nat) :
  forall (bus : bus_t) (q : list osusat_event_t) (calls : list call_t),
    wf bus -> queue bus = Some q -> pending_count bus <= Z.of_nat fuel ->
    process_loop fuel q bus calls
    = Done (drained bus,
            calls ++ flat_map (deliveries (subscriptions bus)) (pending bus)).
Proof.
  induction fuel as [|fuel IH]; intros bus q calls Hwf Hq Hfuel;
    destruct (wf_queue bus q Hwf Hq) as (Hc & Hl & Hh & Ht);
    cbn [process_loop];
    destruct (Z.eqb_spec (tail bus) (head bus)) as [E | E]; cbn [negb].
  1, 3: rewrite (pending_empty bus Hc E); cbn [flat_map];
        rewrite app_nil_r; unfold drained; clear - E;
        destruct bus as [s c qq cap h t]; cbn [head tail] in E; subst t;
        reflexivity.
  - destruct (pending_before_process bus q Hwf Hq E) as (_ & Hcount & _).
    pose proof (pending_count_range (dequeued bus) Hc). lia.
  - destruct (pending_before_process bus q Hwf Hq E) as (Hwf' & Hcount & Hp).
    rewrite (scan_registered bus _ calls Hwf). cbn [bind].
    change {| subs := subs bus; sub_count := sub_count bus;
              queue := queue bus; capacity := capacity bus;
              head := head bus;
              tail := (tail bus + 1) mod capacity bus |}
      with (dequeued bus).
    rewrite (IH (dequeued bus) q _ Hwf' Hq) by lia.
    rewrite Hp. cbn [flat_map]. rewrite <- app_assoc. reflexivity.
Qed.

Lemma skipn_exact {A} (a b : list A) : skipn (length a) (a ++ b) = b.
Proof. induction a as [|x a IH]; simpl; [reflexivity|exact IH]. Qed.

Lemma wf_init (storage : list osusat_event_t) (cap : Z) :
  0 < cap -> Z.of_nat (length storage) = cap ->
  wf (osusat_event_bus_init (Some storage) cap).
Proof.
  intros Hc Hl. unfold wf, osusat_event_bus_init.
  apply Z.ltb_lt in Hc. rewrite Hc. apply Z.ltb_lt in Hc.
  cbn [subs sub_count queue capacity head tail]. rewrite repeat_length.
  unfold OSUSAT_EVENT_MAX_SUBSCRIBERS. repeat split; try lia.
Qed.

Lemma wf_subscribe (bus : bus_t) (e : Z) (h : osusat_event_handler_t)
    (c : Z) :
  wf bus -> wf (snd (osusat_event_bus_subscribe bus e h c)).
Proof.
  intros Hwf. pose proof Hwf as (Hl & Hc & Hh & Hq).
  unfold osusat_event_bus_subscribe.
  destruct (Z.geb_spec (sub_count bus) OSUSAT_EVENT_MAX_SUBSCRIBERS);
    [exact Hwf|].
  destruct h as [f|]; [|exact Hwf]. unfold wf.
  cbn [snd subs sub_count queue capacity head tail].
  rewrite ArrFacts.length_set. split; [exact Hl|]. split; [lia|].
  split; [|exact Hq]. intros i Hi.
  destruct (Z.eq_dec i (sub_count bus)) as [-> | Hne].
  - rewrite ArrFacts.get_set_same by lia. discriminate.
  - rewrite ArrFacts.get_set_other by lia. apply Hh. lia.
Qed.

Lemma wf_publish (bus : bus_t) (e : Z) (d : option (list Z)) (l : Z) :
  wf bus -> wf (snd (osusat_event_bus_publish bus e d l)).
Proof.
  intros Hwf. destruct (queue bus) as [q|] eqn:Hq.
  - destruct (Z.eq_dec ((head bus + 1) mod capacity bus) (tail bus))
      as [Hf | Hnf].
    + rewrite (publish_full bus e d l Hf). exact Hwf.
    + rewrite (publish_room bus q e d l Hq Hnf). cbn [snd].
      apply (pending_after_publish bus q _ Hwf Hq Hnf).
  - unfold osusat_event_bus_publish. rewrite Hq. exact Hwf.
Qed.

Lemma process_loop_sub_count (fuel : nat) :
  forall (q : list osusat_event_t) (bus : bus_t) (calls : list call_t),
    match process_loop fuel q bus calls with
    | Done r => sub_count (fst r) = sub_count bus
    | _ => True
    end.
Proof.
  induction fuel as [|fuel IH]; intros q bus calls; cbn [process_loop];
    destruct (negb (tail bus =? head bus)); try reflexivity; try exact I.
  destruct (scan_subscribers (subs bus) 0 (Z.to_nat (sub_count bus))
              (Arr.get zero_event q (tail bus)) calls) as [calls'| |];
    cbn [bind]; try exact I.
  apply (IH q {| subs := subs bus; sub_count := sub_count bus;
                 queue := queue bus; capacity := capacity bus;
                 head := head bus;
                 tail := (tail bus + 1) mod capacity bus |} calls').
Qed.

Lemma step_sub_count (bus : bus_t) (o : op) :
  sub_count bus <= OSUSAT_EVENT_MAX_SUBSCRIBERS ->
  sub_count (step bus o) <= OSUSAT_EVENT_MAX_SUBSCRIBERS.
Proof.
  intros H. destruct o as [storage cap | e h c | e d l | fuel]; cbn [step].
  - unfold osusat_event_bus_init, OSUSAT_EVENT_MAX_SUBSCRIBERS. simpl. lia.
  - unfold osusat_event_bus_subscribe.
    destruct (Z.geb_spec (sub_count bus) OSUSAT_EVENT_MAX_SUBSCRIBERS);
      [exact H|].
    destruct h; cbn [snd sub_count]; lia.
  - unfold osusat_event_bus_publish. destruct (queue bus); [|exact H].
    destruct (negb _); exact H.
  - unfold osusat_event_bus_process. destruct (queue bus) as [q|]; [|exact H].
    pose proof (process_loop_sub_count fuel q bus []) as Hp.
    destruct (process_loop fuel q bus []) as [[bus' calls]| |];
      cbn [fst] in *; lia.
Qed.

Lemma run_sub_count (ops : list op) :
  forall bus : bus_t,
    sub_count bus <= OSUSAT_EVENT_MAX_SUBSCRIBERS ->
    sub_count (run bus ops) <= OSUSAT_EVENT_MAX_SUBSCRIBERS.
Proof.
  induction ops as [|o ops IH]; intros bus H; [exact H|].
  apply IH, step_sub_count, H.
Qed.

(** C5.  [subscribe] answers false and leaves the bus as it was when the
    table already holds 128 entries or the handler is NULL.  Otherwise,
    whatever the event id (one already registered included), it answers
    true, the new subscription follows the registered ones, the count grows
    by one and the queue is untouched.  Hence no sequence of API calls takes
    the count above 128. *)
Theorem subscribe_appends_or_rejects (bus : bus_t) (e : Z)
    (h : osusat_event_handler_t) (c : Z) :
  (OSUSAT_EVENT_MAX_SUBSCRIBERS <= sub_count bus \/ h = None ->
   osusat_event_bus_subscribe bus e h c = (false, bus)) /\
  (wf bus -> sub_count bus < OSUSAT_EVENT_MAX_SUBSCRIBERS -> h <> None ->
   exists bus',
     osusat_event_bus_subscribe bus e h c = (true, bus') /\
     subscriptions bus'
     = subscriptions bus ++ [{| sub_id := e; handler := h; ctx := c |}] /\
     sub_count bus' = sub_count bus + 1 /\
     queue bus' = queue bus /\ capacity bus' = capacity bus /\
     head bus' = head bus /\ tail bus' = tail bus) /\
  (forall ops : list op,
     sub_count bus <= OSUSAT_EVENT_MAX_SUBSCRIBERS ->
     sub_count (run bus ops) <= OSUSAT_EVENT_MAX_SUBSCRIBERS) /\
  (forall (ops : list op) (storage : option (list osusat_event_t))
          (cap : Z),
     sub_count (run (osusat_event_bus_init storage cap) ops)
     <= OSUSAT_EVENT_MAX_SUBSCRIBERS).
Proof.
  split; [|split; [|split]].
  - intros [Hfull | Hnull]; unfold osusat_event_bus_subscribe.
    + destruct (Z.geb_spec (sub_count bus) OSUSAT_EVENT_MAX_SUBSCRIBERS);
        [reflexivity|lia].
    + rewrite Hnull. destruct (sub_count bus >=? _); reflexivity.
  - intros (Hl & Hc & _ & _) Hroom Hh. unfold osusat_event_bus_subscribe.
    destruct (Z.geb_spec (sub_count bus) OSUSAT_EVENT_MAX_SUBSCRIBERS);
      [lia|].
    destruct h as [f|]; [|contradiction].
    eexists. split; [reflexivity|].
    cbn [sub_count queue capacity head tail]. repeat split.
    unfold subscriptions. cbn [subs sub_count].
    replace (Z.to_nat (sub_count bus + 1))
      with (S (Z.to_nat (sub_count bus))) by lia.
    unfold Arr.set. apply ArrFacts.firstn_upd_snoc. lia.
  - intros ops. apply run_sub_count.
  - intros ops storage cap. apply run_sub_count.
    unfold osusat_event_bus_init, OSUSAT_EVENT_MAX_SUBSCRIBERS. simpl. lia.
Qed.

Lemma subscribe_appends_or_rejects_witness :
  osusat_event_bus_subscribe crowded_bus EVENT_B (Some 2%nat) 200
  = (false, crowded_bus) /\
  osusat_event_bus_subscribe test_bus EVENT_A None 0 = (false, test_bus) /\
  exists bus',
    osusat_event_bus_subscribe test_bus EVENT_A (Some 3%nat) 300
    = (true, bus') /\
    subscriptions bus'
    = subscriptions test_bus
      ++ [{| sub_id := EVENT_A; handler := Some 3%nat; ctx := 300 |}] /\
    sub_count bus' = sub_count test_bus + 1 /\
    queue bus' = queue test_bus /\ capacity bus' = capacity test_bus /\
    head bus' = head test_bus /\ tail bus' = tail test_bus.
Proof.
  split; [|split].
  - apply (subscribe_appends_or_rejects crowded_bus EVENT_B (Some 2%nat) 200).
    left. vm_compute. discriminate.
  - apply (subscribe_appends_or_rejects test_bus EVENT_A None 0).
    right. reflexivity.
  - apply (subscribe_appends_or_rejects test_bus EVENT_A (Some 3%nat) 300).
    + unfold test_bus, run. cbn [fold_left step].
      apply wf_subscribe, wf_subscribe, wf_init; [lia|reflexivity].
    + vm_compute. reflexivity.
    + discriminate.
Defined.

Lemma wf_test_bus : wf test_bus.
Proof.
  unfold test_bus, run. cbn [fold_left step].
  apply wf_subscribe, wf_subscribe, wf_init; [lia|reflexivity].
Qed.

Lemma wf_full_bus : wf full_bus.
Proof.
  unfold full_bus, run, test_publications. cbn [map fold_left step].
  cbn [pub_id pub_data pub_len].
  apply wf_publish, wf_publish, wf_publish, wf_test_bus.
Qed.

(** What [fill_slot] leaves in a slot, field by field: the capped length,
    and either thirty-two zero bytes or the caller's bytes in front of the
    bytes the slot held before. *)
Lemma fill_slot_payload (slot : osusat_event_t) (e : Z)
    (d : option (list Z)) (l : Z) :
  let ev := fill_slot slot e d (Z.min l OSUSAT_EVENT_MAX_PAYLOAD) in
  let n := Z.to_nat (Z.min l OSUSAT_EVENT_MAX_PAYLOAD) in
  (0 <= l -> payload_len ev = Z.min l OSUSAT_EVENT_MAX_PAYLOAD) /\
  (d = None \/ l = 0 ->
   firstn (Z.to_nat OSUSAT_EVENT_MAX_PAYLOAD) (payload ev)
   = repeat 0 (Z.to_nat OSUSAT_EVENT_MAX_PAYLOAD)) /\
  (forall src, d = Some src -> 0 < l ->
               Z.min l OSUSAT_EVENT_MAX_PAYLOAD <= Z.of_nat (length src) ->
               firstn n (payload ev) = firstn n src /\
               skipn n (payload ev) = skipn n (payload slot)).
Proof.
  cbv zeta. unfold fill_slot. cbn [id payload payload_len].
  assert (Hzero : firstn (Z.to_nat OSUSAT_EVENT_MAX_PAYLOAD)
                    (memset (payload slot) 0 OSUSAT_EVENT_MAX_PAYLOAD)
                  = repeat 0 (Z.to_nat OSUSAT_EVENT_MAX_PAYLOAD)).
  { unfold memset.
    rewrite <- (repeat_length 0 (Z.to_nat OSUSAT_EVENT_MAX_PAYLOAD)) at 1.
    apply firstn_exact. }
  split; [|split].
  - intros Hl. unfold uint8, OSUSAT_EVENT_MAX_PAYLOAD. apply Z.mod_small. lia.
  - intros [-> | ->]; [exact Hzero|].
    destruct d as [src|]; [|exact Hzero].
    replace (Z.min 0 OSUSAT_EVENT_MAX_PAYLOAD) with 0
      by (unfold OSUSAT_EVENT_MAX_PAYLOAD; lia).
    exact Hzero.
  - intros src -> Hpos Hsrc.
    destruct (Z.gtb_spec (Z.min l OSUSAT_EVENT_MAX_PAYLOAD) 0);
      [|unfold OSUSAT_EVENT_MAX_PAYLOAD in *; lia].
    unfold memcpy.
    set (n := Z.to_nat (Z.min l OSUSAT_EVENT_MAX_PAYLOAD)).
    assert (Hn : length (firstn n src) = n)
      by (rewrite length_firstn; unfold n; lia).
    split; [rewrite <- Hn at 1; apply firstn_exact|].
    rewrite <- Hn at 1. apply skipn_exact.
Qed.

(** C2.  On an initialized bus the queue is full, [(head + 1) mod capacity
    = tail], exactly when capacity - 1 events are waiting.  Then [publish]
    answers false and returns the bus as it was, every field of it.
    Otherwise it answers true and the slot at [head] now holds the event:
    its id is the published id, its length the published length capped at
    32, and its payload either thirty-two zero bytes (NULL pointer or
    length 0) or the first [min len 32] bytes of the caller's buffer in
    front of the bytes the slot held before.  The other slots are as
    before, [head] has advanced by one modulo the capacity, and the event is
    the newest of the waiting ones. *)
Theorem publish_rejects_or_enqueues (bus : bus_t)
    (q : list osusat_event_t) (e : Z) (d : option (list Z)) (l : Z) :
  wf bus -> queue bus = Some q ->
  ((head bus + 1) mod capacity bus = tail bus
   <-> pending_count bus = capacity bus - 1) /\
  ((head bus + 1) mod capacity bus = tail bus ->
   osusat_event_bus_publish bus e d l = (false, bus)) /\
  ((head bus + 1) mod capacity bus <> tail bus ->
   exists ev bus',
     osusat_event_bus_publish bus e d l = (true, bus') /\
     ev = fill_slot (Arr.get zero_event q (head bus)) e d
            (Z.min l OSUSAT_EVENT_MAX_PAYLOAD) /\
     id ev = e /\
     (0 <= l -> payload_len ev = Z.min l OSUSAT_EVENT_MAX_PAYLOAD) /\
     (d = None \/ l = 0 ->
      firstn (Z.to_nat OSUSAT_EVENT_MAX_PAYLOAD) (payload ev)
      = repeat 0 (Z.to_nat OSUSAT_EVENT_MAX_PAYLOAD)) /\
     (forall src,
        d = Some src -> 0 < l ->
        Z.min l OSUSAT_EVENT_MAX_PAYLOAD <= Z.of_nat (length src) ->
        firstn (Z.to_nat (Z.min l OSUSAT_EVENT_MAX_PAYLOAD)) (payload ev)
        = firstn (Z.to_nat (Z.min l OSUSAT_EVENT_MAX_PAYLOAD)) src /\
        skipn (Z.to_nat (Z.min l OSUSAT_EVENT_MAX_PAYLOAD)) (payload ev)
        = skipn (Z.to_nat (Z.min l OSUSAT_EVENT_MAX_PAYLOAD))
            (payload (Arr.get zero_event q (head bus)))) /\
     queue bus' = Some (Arr.set q (head bus) ev) /\
     Arr.get zero_event (Arr.set q (head bus) ev) (head bus) = ev /\
     (forall j, 0 <= j -> j <> head bus ->
                Arr.get zero_event (Arr.set q (head bus) ev) j
                = Arr.get zero_event q j) /\
     head bus' = (head bus + 1) mod capacity bus /\
     tail bus' = tail bus /\ capacity bus' = capacity bus /\
     subs bus' = subs bus /\ sub_count bus' = sub_count bus /\
     pending bus' = pending bus ++ [ev]).
Proof.
  intros Hwf Hq. destruct (wf_queue bus q Hwf Hq) as (Hc & Hl & Hh & Ht).
  split; [exact (not_full_iff bus q Hwf Hq)|]. split.
  - apply publish_full.
  - intros Hnf.
    destruct (fill_slot_payload (Arr.get zero_event q (head bus)) e d l)
      as (Hlen & Hzero & Hcopy).
    eexists. eexists.
    split; [exact (publish_room bus q e d l Hq Hnf)|].
    split; [reflexivity|]. split; [reflexivity|].
    split; [exact Hlen|]. split; [exact Hzero|]. split; [exact Hcopy|].
    split; [reflexivity|].
    split; [apply ArrFacts.get_set_same; lia|].
    split; [intros j Hj Hne; apply ArrFacts.get_set_other; lia|].
    cbn [enqueued head tail capacity subs sub_count].
    repeat (split; [reflexivity|]).
    apply (pending_after_publish bus q _ Hwf Hq Hnf).
Qed.

Lemma publish_rejects_or_enqueues_witness :
  osusat_event_bus_publish full_bus EVENT_B (Some [9]) 1 = (false, full_bus) /\
  exists ev bus',
    osusat_event_bus_publish test_bus EVENT_A (Some [1; 2; 3]) 3
    = (true, bus') /\
    id ev = EVENT_A /\ payload_len ev = 3 /\
    firstn 3 (payload ev) = [1; 2; 3] /\
    head bus' = 1 /\ pending bus' = [ev].
Proof.
  split.
  - apply (publish_rejects_or_enqueues full_bus full_queue
             EVENT_B (Some [9]) 1 wf_full_bus eq_refl).
    reflexivity.
  - destruct (publish_rejects_or_enqueues test_bus (repeat zero_event 4)
                EVENT_A (Some [1; 2; 3]) 3 wf_test_bus eq_refl)
      as (_ & _ & Hroom).
    destruct Hroom as (ev & bus' & Hp & _ & Hid & Hlen & _ & Hcopy & _ & _ & _
                       & Hh & _ & _ & _ & _ & Hpend);
      [vm_compute; discriminate|].
    destruct (Hcopy [1; 2; 3] eq_refl) as [Hfirst _];
      [lia | vm_compute; discriminate |].
    exists ev, bus'. split; [exact Hp|]. split; [exact Hid|].
    split; [apply Hlen; lia|]. split; [exact Hfirst|].
    split; [exact Hh|exact Hpend].
Defined.

(** C9.  A publish into a queue with room succeeds whatever the payload
    pointer and length.  The stored [payload_len] is the length capped at
    32.  With a NULL pointer, or with length 0, the whole 32-byte payload of
    the slot is zero.  With a buffer and a positive length only the first
    [min len 32] bytes of the slot are written, with the caller's bytes; the
    bytes behind them are the ones the slot held before. *)
Theorem publish_payload_bytes (bus : bus_t) (q : list osusat_event_t)
    (e : Z) (d : option (list Z)) (l : Z) :
  wf bus -> queue bus = Some q ->
  (head bus + 1) mod capacity bus <> tail bus ->
  0 <= l ->
  Z.of_nat (length (payload (Arr.get zero_event q (head bus))))
  = OSUSAT_EVENT_MAX_PAYLOAD ->
  exists bus' q',
    osusat_event_bus_publish bus e d l = (true, bus') /\
    queue bus' = Some q' /\
    let old := Arr.get zero_event q (head bus) in
    let ev := Arr.get zero_event q' (head bus) in
    let n := Z.to_nat (Z.min l OSUSAT_EVENT_MAX_PAYLOAD) in
    id ev = e /\
    payload_len ev = Z.min l OSUSAT_EVENT_MAX_PAYLOAD /\
    (d = None \/ l = 0 ->
     payload ev = repeat 0 (Z.to_nat OSUSAT_EVENT_MAX_PAYLOAD)) /\
    (forall src, d = Some src -> 0 < l ->
                 Z.min l OSUSAT_EVENT_MAX_PAYLOAD <= Z.of_nat (length src) ->
                 firstn n (payload ev) = firstn n src /\
                 skipn n (payload ev) = skipn n (payload old) /\
                 Z.of_nat (length (payload ev)) = OSUSAT_EVENT_MAX_PAYLOAD).
Proof.
  intros Hwf Hq Hnf Hl Hpl.
  destruct (wf_queue bus q Hwf Hq) as (Hc & Hlen & Hh & Ht).
  eexists. eexists. split; [exact (publish_room bus q e d l Hq Hnf)|].
  split; [reflexivity|]. cbv zeta.
  rewrite ArrFacts.get_set_same by lia.
  set (old := Arr.get zero_event q (head bus)) in *.
  assert (Hzero : memset (payload old) 0 OSUSAT_EVENT_MAX_PAYLOAD
                  = repeat 0 (Z.to_nat OSUSAT_EVENT_MAX_PAYLOAD)).
  { unfold memset. rewrite skipn_all2 by lia. apply app_nil_r. }
  unfold fill_slot. cbn [id payload payload_len].
  split; [reflexivity|]. split.
  { unfold uint8, OSUSAT_EVENT_MAX_PAYLOAD. apply Z.mod_small. lia. }
  split.
  - intros [-> | ->]; [exact Hzero|].
    destruct d as [src|]; [|exact Hzero].
    replace (Z.min 0 OSUSAT_EVENT_MAX_PAYLOAD) with 0
      by (unfold OSUSAT_EVENT_MAX_PAYLOAD; lia).
    exact Hzero.
  - intros src -> Hpos Hsrc.
    destruct (Z.gtb_spec (Z.min l OSUSAT_EVENT_MAX_PAYLOAD) 0);
      [|unfold OSUSAT_EVENT_MAX_PAYLOAD in *; lia].
    unfold memcpy.
    set (n := Z.to_nat (Z.min l OSUSAT_EVENT_MAX_PAYLOAD)).
    assert (Hn : length (firstn n src) = n)
      by (rewrite length_firstn; unfold n; lia).
    split; [rewrite <- Hn at 1; apply firstn_exact|].
    split; [rewrite <- Hn at 1; apply skipn_exact|].
    rewrite length_app, Hn, length_skipn.
    unfold n, OSUSAT_EVENT_MAX_PAYLOAD in *. lia.
Qed.

Lemma publish_payload_bytes_witness :
  exists bus' q',
    osusat_event_bus_publish test_bus EVENT_A (Some [1; 2; 3]) 3
    = (true, bus') /\
    queue bus' = Some q' /\
    id (Arr.get zero_event q' 0) = EVENT_A /\
    payload_len (Arr.get zero_event q' 0) = 3 /\
    firstn 3 (payload (Arr.get zero_event q' 0)) = [1; 2; 3] /\
    skipn 3 (payload (Arr.get zero_event q' 0)) = repeat 0 29.
Proof.
  destruct (publish_payload_bytes test_bus (repeat zero_event 4) EVENT_A
              (Some [1; 2; 3]) 3 wf_test_bus eq_refl)
    as (bus' & q' & Hp & Hq & Hid & Hlen & _ & Hcopy).
  - vm_compute. discriminate.
  - lia.
  - reflexivity.
  - destruct (Hcopy [1; 2; 3] eq_refl) as (Hfirst & Hskip & _);
      [lia | vm_compute; discriminate |].
    exists bus', q'. split; [exact Hp|]. split; [exact Hq|].
    split; [exact Hid|]. split; [exact Hlen|].
    split; [exact Hfirst|exact Hskip].
Defined.

(** Publishing a batch that fits appends its events to the waiting ones. *)
Lemma publish_all_room (ps : list publication) :
  forall bus : bus_t,
    wf bus -> queue bus <> None -> Forall publication_ok ps ->
    pending_count bus + Z.of_nat (length ps) <= capacity bus - 1 ->
    exists bus1 evs,
      publish_all bus ps = Some bus1 /\ wf bus1 /\
      queue bus1 <> None /\ capacity bus1 = capacity bus /\
      subs bus1 = subs bus /\ sub_count bus1 = sub_count bus /\
      pending_count bus1 = pending_count bus + Z.of_nat (length ps) /\
      Forall2 stored_as ps evs /\
      pending bus1 = pending bus ++ evs.
Proof.
  induction ps as [|p ps IH]; intros bus Hwf Hq Hok Hroom.
  - exists bus, []. cbn [publish_all length]. rewrite app_nil_r.
    repeat (split; [first [reflexivity | assumption | constructor]|]).
    split; [lia|]. split; [constructor|reflexivity].
  - cbn [publish_all]. destruct (queue bus) as [q|] eqn:Hqq; [|contradiction].
    inversion Hok as [|? ? Hp Hps]; subst.
    assert (Hnf : (head bus + 1) mod capacity bus <> tail bus).
    { intros Hf. apply (not_full_iff bus q Hwf Hqq) in Hf.
      cbn [length] in Hroom. lia. }
    rewrite (publish_room bus q _ _ _ Hqq Hnf).
    set (ev := fill_slot (Arr.get zero_event q (head bus)) (pub_id p)
                 (pub_data p) (Z.min (pub_len p) OSUSAT_EVENT_MAX_PAYLOAD)).
    destruct (pending_after_publish bus q ev Hwf Hqq Hnf)
      as (Hwf1 & Hcount1 & Hpend1).
    destruct (IH (enqueued bus q ev) Hwf1) as
        (bus1 & evs & Hall & Hwfb & Hqb & Hcb & Hsb & Hscb & Hpcb & Hst & Hpb);
      [discriminate | exact Hps | cbn [length] in Hroom;
       cbn [enqueued capacity]; lia |].
    exists bus1, (ev :: evs). split; [exact Hall|]. split; [exact Hwfb|].
    split; [exact Hqb|]. split; [exact Hcb|]. split; [exact Hsb|].
    split; [exact Hscb|]. split; [cbn [length]; lia|].
    split; [constructor; [apply fill_slot_stored; exact Hp|exact Hst]|].
    rewrite Hpb, Hpend1, <- app_assoc. reflexivity.
Qed.

(** C3.  On an initialized bus, with any subscriber table, let a sequence of
    publishes keep the number of waiting events within capacity - 1.  Every
    publish succeeds, and one call of [process] then returns with the queue
    empty, having taken the waiting events oldest first (those already
    waiting, then the published ones in publish order) and, for each,
    called the handler of every subscription registered for its id, once
    per subscription, in registration order, with the event and the
    subscription's context. *)
Theorem process_delivers_in_order (bus : bus_t) (ps : list publication)
    (fuel : nat) :
  wf bus -> queue bus <> None -> Forall publication_ok ps ->
  pending_count bus + Z.of_nat (length ps) <= capacity bus - 1 ->
  (Z.to_nat (capacity bus) <= fuel)%nat ->
  exists bus1 evs,
    publish_all bus ps = Some bus1 /\
    Forall2 stored_as ps evs /\
    pending bus1 = pending bus ++ evs /\
    osusat_event_bus_process fuel bus1
    = Done (drained bus1,
            flat_map (deliveries (subscriptions bus)) (pending bus ++ evs)) /\
    tail (drained bus1) = head (drained bus1) /\
    pending (drained bus1) = [] /\
    subscriptions (drained bus1) = subscriptions bus.
Proof.
  intros Hwf Hq Hok Hroom Hfuel.
  destruct (publish_all_room ps bus Hwf Hq Hok Hroom)
    as (bus1 & evs & Hall & Hwf1 & Hq1 & Hc1 & Hs1 & Hsc1 & Hpc1 & Hst & Hp1).
  exists bus1, evs. split; [exact Hall|]. split; [exact Hst|].
  split; [exact Hp1|].
  destruct (queue bus1) as [q1|] eqn:Hqq; [|contradiction].
  destruct (wf_queue bus1 q1 Hwf1 Hqq) as (Hcap & _ & _ & _).
  assert (Hsubs : subscriptions bus1 = subscriptions bus)
    by (unfold subscriptions; now rewrite Hs1, Hsc1).
  split; [|split; [reflexivity|split]].
  - unfold osusat_event_bus_process. rewrite Hqq.
    rewrite (process_loop_spec fuel bus1 q1 [] Hwf1 Hqq)
      by (pose proof (pending_count_range bus1 Hcap); lia).
    rewrite Hsubs, Hp1. reflexivity.
  - apply pending_empty; [exact Hcap|reflexivity].
  - exact Hsubs.
Qed.

Lemma process_delivers_in_order_witness :
  exists bus1 evs,
    publish_all test_bus test_publications = Some bus1 /\
    Forall2 stored_as test_publications evs /\
    osusat_event_bus_process 4 bus1
    = Done (drained bus1,
            flat_map (deliveries (subscriptions test_bus)) evs) /\
    map (fun c => (call_handler c, id (call_event c), call_ctx c))
        (flat_map (deliveries (subscriptions test_bus)) evs)
    = [(1%nat, EVENT_A, 100); (2%nat, EVENT_B, 200); (1%nat, EVENT_A, 100)] /\
    pending (drained bus1) = [].
Proof.
  destruct (process_delivers_in_order test_bus test_publications 4%nat
              wf_test_bus)
    as (bus1 & evs & Hall & Hst & Hp & Hrun & _ & Hempty & _).
  - discriminate.
  - unfold test_publications, publication_ok.
    repeat (constructor; [cbn; lia|]). constructor.
  - vm_compute. discriminate.
  - vm_compute. lia.
  - exists bus1, evs. split; [exact Hall|]. split; [exact Hst|].
    split; [exact Hrun|]. split; [|exact Hempty].
    clear - Hst. unfold test_publications in Hst.
    inversion Hst as [|p1 e1 ps1 es1 (H1 & _) Hst1]; subst.
    inversion Hst1 as [|p2 e2 ps2 es2 (H2 & _) Hst2]; subst.
    inversion Hst2 as [|p3 e3 ps3 es3 (H3 & _) Hst3]; subst.
    inversion Hst3; subst. clear - H1 H2 H3.
    destruct e1 as [i1 b1 l1], e2 as [i2 b2 l2], e3 as [i3 b3 l3].
    cbn [id pub_id] in H1, H2, H3. subst i1 i2 i3.
    vm_compute. reflexivity.
Defined.

End EventBusFacts.

(** ** Facts about ring_buffer_pow2.c *)

Module RingBufferPow2Facts.
Import RingBufferPow2.

(** A positive number shares no bit with its predecessor only when it is a
    single bit. *)
Lemma land_pred_zero (x : Z) :
  0 < x -> Z.land x (x - 1) = 0 -> x = 2 ^ Z.log2 x.
Proof.
  intros Hx Hland.
  destruct (Z.log2_spec x Hx) as [Hlo Hhi].
  pose proof (Z.log2_nonneg x) as Hk.
  destruct (Z.eq_dec x (2 ^ Z.log2 x)) as [E | Hne]; [exact E|exfalso].
  assert (Hpred : Z.log2 (x - 1) = Z.log2 x).
  { apply Z.log2_unique; [exact Hk|]. rewrite <- Z.add_1_r in Hhi. lia. }
  assert (Hbit : Z.testbit (Z.land x (x - 1)) (Z.log2 x) = true).
  { rewrite Z.land_spec, (Z.bit_log2 x Hx).
    rewrite <- Hpred. rewrite Z.bit_log2; [reflexivity|].
    pose proof (Z.pow_pos_nonneg 2 (Z.log2 x)). lia. }
  rewrite Hland, Z.bits_0 in Hbit. discriminate.
Qed.

Lemma land_pred_pow2 (k : Z) : 0 <= k -> Z.land (2 ^ k) (2 ^ k - 1) = 0.
Proof.
  intros Hk. replace (2 ^ k - 1) with (Z.ones k)
    by (rewrite Z.ones_equiv; lia).
  rewrite Z.land_ones by exact Hk. apply Z_mod_same_full.
Qed.

(** [osusat_is_pow2] decides being a power of two. *)
Lemma is_pow2_spec (x : Z) :
  0 <= x -> (osusat_is_pow2 x = true <-> exists k, 0 <= k /\ x = 2 ^ k).
Proof.
  intros Hx. unfold osusat_is_pow2. split.
  - intros H. apply andb_true_iff in H as [Hnz Hland].
    apply negb_true_iff, Z.eqb_neq in Hnz. apply Z.eqb_eq in Hland.
    exists (Z.log2 x). split; [apply Z.log2_nonneg|].
    apply land_pred_zero; [lia|exact Hland].
  - intros (k & Hk & ->). apply andb_true_iff. split.
    + apply negb_true_iff, Z.eqb_neq.
      pose proof (Z.pow_pos_nonneg 2 k). lia.
    + apply Z.eqb_eq, land_pred_pow2, Hk.
Qed.

(** C8.  For a capacity as a [size_t] holds it, initialization of the
    power-of-two ring buffer answers true exactly when the capacity is a
    power of two: 10 and 0 are refused, 8 is accepted.  On success the handle
    is bound to the storage with mask = capacity - 1 (7 for 8) and [head]
    and [tail] at 0, so the buffer is empty; on failure the handle is
    returned as it was passed in. *)
Theorem pow2_init_iff_power_of_two (rb : osusat_ring_buffer_pow2_t)
    (storage : list Z) (cap : Z) :
  0 <= cap ->
  (fst (osusat_ring_buffer_pow2_init rb storage cap) = true
   <-> exists k, 0 <= k /\ cap = 2 ^ k) /\
  (fst (osusat_ring_buffer_pow2_init rb storage cap) = true ->
   snd (osusat_ring_buffer_pow2_init rb storage cap)
   = {| buffer := storage; capacity := cap; mask := cap - 1;
        head := 0; tail := 0 |} /\
   osusat_ring_buffer_pow2_empty
     (snd (osusat_ring_buffer_pow2_init rb storage cap)) = true) /\
  (fst (osusat_ring_buffer_pow2_init rb storage cap) = false ->
   snd (osusat_ring_buffer_pow2_init rb storage cap) = rb) /\
  fst (osusat_ring_buffer_pow2_init rb storage 10) = false /\
  fst (osusat_ring_buffer_pow2_init rb storage 0) = false /\
  fst (osusat_ring_buffer_pow2_init rb storage 8) = true /\
  mask (snd (osusat_ring_buffer_pow2_init rb storage 8)) = 7.
Proof.
  intros Hcap. pose proof (is_pow2_spec cap Hcap) as Hspec.
  unfold osusat_ring_buffer_pow2_init.
  destruct (osusat_is_pow2 cap); cbn [negb fst snd].
  - split; [split; [intros _; apply Hspec; reflexivity|reflexivity]|].
    split; [intros _; split; reflexivity|].
    split; [discriminate|]. repeat split.
  - split; [split; [discriminate|intros H; apply Hspec in H; discriminate]|].
    split; [discriminate|]. split; [reflexivity|]. repeat split.
Qed.

Lemma pow2_init_iff_power_of_two_witness :
  fst (osusat_ring_buffer_pow2_init
         {| buffer := []; capacity := 0; mask := 0; head := 5; tail := 3 |}
         (repeat 0 8) 8) = true /\
  snd (osusat_ring_buffer_pow2_init
         {| buffer := []; capacity := 0; mask := 0; head := 5; tail := 3 |}
         (repeat 0 8) 8)
  = {| buffer := repeat 0 8; capacity := 8; mask := 7; head := 0; tail := 0 |} /\
  (exists k, 0 <= k /\ 8 = 2 ^ k).
Proof.
  destruct (pow2_init_iff_power_of_two
              {| buffer := []; capacity := 0; mask := 0; head := 5; tail := 3 |}
              (repeat 0 8) 8 ltac:(lia))
    as (Hiff & Hok & _).
  split; [reflexivity|]. split; [apply Hok; reflexivity|].
  apply Hiff. reflexivity.
Defined.

End RingBufferPow2Facts.

(** ** ring_buffer.c: the operations as a user sees them *)

Module RingBufferProps.
Import RingBuffer RingBufferFacts.

Lemma wf_fresh (cap : Z) (ovw : bool) : 0 < cap -> wf (fresh cap ovw).
Proof.
  intros H. unfold wf, fresh, osusat_ring_buffer_init.
  cbn [buffer capacity head tail]. rewrite repeat_length. lia.
Qed.

Lemma wf_push_list (bs : list Z) :
  forall rb : osusat_ring_buffer_t, wf rb -> wf (push_list rb bs).
Proof.
  unfold push_list. induction bs as [|b bs IH]; intros rb H; cbn [fold_left].
  - exact H.
  - apply IH, push_wf, H.
Qed.

Lemma full_iff_size (rb : osusat_ring_buffer_t) :
  wf rb ->
  (osusat_ring_buffer_full rb = true
   <-> osusat_ring_buffer_size rb = capacity rb - 1).
Proof.
  intros (Hc & _ & Hh & Ht).
  unfold osusat_ring_buffer_full, osusat_ring_buffer_size.
  rewrite Z.eqb_eq.
  destruct (mod_succ_cases (head rb) (capacity rb) Hc Hh) as [[? E]|[? E]];
    rewrite E; index_cases; lia.
Qed.

(** As many pops as [size] reports succeed, and the one after them
    fails. *)
Lemma pop_n_size (n : nat) :
  forall rb : osusat_ring_buffer_t,
    wf rb -> osusat_ring_buffer_size rb = Z.of_nat n ->
    exists rb',
      pop_n n rb = Some (contents rb, rb') /\ wf rb' /\
      osusat_ring_buffer_size rb' = 0 /\
      osusat_ring_buffer_pop rb' = None /\
      buffer rb' = buffer rb /\ capacity rb' = capacity rb.
Proof.
  induction n as [|n IH]; intros rb Hwf Hsize;
    destruct (pop_spec rb Hwf)
      as [(Hp & Hk & _) | (x & rb1 & Hp & Hwf1 & Hc1 & Hs1 & Hk)].
  - exists rb. cbn [pop_n]. rewrite Hk. auto 7.
  - pose proof (size_range rb1 Hwf1). lia.
  - pose proof (size_range rb Hwf). unfold osusat_ring_buffer_pop in Hp.
    destruct (Z.eqb_spec (tail rb) (head rb)) as [E|E]; [|discriminate].
    unfold osusat_ring_buffer_size in Hsize. rewrite E in Hsize.
    destruct (Z.geb_spec (head rb) (head rb)); lia.
  - destruct (IH rb1 Hwf1 ltac:(lia))
      as (rb' & Hn & Hwf' & Hs' & Hp' & Hb' & Hc').
    exists rb'. cbn [pop_n]. rewrite Hp, Hn, Hk.
    split; [reflexivity|]. split; [exact Hwf'|]. split; [exact Hs'|].
    split; [exact Hp'|].
    unfold osusat_ring_buffer_pop in Hp.
    destruct (tail rb =? head rb); [discriminate|].
    injection Hp as _ <-. cbn [buffer capacity] in *. auto.
Qed.

(** X1.  On a well-formed handle the observers agree with what a consumer
    can do.  [size] is the number of bytes that can be popped: that many
    successive pops succeed, the next one fails, and the buffer is then
    empty with its storage untouched.  [size] never exceeds capacity - 1;
    [empty] holds exactly when it is 0, which is exactly when [pop] fails,
    and [full] exactly when it is capacity - 1. *)
Theorem observers_agree (rb : osusat_ring_buffer_t) :
  wf rb ->
  0 <= osusat_ring_buffer_size rb <= capacity rb - 1 /\
  (exists bs rb',
     pop_n (Z.to_nat (osusat_ring_buffer_size rb)) rb = Some (bs, rb') /\
     Z.of_nat (length bs) = osusat_ring_buffer_size rb /\
     bs = contents rb /\
     osusat_ring_buffer_pop rb' = None /\
     osusat_ring_buffer_size rb' = 0 /\
     osusat_ring_buffer_empty rb' = true /\
     buffer rb' = buffer rb) /\
  (osusat_ring_buffer_empty rb = true <-> osusat_ring_buffer_size rb = 0) /\
  (osusat_ring_buffer_empty rb = true <-> osusat_ring_buffer_pop rb = None) /\
  (osusat_ring_buffer_full rb = true
   <-> osusat_ring_buffer_size rb = capacity rb - 1).
Proof.
  intros H. pose proof (size_range rb H) as Hr.
  split; [lia|]. split; [|split; [|split]].
  - destruct (pop_n_size (Z.to_nat (osusat_ring_buffer_size rb)) rb H)
      as (rb' & Hn & Hwf' & Hs' & Hp' & Hb' & _); [lia|].
    exists (contents rb), rb'. split; [exact Hn|].
    split; [apply (contents_length rb H)|]. split; [reflexivity|].
    split; [exact Hp'|]. split; [exact Hs'|].
    split; [rewrite (empty_size rb' Hwf'), Hs'; reflexivity|exact Hb'].
  - rewrite (empty_size rb H), Z.eqb_eq. reflexivity.
  - unfold osusat_ring_buffer_empty, osusat_ring_buffer_pop.
    rewrite (Z.eqb_sym (tail rb) (head rb)).
    destruct (head rb =? tail rb); split; intros E;
      [reflexivity|reflexivity|discriminate|discriminate].
  - apply (full_iff_size rb H).
Qed.

Lemma observers_agree_witness :
  osusat_ring_buffer_size (push_list (fresh 4 false) [1; 2; 3]) = 3 /\
  osusat_ring_buffer_full (push_list (fresh 4 false) [1; 2; 3]) = true /\
  exists rb',
    pop_n 3 (push_list (fresh 4 false) [1; 2; 3]) = Some ([1; 2; 3], rb') /\
    osusat_ring_buffer_pop rb' = None.
Proof.
  destruct (observers_agree (push_list (fresh 4 false) [1; 2; 3]))
    as (_ & (bs & rb' & Hn & _ & Hbs & Hp & _) & _ & _ & Hf).
  - apply wf_push_list, wf_fresh. lia.
  - split; [reflexivity|]. split; [apply Hf; reflexivity|].
    exists rb'. split; [|exact Hp]. rewrite Hbs in Hn. exact Hn.
Defined.

(** X2.  Without overwrite, [push] refuses a byte exactly when the buffer
    is full, and then changes nothing; otherwise the byte becomes the newest
    one and everything stored before stays in place. *)
Theorem push_rejects_only_when_full (rb : osusat_ring_buffer_t) (b : Z) :
  wf rb -> overwrite rb = false ->
  (osusat_ring_buffer_full rb = true ->
   osusat_ring_buffer_push rb b = (false, rb)) /\
  (osusat_ring_buffer_full rb = false ->
   exists rb',
     osusat_ring_buffer_push rb b = (true, rb') /\ wf rb' /\
     contents rb' = contents rb ++ [b] /\
     osusat_ring_buffer_size rb' = osusat_ring_buffer_size rb + 1 /\
     overwrite rb' = false /\ capacity rb' = capacity rb).
Proof.
  intros H Hov. split.
  - intros Hf. unfold osusat_ring_buffer_push.
    unfold osusat_ring_buffer_full in Hf. rewrite Hf, Hov. reflexivity.
  - intros Hnf. pose proof (size_range rb H) as Hr.
    assert (Hroom : osusat_ring_buffer_size rb + 1 < capacity rb).
    { destruct (Z.eq_dec (osusat_ring_buffer_size rb) (capacity rb - 1))
        as [E | E]; [|lia].
      apply (full_iff_size rb H) in E. congruence. }
    destruct (push_room rb b H Hroom) as (rb' & Hp & Hwf' & Hc' & Hs' & Hk').
    exists rb'. split; [exact Hp|]. split; [exact Hwf'|].
    split; [exact Hk'|]. split; [exact Hs'|]. split; [|exact Hc'].
    unfold osusat_ring_buffer_push in Hp.
    destruct (((head rb + 1) mod capacity rb =? tail rb)
              && negb (overwrite rb)); [discriminate|].
    injection Hp as <-. exact Hov.
Qed.

Lemma push_rejects_only_when_full_witness :
  osusat_ring_buffer_push (push_list (fresh 4 false) [1; 2; 3]) 4
  = (false, push_list (fresh 4 false) [1; 2; 3]) /\
  exists rb',
    osusat_ring_buffer_push (push_list (fresh 4 false) [1; 2]) 3 = (true, rb') /\
    contents rb' = [1; 2; 3].
Proof.
  split.
  - apply (push_rejects_only_when_full (push_list (fresh 4 false) [1; 2; 3]) 4).
    + apply wf_push_list, wf_fresh. lia.
    + reflexivity.
    + reflexivity.
  - destruct (push_rejects_only_when_full (push_list (fresh 4 false) [1; 2]) 3)
      as (_ & Hroom).
    + apply wf_push_list, wf_fresh. lia.
    + reflexivity.
    + destruct (Hroom eq_refl) as (rb' & Hp & _ & Hk & _).
      exists rb'. split; [exact Hp|exact Hk].
Defined.

(** X3.  With overwrite, [push] never refuses: the byte becomes the newest
    one, and the buffer keeps the newest capacity - 1 bytes.  On a full
    buffer of capacity 2 or more that means the oldest byte is dropped and
    the fill level stays the same. *)
Theorem push_overwrite_drops_oldest (rb : osusat_ring_buffer_t) (b : Z) :
  wf rb -> overwrite rb = true ->
  exists rb',
    osusat_ring_buffer_push rb b = (true, rb') /\ wf rb' /\
    overwrite rb' = true /\ capacity rb' = capacity rb /\
    contents rb'
    = Arr.keep_last (Z.to_nat (capacity rb - 1)) (contents rb ++ [b]) /\
    (osusat_ring_buffer_full rb = false ->
     contents rb' = contents rb ++ [b]) /\
    (osusat_ring_buffer_full rb = true -> 2 <= capacity rb ->
     contents rb' = List.tl (contents rb) ++ [b] /\
     osusat_ring_buffer_size rb' = osusat_ring_buffer_size rb).
Proof.
  intros H Hov. pose proof (size_range rb H) as Hr.
  pose proof (contents_length rb H) as Hl.
  destruct (push_overwrite rb b H Hov) as (rb' & Hp & Hwf' & Hc' & Hov' & Hk').
  exists rb'. split; [exact Hp|]. split; [exact Hwf'|]. split; [exact Hov'|].
  split; [exact Hc'|]. split; [exact Hk'|]. split.
  - intros Hnf. rewrite Hk'. apply ArrFacts.keep_last_all.
    rewrite length_app. cbn [length].
    destruct (Z.eq_dec (osusat_ring_buffer_size rb) (capacity rb - 1))
      as [E | E]; [|lia].
    apply (full_iff_size rb H) in E. congruence.
  - intros Hf Hcap. apply (full_iff_size rb H) in Hf.
    destruct (push_full_overwrite rb b H Hov) as (rb2 & Hp2 & _ & _ & _ & Hs2 & Hk2);
      [lia|].
    rewrite Hp in Hp2. injection Hp2 as <-. split; [|exact Hs2].
    rewrite Hk2. destruct (contents rb) as [|x xs]; [|reflexivity].
    cbn [length] in Hl. lia.
Qed.

Lemma push_overwrite_drops_oldest_witness :
  exists rb',
    osusat_ring_buffer_push (push_list (fresh 4 true) [1; 2; 3]) 4 = (true, rb') /\
    contents rb' = [2; 3; 4].
Proof.
  destruct (push_overwrite_drops_oldest (push_list (fresh 4 true) [1; 2; 3]) 4)
    as (rb' & Hp & _ & _ & _ & _ & _ & Hfull).
  - apply wf_push_list, wf_fresh. lia.
  - reflexivity.
  - exists rb'. split; [exact Hp|].
    apply Hfull; [reflexivity|vm_compute; discriminate].
Defined.

(** X4.  [pop] and [peek] fail exactly on an empty buffer.  Otherwise both
    yield the oldest byte; [pop] removes it and leaves the rest in order,
    without touching the storage. *)
Theorem pop_returns_oldest (rb : osusat_ring_buffer_t) :
  wf rb ->
  match contents rb with
  | [] => osusat_ring_buffer_pop rb = None /\
          osusat_ring_buffer_peek rb = None /\
          osusat_ring_buffer_empty rb = true
  | x :: xs =>
      osusat_ring_buffer_peek rb = Some x /\
      exists rb',
        osusat_ring_buffer_pop rb = Some (x, rb') /\ wf rb' /\
        contents rb' = xs /\ buffer rb' = buffer rb /\
        capacity rb' = capacity rb /\ overwrite rb' = overwrite rb
  end.
Proof.
  intros H.
  destruct (pop_spec rb H)
    as [(Hp & Hnil & Hz) | (x & rb' & Hp & Hwf' & Hc' & _ & Hk)].
  - rewrite Hnil. split; [exact Hp|].
    unfold osusat_ring_buffer_pop in Hp. unfold osusat_ring_buffer_peek.
    split.
    + destruct (tail rb =? head rb); [reflexivity|discriminate].
    + rewrite (empty_size rb H), Hz. reflexivity.
  - rewrite Hk. split.
    + unfold osusat_ring_buffer_pop in Hp. unfold osusat_ring_buffer_peek.
      destruct (tail rb =? head rb); [discriminate|].
      injection Hp as <- _. reflexivity.
    + exists rb'. split; [exact Hp|]. split; [exact Hwf'|].
      split; [reflexivity|]. split; [|split; [exact Hc'|]];
        unfold osusat_ring_buffer_pop in Hp;
        (destruct (tail rb =? head rb); [discriminate|]);
        injection Hp as _ <-; reflexivity.
Qed.

Lemma pop_returns_oldest_witness :
  osusat_ring_buffer_peek (push_list (fresh 4 false) [1; 2]) = Some 1 /\
  exists rb',
    osusat_ring_buffer_pop (push_list (fresh 4 false) [1; 2]) = Some (1, rb') /\
    contents rb' = [2].
Proof.
  pose proof (pop_returns_oldest (push_list (fresh 4 false) [1; 2])
                (wf_push_list [1; 2] _ (wf_fresh 4 false ltac:(lia)))) as H.
  change (contents (push_list (fresh 4 false) [1; 2])) with [1; 2] in H.
  destruct H as (Hpeek & rb' & Hp & _ & Hk & _).
  split; [exact Hpeek|]. exists rb'. split; [exact Hp|exact Hk].
Defined.

(** X5.  [clear] empties the buffer without touching the storage bytes,
    whatever it held; a byte pushed next is the byte popped next, and the
    buffer is empty again. *)
Theorem clear_then_push_pop (rb : osusat_ring_buffer_t) (b : Z) :
  wf rb -> 2 <= capacity rb ->
  wf (osusat_ring_buffer_clear rb) /\
  contents (osusat_ring_buffer_clear rb) = [] /\
  buffer (osusat_ring_buffer_clear rb) = buffer rb /\
  exists rb1 rb2,
    osusat_ring_buffer_push (osusat_ring_buffer_clear rb) b = (true, rb1) /\
    contents rb1 = [b] /\
    osusat_ring_buffer_pop rb1 = Some (b, rb2) /\
    osusat_ring_buffer_empty rb2 = true.
Proof.
  intros H Hcap. pose proof H as (Hc & Hl & _ & _).
  assert (Hwf0 : wf (osusat_ring_buffer_clear rb)).
  { unfold wf, osusat_ring_buffer_clear. cbn [buffer capacity head tail]. lia. }
  assert (Hnil : contents (osusat_ring_buffer_clear rb) = []) by reflexivity.
  split; [exact Hwf0|]. split; [exact Hnil|]. split; [reflexivity|].
  destruct (push_room (osusat_ring_buffer_clear rb) b Hwf0)
    as (rb1 & Hp & Hwf1 & _ & _ & Hk1).
  { unfold osusat_ring_buffer_size, osusat_ring_buffer_clear.
    cbn [head tail capacity]. simpl. lia. }
  rewrite Hnil in Hk1. cbn [app] in Hk1.
  destruct (pop_spec rb1 Hwf1)
    as [(_ & Hn & _) | (x & rb2 & Hpop & Hwf2 & _ & _ & Hk2)].
  - rewrite Hn in Hk1. discriminate.
  - rewrite Hk1 in Hk2. injection Hk2 as <- Hk2.
    exists rb1, rb2. split; [exact Hp|]. split; [exact Hk1|].
    split; [exact Hpop|].
    rewrite (empty_size rb2 Hwf2), <- (contents_length rb2 Hwf2), <- Hk2.
    reflexivity.
Qed.

Lemma clear_then_push_pop_witness :
  contents (osusat_ring_buffer_clear (push_list (fresh 4 false) [1; 2; 3])) = []
  /\ buffer (osusat_ring_buffer_clear (push_list (fresh 4 false) [1; 2; 3]))
     = [1; 2; 3; 0].
Proof.
  destruct (clear_then_push_pop (push_list (fresh 4 false) [1; 2; 3]) 9)
    as (_ & Hnil & Hbuf & _).
  - apply wf_push_list, wf_fresh. lia.
  - vm_compute. discriminate.
  - split; [exact Hnil|]. rewrite Hbuf. reflexivity.
Defined.

(** X6.  A buffer of capacity 1 is always empty and always full.  Without
    overwrite every push is refused; with overwrite every push reports
    success, yet the byte is gone at once: the buffer is still empty and the
    next pop fails. *)
Theorem capacity_one_holds_nothing (rb : osusat_ring_buffer_t) (b : Z) :
  wf rb -> capacity rb = 1 ->
  osusat_ring_buffer_empty rb = true /\
  osusat_ring_buffer_full rb = true /\
  (overwrite rb = false -> osusat_ring_buffer_push rb b = (false, rb)) /\
  (overwrite rb = true ->
   exists rb',
     osusat_ring_buffer_push rb b = (true, rb') /\
     osusat_ring_buffer_empty rb' = true /\
     osusat_ring_buffer_pop rb' = None).
Proof.
  intros (_ & _ & Hh & Ht) Hcap. rewrite Hcap in *.
  assert (Eh : head rb = 0) by lia. assert (Et : tail rb = 0) by lia.
  unfold osusat_ring_buffer_empty, osusat_ring_buffer_full,
    osusat_ring_buffer_push, osusat_ring_buffer_pop.
  rewrite Hcap, Eh, Et. cbn.
  split; [reflexivity|]. split; [reflexivity|]. split.
  - intros ->. reflexivity.
  - intros ->. eexists. split; [reflexivity|]. split; reflexivity.
Qed.

Lemma capacity_one_holds_nothing_witness :
  osusat_ring_buffer_push (fresh 1 false) 7 = (false, fresh 1 false) /\
  exists rb',
    osusat_ring_buffer_push (fresh 1 true) 7 = (true, rb') /\
    osusat_ring_buffer_pop rb' = None.
Proof.
  split.
  - apply (capacity_one_holds_nothing (fresh 1 false) 7);
      [apply wf_fresh; lia | reflexivity | reflexivity].
  - destruct (capacity_one_holds_nothing (fresh 1 true) 7)
      as (_ & _ & _ & Hov); [apply wf_fresh; lia | reflexivity |].
    destruct (Hov eq_refl) as (rb' & Hp & _ & Hpop).
    exists rb'. split; [exact Hp|exact Hpop].
Defined.

Lemma push_list_no_overwrite (bs : list Z) :
  forall rb : osusat_ring_buffer_t,
    wf rb -> overwrite rb = false ->
    contents (push_list rb bs)
    = contents rb
      ++ firstn (Z.to_nat (capacity rb - 1 - osusat_ring_buffer_size rb)) bs.
Proof.
  unfold push_list. induction bs as [|b bs IH]; intros rb H Hov;
    cbn [fold_left].
  - rewrite firstn_nil. symmetry. apply app_nil_r.
  - pose proof (size_range rb H) as Hr.
    destruct (Z.eq_dec (osusat_ring_buffer_size rb) (capacity rb - 1))
      as [Hfull | Hroom].
    + assert (Hp : osusat_ring_buffer_push rb b = (false, rb)).
      { apply (full_iff_size rb H) in Hfull.
        unfold osusat_ring_buffer_push.
        unfold osusat_ring_buffer_full in Hfull. now rewrite Hfull, Hov. }
      rewrite Hp. cbn [snd]. rewrite (IH rb H Hov).
      replace (Z.to_nat (capacity rb - 1 - osusat_ring_buffer_size rb))
        with 0%nat by lia. reflexivity.
    + destruct (push_room rb b H) as (rb1 & Hp & Hwf1 & Hc1 & Hs1 & Hk1);
        [lia|].
      assert (Hov1 : overwrite rb1 = false).
      { unfold osusat_ring_buffer_push in Hp.
        destruct (((head rb + 1) mod capacity rb =? tail rb)
                  && negb (overwrite rb)); [discriminate|].
        injection Hp as <-. exact Hov. }
      rewrite Hp. cbn [snd]. rewrite (IH rb1 Hwf1 Hov1), Hk1, Hc1, Hs1.
      rewrite <- app_assoc. f_equal.
      replace (Z.to_nat (capacity rb - 1 - osusat_ring_buffer_size rb))
        with (S (Z.to_nat (capacity rb - 1
                           - (osusat_ring_buffer_size rb + 1)))) by lia.
      reflexivity.
Qed.

Lemma push_list_overwrite (bs : list Z) :
  forall rb : osusat_ring_buffer_t,
    wf rb -> overwrite rb = true ->
    contents (push_list rb bs)
    = Arr.keep_last (Z.to_nat (capacity rb - 1)) (contents rb ++ bs).
Proof.
  unfold push_list. induction bs as [|b bs IH]; intros rb H Hov;
    cbn [fold_left].
  - rewrite app_nil_r. symmetry. apply ArrFacts.keep_last_all.
    pose proof (contents_length rb H). pose proof (size_range rb H). lia.
  - destruct (push_overwrite rb b H Hov) as (rb1 & Hp & Hwf1 & Hc1 & Hov1 & Hk1).
    rewrite Hp. cbn [snd].
    rewrite (IH rb1 Hwf1 Hov1), Hk1, Hc1, ArrFacts.keep_last_app,
      <- app_assoc.
    reflexivity.
Qed.

Lemma push_list_stored (rb : osusat_ring_buffer_t) (bs : list Z) :
  wf rb ->
  contents (push_list rb bs)
  = if overwrite rb
    then Arr.keep_last (Z.to_nat (capacity rb - 1)) (contents rb ++ bs)
    else contents rb
         ++ firstn (Z.to_nat (capacity rb - 1 - osusat_ring_buffer_size rb))
                   bs.
Proof.
  intros H. destruct (overwrite rb) eqn:Hov.
  - apply push_list_overwrite; assumption.
  - apply push_list_no_overwrite; assumption.
Qed.

(** X7.  A run of pushes composes as the policy says.  Without overwrite
    the buffer keeps what it held and takes the new bytes in order until it
    is full, dropping the rest.  With overwrite it ends up with the newest
    capacity - 1 bytes of what it held followed by the new bytes. *)
Theorem push_list_follows_policy (rb : osusat_ring_buffer_t) (bs : list Z) :
  wf rb ->
  wf (push_list rb bs) /\
  (overwrite rb = false ->
   contents (push_list rb bs)
   = contents rb
     ++ firstn (Z.to_nat (capacity rb - 1
                          - Z.of_nat (length (contents rb)))) bs) /\
  (overwrite rb = true ->
   contents (push_list rb bs)
   = Arr.keep_last (Z.to_nat (capacity rb - 1)) (contents rb ++ bs)) /\
  (Z.of_nat (length (contents rb)) + Z.of_nat (length bs) <= capacity rb - 1 ->
   contents (push_list rb bs) = contents rb ++ bs).
Proof.
  intros H. pose proof (push_list_stored rb bs H) as Hs.
  pose proof (contents_length rb H) as Hl.
  split; [apply wf_push_list, H|]. split; [|split].
  - intros Hov. rewrite Hs, Hov, Hl. reflexivity.
  - intros Hov. rewrite Hs, Hov. reflexivity.
  - intros Hfit. rewrite Hs. destruct (overwrite rb).
    + apply ArrFacts.keep_last_all. rewrite length_app. lia.
    + f_equal. apply firstn_all2. lia.
Qed.

Lemma push_list_follows_policy_witness :
  contents (push_list (fresh 4 false) [1; 2; 3; 4; 5]) = [1; 2; 3] /\
  contents (push_list (fresh 4 true) [1; 2; 3; 4; 5]) = [3; 4; 5].
Proof.
  split.
  - destruct (push_list_follows_policy (fresh 4 false) [1; 2; 3; 4; 5]
                (wf_fresh 4 false ltac:(lia))) as (_ & Hno & _).
    rewrite (Hno eq_refl). reflexivity.
  - destruct (push_list_follows_policy (fresh 4 true) [1; 2; 3; 4; 5]
                (wf_fresh 4 true ltac:(lia))) as (_ & _ & Hov & _).
    rewrite (Hov eq_refl). reflexivity.
Defined.

End RingBufferProps.

(** ** ring_buffer_pow2.c: the operations as a user sees them *)

Module RingBufferPow2Props.
Import RingBufferPow2.

Lemma land_mask (k x : Z) : 0 <= k -> Z.land x (2 ^ k - 1) = x mod 2 ^ k.
Proof.
  intros Hk. replace (2 ^ k - 1) with (Z.ones k)
    by (rewrite Z.ones_equiv; lia).
  apply Z.land_ones, Hk.
Qed.

Lemma wrap_is_modulo (rb : osusat_ring_buffer_pow2_t) (x : Z) :
  wf rb -> Z.land x (mask rb) = x mod capacity rb.
Proof.
  intros ((k & Hk & Hc) & Hm & _). rewrite Hm, Hc. apply land_mask, Hk.
Qed.

Lemma wf_generic (rb : osusat_ring_buffer_pow2_t) :
  wf rb -> RingBuffer.wf (to_generic rb).
Proof.
  intros ((k & Hk & Hc) & _ & Hl & Hh & Ht).
  unfold RingBuffer.wf, to_generic. cbn.
  pose proof (Z.pow_pos_nonneg 2 k). lia.
Qed.

Lemma push_refines (rb : osusat_ring_buffer_pow2_t) (b : Z) :
  wf rb ->
  RingBuffer.osusat_ring_buffer_push (to_generic rb) b
  = (fst (osusat_ring_buffer_pow2_push rb b),
     to_generic (snd (osusat_ring_buffer_pow2_push rb b))) /\
  wf (snd (osusat_ring_buffer_pow2_push rb b)).
Proof.
  intros H. pose proof H as (Hp & Hm & Hl & Hh & Ht).
  unfold osusat_ring_buffer_pow2_push,
    RingBuffer.osusat_ring_buffer_push.
  rewrite (wrap_is_modulo rb _ H). cbn [to_generic RingBuffer.head
    RingBuffer.tail RingBuffer.capacity RingBuffer.overwrite
    RingBuffer.buffer negb].
  rewrite andb_true_r.
  destruct ((head rb + 1) mod capacity rb =? tail rb) eqn:E; cbn [fst snd].
  - split; [reflexivity|exact H].
  - split; [reflexivity|]. unfold wf. cbn [buffer capacity mask head tail].
    rewrite ArrFacts.length_set. split; [exact Hp|]. split; [exact Hm|].
    split; [exact Hl|]. split; [|exact Ht].
    apply Z.mod_pos_bound. lia.
Qed.

Lemma pop_refines (rb : osusat_ring_buffer_pow2_t) :
  wf rb ->
  match osusat_ring_buffer_pow2_pop rb with
  | None => RingBuffer.osusat_ring_buffer_pop (to_generic rb) = None
  | Some (x, rb') =>
      RingBuffer.osusat_ring_buffer_pop (to_generic rb)
      = Some (x, to_generic rb') /\ wf rb'
  end.
Proof.
  intros H. pose proof H as (Hp & Hm & Hl & Hh & Ht).
  unfold osusat_ring_buffer_pow2_pop, RingBuffer.osusat_ring_buffer_pop.
  rewrite (wrap_is_modulo rb _ H). cbn [to_generic RingBuffer.head
    RingBuffer.tail RingBuffer.capacity RingBuffer.buffer].
  rewrite (Z.eqb_sym (tail rb) (head rb)).
  destruct (head rb =? tail rb); [reflexivity|].
  split; [reflexivity|]. unfold wf. cbn [buffer capacity mask head tail].
  split; [exact Hp|]. split; [exact Hm|]. split; [exact Hl|].
  split; [exact Hh|]. apply Z.mod_pos_bound. lia.
Qed.

Lemma pow2_wf_init (storage : list Z) (cap : Z) (rb : osusat_ring_buffer_pow2_t) :
  0 <= cap -> Z.of_nat (length storage) = cap ->
  fst (osusat_ring_buffer_pow2_init rb storage cap) = true ->
  wf (snd (osusat_ring_buffer_pow2_init rb storage cap)).
Proof.
  intros Hc Hl Hok.
  pose proof (RingBufferPow2Facts.is_pow2_spec cap Hc) as Hspec.
  unfold osusat_ring_buffer_pow2_init in *.
  destruct (osusat_is_pow2 cap); cbn [negb fst snd] in *; [|discriminate].
  destruct Hspec as [Hk _]. destruct (Hk eq_refl) as (k & Hk0 & Hk1).
  unfold wf. cbn [buffer capacity mask head tail].
  split; [exists k; auto|]. pose proof (Z.pow_pos_nonneg 2 k). lia.
Qed.

Lemma pow2_wf_fresh (k : Z) : 0 <= k -> wf (fresh (2 ^ k)).
Proof.
  intros Hk. pose proof (Z.pow_pos_nonneg 2 k) as Hpos.
  assert (Hok : fst (osusat_ring_buffer_pow2_init blank
                       (repeat 0 (Z.to_nat (2 ^ k))) (2 ^ k)) = true).
  { unfold osusat_ring_buffer_pow2_init.
    assert (E : osusat_is_pow2 (2 ^ k) = true)
      by (apply RingBufferPow2Facts.is_pow2_spec; [lia|exists k; auto]).
    rewrite E. reflexivity. }
  apply pow2_wf_init; [lia | rewrite repeat_length; lia | exact Hok].
Qed.

Lemma pow2_wf_push_list (bs : list Z) :
  forall rb : osusat_ring_buffer_pow2_t, wf rb -> wf (push_list rb bs).
Proof.
  unfold push_list. induction bs as [|b bs IH]; intros rb H; cbn [fold_left].
  - exact H.
  - apply IH, (push_refines rb b H).
Qed.

(** X8.  After a successful [init] the bitmask wrap is the wrap modulo the
    capacity: for every index value [x], [x & mask] is [x mod capacity]. *)
Theorem mask_wrap_is_modulo (rb : osusat_ring_buffer_pow2_t)
    (storage : list Z) (cap x : Z) :
  0 <= cap ->
  fst (osusat_ring_buffer_pow2_init rb storage cap) = true ->
  Z.land x (mask (snd (osusat_ring_buffer_pow2_init rb storage cap)))
  = x mod capacity (snd (osusat_ring_buffer_pow2_init rb storage cap)).
Proof.
  intros Hc Hok.
  pose proof (RingBufferPow2Facts.is_pow2_spec cap Hc) as Hspec.
  unfold osusat_ring_buffer_pow2_init in *.
  destruct (osusat_is_pow2 cap); cbn [negb fst snd] in *; [|discriminate].
  destruct Hspec as [Hk _]. destruct (Hk eq_refl) as (k & Hk0 & ->).
  cbn [mask capacity]. apply land_mask, Hk0.
Qed.

Lemma mask_wrap_is_modulo_witness :
  Z.land 21 (mask (fresh 16)) = 21 mod capacity (fresh 16).
Proof.
  apply (mask_wrap_is_modulo blank (repeat 0 (Z.to_nat 16)) 16 21).
  - lia.
  - reflexivity.
Defined.

(** X9.  On an initialized handle the power-of-two buffer does, step for
    step, what the modulo-indexed buffer does with overwrite disabled:
    [empty], [full] and [peek] answer the same, [push] and [pop] return the
    same and lead to the same state, and the handle stays initialized. *)
Theorem pow2_refines_generic (rb : osusat_ring_buffer_pow2_t) (b : Z) :
  wf rb ->
  osusat_ring_buffer_pow2_empty rb
  = RingBuffer.osusat_ring_buffer_empty (to_generic rb) /\
  osusat_ring_buffer_pow2_full rb
  = RingBuffer.osusat_ring_buffer_full (to_generic rb) /\
  osusat_ring_buffer_pow2_peek rb
  = RingBuffer.osusat_ring_buffer_peek (to_generic rb) /\
  RingBuffer.osusat_ring_buffer_push (to_generic rb) b
  = (fst (osusat_ring_buffer_pow2_push rb b),
     to_generic (snd (osusat_ring_buffer_pow2_push rb b))) /\
  wf (snd (osusat_ring_buffer_pow2_push rb b)) /\
  match osusat_ring_buffer_pow2_pop rb with
  | None => RingBuffer.osusat_ring_buffer_pop (to_generic rb) = None
  | Some (x, rb') =>
      RingBuffer.osusat_ring_buffer_pop (to_generic rb)
      = Some (x, to_generic rb') /\ wf rb'
  end.
Proof.
  intros H. split; [reflexivity|]. split.
  { unfold osusat_ring_buffer_pow2_full, RingBuffer.osusat_ring_buffer_full.
    rewrite (wrap_is_modulo rb _ H). reflexivity. }
  split.
  { unfold osusat_ring_buffer_pow2_peek, RingBuffer.osusat_ring_buffer_peek.
    cbn [to_generic RingBuffer.head RingBuffer.tail RingBuffer.buffer].
    rewrite (Z.eqb_sym (tail rb) (head rb)). reflexivity. }
  split; [apply (push_refines rb b H)|].
  split; [apply (push_refines rb b H)|]. exact (pop_refines rb H).
Qed.

Lemma pow2_refines_generic_witness :
  RingBuffer.osusat_ring_buffer_push
    (to_generic (push_list (fresh 4) [1; 2; 3])) 4
  = (false, to_generic (push_list (fresh 4) [1; 2; 3])) /\
  osusat_ring_buffer_pow2_full (push_list (fresh 4) [1; 2; 3])
  = RingBuffer.osusat_ring_buffer_full
      (to_generic (push_list (fresh 4) [1; 2; 3])).
Proof.
  destruct (pow2_refines_generic (push_list (fresh 4) [1; 2; 3]) 4)
    as (_ & Hfull & _ & Hpush & _).
  - apply pow2_wf_push_list. apply (pow2_wf_fresh 2). lia.
  - split; [exact Hpush|exact Hfull].
Defined.

(** X10.  The power-of-two buffer is a FIFO of at most capacity - 1 bytes.
    [push] refuses a byte exactly when the buffer is full, and then changes
    nothing; otherwise the byte becomes the newest one.  [pop] fails exactly
    when the buffer is empty; otherwise it hands out the oldest byte and
    leaves the rest in order. *)
Theorem pow2_is_fifo (rb : osusat_ring_buffer_pow2_t) (b : Z) :
  wf rb ->
  Z.of_nat (length (contents rb)) <= capacity rb - 1 /\
  (osusat_ring_buffer_pow2_full rb = true
   <-> Z.of_nat (length (contents rb)) = capacity rb - 1) /\
  (osusat_ring_buffer_pow2_full rb = true ->
   osusat_ring_buffer_pow2_push rb b = (false, rb)) /\
  (osusat_ring_buffer_pow2_full rb = false ->
   exists rb',
     osusat_ring_buffer_pow2_push rb b = (true, rb') /\ wf rb' /\
     contents rb' = contents rb ++ [b]) /\
  match contents rb with
  | [] => osusat_ring_buffer_pow2_pop rb = None /\
          osusat_ring_buffer_pow2_empty rb = true
  | x :: xs =>
      exists rb',
        osusat_ring_buffer_pow2_pop rb = Some (x, rb') /\ wf rb' /\
        contents rb' = xs
  end.
Proof.
  intros H. pose proof (wf_generic rb H) as Hg.
  pose proof (RingBufferFacts.size_range _ Hg) as Hr.
  pose proof (RingBufferFacts.contents_length _ Hg) as Hl.
  assert (Hfull : osusat_ring_buffer_pow2_full rb
                  = RingBuffer.osusat_ring_buffer_full (to_generic rb)).
  { unfold osusat_ring_buffer_pow2_full, RingBuffer.osusat_ring_buffer_full.
    rewrite (wrap_is_modulo rb _ H). reflexivity. }
  pose proof (RingBufferProps.full_iff_size _ Hg) as Hiff.
  cbn [to_generic RingBuffer.capacity] in Hr, Hiff.
  unfold contents. split; [lia|]. split; [rewrite Hfull, Hiff; lia|].
  destruct (push_refines rb b H) as [Hpush Hwf'].
  split; [|split].
  - intros Hf. unfold osusat_ring_buffer_pow2_push.
    unfold osusat_ring_buffer_pow2_full in Hf. rewrite Hf. reflexivity.
  - intros Hnf.
    destruct (RingBufferFacts.push_room (to_generic rb) b Hg)
      as (g' & Hp & _ & _ & _ & Hk).
    { destruct (Z.eq_dec (RingBuffer.osusat_ring_buffer_size (to_generic rb))
                  (RingBuffer.capacity (to_generic rb) - 1)) as [E | E];
        [|cbn [to_generic RingBuffer.capacity] in *; lia].
      cbn [to_generic RingBuffer.capacity] in E.
      apply Hiff in E. congruence. }
    rewrite Hp in Hpush. injection Hpush as Hok Hg'.
    exists (snd (osusat_ring_buffer_pow2_push rb b)).
    split; [|split; [exact Hwf'|]].
    + destruct (osusat_ring_buffer_pow2_push rb b) as [ok rb'].
      cbn [fst snd] in *. now rewrite <- Hok.
    + rewrite <- Hg'. exact Hk.
  - pose proof (pop_refines rb H) as Hpop.
    destruct (RingBufferFacts.pop_spec (to_generic rb) Hg)
      as [(Hp & Hnil & Hz) | (x & g' & Hp & _ & _ & _ & Hk)].
    + rewrite Hnil.
      destruct (osusat_ring_buffer_pow2_pop rb) as [[x rb']|].
      * destruct Hpop as [Hpop _]. congruence.
      * split; [reflexivity|].
        change (osusat_ring_buffer_pow2_empty rb)
          with (RingBuffer.osusat_ring_buffer_empty (to_generic rb)).
        rewrite (RingBufferFacts.empty_size _ Hg), Hz. reflexivity.
    + rewrite Hk.
      destruct (osusat_ring_buffer_pow2_pop rb) as [[y rb']|];
        [|congruence].
      destruct Hpop as [Hpop Hwfp]. rewrite Hp in Hpop.
      injection Hpop as <- ->. exists rb'. auto.
Qed.

Lemma pow2_is_fifo_witness :
  osusat_ring_buffer_pow2_push (push_list (fresh 4) [1; 2; 3]) 4
  = (false, push_list (fresh 4) [1; 2; 3]) /\
  exists rb',
    osusat_ring_buffer_pow2_pop (push_list (fresh 4) [1; 2; 3])
    = Some (1, rb') /\
    contents rb' = [2; 3].
Proof.
  pose proof (pow2_is_fifo (push_list (fresh 4) [1; 2; 3]) 4
                (pow2_wf_push_list [1; 2; 3] _ (pow2_wf_fresh 2 ltac:(lia)))) as H.
  destruct H as (_ & _ & Hfull & _ & Hpop).
  change (contents (push_list (fresh 4) [1; 2; 3])) with [1; 2; 3] in Hpop.
  destruct Hpop as (rb' & Hp & _ & Hk).
  split; [apply Hfull; reflexivity|]. exists rb'. auto.
Defined.

Lemma to_generic_push_list (bs : list Z) :
  forall rb : osusat_ring_buffer_pow2_t,
    wf rb ->
    to_generic (push_list rb bs) = RingBuffer.push_list (to_generic rb) bs.
Proof.
  unfold push_list, RingBuffer.push_list.
  induction bs as [|b bs IH]; intros rb H; cbn [fold_left]; [reflexivity|].
  destruct (push_refines rb b H) as [Hp Hwf']. rewrite Hp. cbn [snd].
  apply IH, Hwf'.
Qed.

(** X11.  A run of pushes into the power-of-two buffer stores the bytes in
    order until the buffer is full and drops the rest: the buffer then holds
    what it held, followed by as many of the new bytes as there was room
    for. *)
Theorem pow2_push_list_keeps_first (rb : osusat_ring_buffer_pow2_t)
    (bs : list Z) :
  wf rb ->
  wf (push_list rb bs) /\
  contents (push_list rb bs)
  = contents rb
    ++ firstn (Z.to_nat (capacity rb - 1
                         - Z.of_nat (length (contents rb)))) bs.
Proof.
  intros H. split; [apply pow2_wf_push_list, H|].
  pose proof (wf_generic rb H) as Hg. unfold contents.
  rewrite (to_generic_push_list bs rb H).
  rewrite (RingBufferProps.push_list_stored (to_generic rb) bs Hg).
  cbn [to_generic RingBuffer.overwrite RingBuffer.capacity].
  rewrite (RingBufferFacts.contents_length _ Hg). reflexivity.
Qed.

Lemma pow2_push_list_keeps_first_witness :
  contents (push_list (fresh 4) [17; 34; 51; 68; 85]) = [17; 34; 51].
Proof.
  destruct (pow2_push_list_keeps_first (fresh 4) [17; 34; 51; 68; 85]
              (pow2_wf_fresh 2 ltac:(lia))) as [_ H].
  rewrite H. reflexivity.
Defined.

End RingBufferPow2Props.

(** ** event_bus.c: identifiers, lifecycle and dispatch *)

Module EventBusProps.
Import EventBus EventBusFacts.

Lemma lor_disjoint (h b : Z) :
  0 <= b < 65536 -> Z.lor (h * 65536) b = h * 65536 + b.
Proof.
  intros Hb.
  assert (Hland : Z.land (h * 65536) b = 0).
  { apply Z.bits_inj'. intros n Hn. rewrite Z.land_spec, Z.bits_0.
    destruct (Z_lt_ge_dec n 16) as [Hlo | Hhi].
    - change 65536 with (2 ^ 16). rewrite Z.mul_pow2_bits_low by lia.
      reflexivity.
    - replace b with (b mod 2 ^ 16) by (apply Z.mod_small; exact Hb).
      rewrite Z.mod_pow2_bits_high by lia. apply andb_false_r. }
  rewrite <- Z.lxor_lor by exact Hland. symmetry.
  apply Z.add_nocarry_lxor, Hland.
Qed.

(** The id is the low 16 bits of the service in the high half and the low
    16 bits of the code in the low half. *)
Lemma build_value (svc_uid code : Z) :
  OSUSAT_BUILD_EVENT_ID svc_uid code
  = (svc_uid mod 65536) * 65536 + code mod 65536.
Proof.
  unfold OSUSAT_BUILD_EVENT_ID, uint32.
  rewrite Z.shiftl_mul_pow2 by lia. change (2 ^ 16) with 65536.
  change 65535 with (Z.ones 16). rewrite Z.land_ones by lia.
  change (2 ^ 16) with 65536.
  replace ((svc_uid mod 4294967296 * 65536) mod 4294967296)
    with ((svc_uid mod 65536) * 65536)
    by (Z.div_mod_to_equations; lia).
  replace ((code mod 4294967296) mod 65536) with (code mod 65536)
    by (Z.div_mod_to_equations; lia).
  apply lor_disjoint. apply Z.mod_pos_bound. lia.
Qed.

(** X12.  Decomposing a built id gives back the service id and the local
    code, each reduced to its low 16 bits; so for 16-bit arguments the two
    accessors invert the constructor, distinct pairs get distinct ids, and
    the id always fits 32 bits. *)
Theorem event_id_decomposes (svc_uid code : Z) :
  OSUSAT_GET_SERVICE_UID (OSUSAT_BUILD_EVENT_ID svc_uid code)
  = svc_uid mod 65536 /\
  OSUSAT_GET_LOCAL_CODE (OSUSAT_BUILD_EVENT_ID svc_uid code)
  = code mod 65536 /\
  0 <= OSUSAT_BUILD_EVENT_ID svc_uid code < 4294967296 /\
  (0 <= svc_uid < 65536 ->
   OSUSAT_GET_SERVICE_UID (OSUSAT_BUILD_EVENT_ID svc_uid code) = svc_uid) /\
  (0 <= code < 65536 ->
   OSUSAT_GET_LOCAL_CODE (OSUSAT_BUILD_EVENT_ID svc_uid code) = code) /\
  (forall svc_uid' code',
     0 <= svc_uid < 65536 -> 0 <= code < 65536 ->
     0 <= svc_uid' < 65536 -> 0 <= code' < 65536 ->
     OSUSAT_BUILD_EVENT_ID svc_uid code
     = OSUSAT_BUILD_EVENT_ID svc_uid' code' ->
     svc_uid = svc_uid' /\ code = code').
Proof.
  assert (Hs : OSUSAT_GET_SERVICE_UID (OSUSAT_BUILD_EVENT_ID svc_uid code)
               = svc_uid mod 65536).
  { rewrite build_value. unfold OSUSAT_GET_SERVICE_UID, uint16.
    rewrite Z.shiftr_div_pow2 by lia. change (2 ^ 16) with 65536.
    Z.div_mod_to_equations. lia. }
  assert (Hc : OSUSAT_GET_LOCAL_CODE (OSUSAT_BUILD_EVENT_ID svc_uid code)
               = code mod 65536).
  { rewrite build_value. unfold OSUSAT_GET_LOCAL_CODE, uint16.
    change 65535 with (Z.ones 16). rewrite Z.land_ones by lia.
    change (2 ^ 16) with 65536. Z.div_mod_to_equations. lia. }
  split; [exact Hs|]. split; [exact Hc|]. split.
  { rewrite build_value. Z.div_mod_to_equations. lia. }
  split; [intros H; rewrite Hs; apply Z.mod_small, H|].
  split; [intros H; rewrite Hc; apply Z.mod_small, H|].
  intros s' c' H1 H2 H3 H4 E. rewrite !build_value in E.
  rewrite !Z.mod_small in E by assumption. lia.
Qed.

(** X13.  Building an id from the two halves of a 32-bit id gives the id
    back. *)
Theorem event_id_rebuilds (event_id : Z) :
  0 <= event_id < 4294967296 ->
  OSUSAT_BUILD_EVENT_ID (OSUSAT_GET_SERVICE_UID event_id)
    (OSUSAT_GET_LOCAL_CODE event_id) = event_id.
Proof.
  intros H. rewrite build_value.
  unfold OSUSAT_GET_SERVICE_UID, OSUSAT_GET_LOCAL_CODE, uint16.
  rewrite Z.shiftr_div_pow2 by lia. change (2 ^ 16) with 65536.
  change 65535 with (Z.ones 16). rewrite Z.land_ones by lia.
  change (2 ^ 16) with 65536. Z.div_mod_to_equations. lia.
Qed.

Lemma event_id_rebuilds_witness :
  OSUSAT_BUILD_EVENT_ID (OSUSAT_GET_SERVICE_UID EVENT_A)
    (OSUSAT_GET_LOCAL_CODE EVENT_A) = EVENT_A.
Proof.
  apply (event_id_rebuilds EVENT_A). vm_compute.
  split; [discriminate|reflexivity].
Defined.

Lemma wf_drained (bus : bus_t) : wf bus -> wf (drained bus).
Proof.
  intros (H1 & H2 & H3 & H4). unfold wf, drained.
  cbn [subs sub_count queue capacity head tail].
  split; [exact H1|]. split; [exact H2|]. split; [exact H3|].
  destruct (queue bus); [|lia]. lia.
Qed.

Lemma pending_length (bus : bus_t) :
  wf bus -> queue bus <> None ->
  Z.of_nat (length (pending bus)) = pending_count bus.
Proof.
  intros Hwf Hq. destruct (queue bus) as [q|] eqn:Hqq; [|contradiction].
  destruct (wf_queue bus q Hwf Hqq) as (Hc & _).
  pose proof (pending_count_range bus Hc).
  unfold pending. rewrite Hqq, length_map, length_seq. lia.
Qed.

(** Whatever the fuel, [process] leaves an initialized bus initialized. *)
Lemma process_loop_wf (fuel : nat) :
  forall (q : list osusat_event_t) (bus : bus_t) (calls : list call_t),
    wf bus -> queue bus = Some q ->
    match process_loop fuel q bus calls with
    | Done r => wf (fst r)
    | _ => True
    end.
Proof.
  induction fuel as [|fuel IH]; intros q bus calls Hwf Hq;
    cbn [process_loop];
    destruct (Z.eqb_spec (tail bus) (head bus)) as [E | E]; cbn [negb];
    try exact Hwf; try exact I.
  rewrite (scan_registered bus _ calls Hwf). cbn [bind].
  destruct (pending_before_process bus q Hwf Hq E) as (Hwf' & _).
  apply (IH q (dequeued bus) _ Hwf' Hq).
Qed.

Lemma wf_step (bus : bus_t) (o : op) :
  wf bus ->
  match o with
  | OpInit (Some storage) cap =>
      0 < cap -> Z.of_nat (length storage) = cap
  | _ => True
  end ->
  wf (step bus o).
Proof.
  intros Hwf Hok. destruct o as [storage cap | e h c | e d l | fuel];
    cbn [step].
  - destruct storage as [storage|].
    + destruct (Z.ltb_spec 0 cap) as [Hpos | Hnpos].
      * apply wf_init; [exact Hpos|apply Hok, Hpos].
      * unfold wf, osusat_event_bus_init.
        destruct (Z.ltb_spec 0 cap); [lia|].
        cbn [subs sub_count queue capacity head tail].
        rewrite repeat_length. unfold OSUSAT_EVENT_MAX_SUBSCRIBERS.
        repeat split; lia.
    + unfold wf, osusat_event_bus_init.
      cbn [subs sub_count queue capacity head tail].
      rewrite repeat_length. unfold OSUSAT_EVENT_MAX_SUBSCRIBERS.
      repeat split; lia.
  - apply wf_subscribe, Hwf.
  - apply wf_publish, Hwf.
  - unfold osusat_event_bus_process.
    destruct (queue bus) as [q|] eqn:Hq; [|exact Hwf].
    pose proof (process_loop_wf fuel q bus [] Hwf Hq) as Hp.
    destruct (process_loop fuel q bus []) as [[bus' calls]| |];
      [exact Hp|exact Hwf|exact Hwf].
Qed.

Lemma wf_run (ops : list op) :
  forall bus : bus_t, wf bus -> sized_init ops -> wf (run bus ops).
Proof.
  unfold run, sized_init.
  induction ops as [|o ops IH]; intros bus Hwf Hok; cbn [fold_left].
  - exact Hwf.
  - inversion Hok as [|? ? Ho Hops]; subst.
    apply IH; [|exact Hops]. apply wf_step; [exact Hwf|].
    destruct o as [[storage|] cap | | |]; try exact I. exact Ho.
Qed.

(** X14.  Whatever the API calls (every [init] being given the true size of
    its storage), the bus stays well formed: the indices stay inside the
    storage, every registered handler is non-null, at most 128
    subscriptions are registered, and the queue never holds more than
    capacity - 1 events. *)
Theorem bus_stays_well_formed (bus : bus_t) (ops : list op) :
  wf bus -> sized_init ops ->
  wf (run bus ops) /\
  0 <= sub_count (run bus ops) <= OSUSAT_EVENT_MAX_SUBSCRIBERS /\
  Forall (fun s => handler s <> None) (subscriptions (run bus ops)) /\
  (queue (run bus ops) <> None ->
   Z.of_nat (length (pending (run bus ops)))
   <= capacity (run bus ops) - 1).
Proof.
  intros Hwf Hok. pose proof (wf_run ops bus Hwf Hok) as Hr.
  split; [exact Hr|]. pose proof Hr as (Hl & Hc & Hh & _).
  split; [exact Hc|]. split.
  - apply Forall_forall. intros s Hin. unfold subscriptions in Hin.
    apply (In_nth _ _ zero_entry) in Hin. destruct Hin as (n & Hn & <-).
    rewrite length_firstn in Hn. rewrite nth_firstn.
    destruct (Nat.ltb_spec n (Z.to_nat (sub_count (run bus ops)))); [|lia].
    specialize (Hh (Z.of_nat n) ltac:(lia)). unfold Arr.get in Hh.
    now rewrite Nat2Z.id in Hh.
  - intros Hq. rewrite (pending_length _ Hr Hq).
    destruct (queue (run bus ops)) as [q|] eqn:Hqq; [|contradiction].
    destruct (wf_queue _ q Hr Hqq) as (Hcap & _).
    pose proof (pending_count_range _ Hcap). lia.
Qed.

Lemma bus_stays_well_formed_witness :
  wf full_bus /\
  Z.of_nat (length (pending full_bus)) <= capacity full_bus - 1.
Proof.
  destruct (bus_stays_well_formed test_bus (publish_ops test_publications)
              wf_test_bus) as (Hwf & _ & _ & Hbound).
  - unfold sized_init, publish_ops, test_publications. cbn [map].
    repeat constructor.
  - split; [exact Hwf|]. apply Hbound. discriminate.
Defined.

Lemma run_unbound (ops : list op) :
  forall bus : bus_t,
    queue bus = None -> no_init ops -> queue (run bus ops) = None.
Proof.
  unfold run, no_init.
  induction ops as [|o ops IH]; intros bus Hq Hok; cbn [fold_left].
  - exact Hq.
  - inversion Hok as [|? ? Ho Hops]; subst. apply IH; [|exact Hops].
    destruct o as [storage cap | e h c | e d l | fuel]; cbn [step].
    + contradiction.
    + unfold osusat_event_bus_subscribe.
      destruct (sub_count bus >=? OSUSAT_EVENT_MAX_SUBSCRIBERS); [exact Hq|].
      destruct h; exact Hq.
    + unfold osusat_event_bus_publish. rewrite Hq. exact Hq.
    + unfold osusat_event_bus_process. rewrite Hq. exact Hq.
Qed.

(** X15.  A bus initialized with NULL storage or with capacity 0 is inert:
    whatever is subscribed, published or processed afterwards, the queue
    stays unbound, every publish is refused and changes nothing, and
    [process] returns at once without calling a handler. *)
Theorem unbound_bus_is_inert (storage : option (list osusat_event_t))
    (cap : Z) (ops : list op) (e : Z) (d : option (list Z)) (l : Z)
    (fuel : nat) :
  storage = None \/ cap <= 0 -> no_init ops ->
  queue (run (osusat_event_bus_init storage cap) ops) = None /\
  pending (run (osusat_event_bus_init storage cap) ops) = [] /\
  osusat_event_bus_publish (run (osusat_event_bus_init storage cap) ops)
    e d l
  = (false, run (osusat_event_bus_init storage cap) ops) /\
  osusat_event_bus_process fuel
    (run (osusat_event_bus_init storage cap) ops)
  = Done (run (osusat_event_bus_init storage cap) ops, []).
Proof.
  intros Hun Hok.
  assert (Hq0 : queue (osusat_event_bus_init storage cap) = None).
  { unfold osusat_event_bus_init. cbn [queue].
    destruct Hun as [-> | Hcap]; [reflexivity|].
    destruct storage; [|reflexivity].
    destruct (Z.ltb_spec 0 cap); [lia|reflexivity]. }
  pose proof (run_unbound ops _ Hq0 Hok) as Hq.
  split; [exact Hq|]. unfold pending, osusat_event_bus_publish,
    osusat_event_bus_process. rewrite Hq. repeat split.
Qed.

Lemma unbound_bus_is_inert_witness :
  osusat_event_bus_publish
    (run (osusat_event_bus_init None 4)
         [OpSubscribe EVENT_A (Some 1%nat) 100]) EVENT_A None 0
  = (false, run (osusat_event_bus_init None 4)
              [OpSubscribe EVENT_A (Some 1%nat) 100]).
Proof.
  apply (unbound_bus_is_inert None 4 [OpSubscribe EVENT_A (Some 1%nat) 100]
           EVENT_A None 0 0%nat).
  - left. reflexivity.
  - repeat constructor.
Defined.

(** X16.  [process] drains once and for all: when it returns nothing is
    waiting, and a second call right after it calls no handler and changes
    nothing.  With nothing waiting the first call already does nothing. *)
Theorem process_is_idempotent (bus : bus_t) (fuel : nat) :
  wf bus -> queue bus <> None ->
  (Z.to_nat (capacity bus) <= fuel)%nat ->
  exists bus1 calls,
    osusat_event_bus_process fuel bus = Done (bus1, calls) /\
    pending bus1 = [] /\
    subscriptions bus1 = subscriptions bus /\
    osusat_event_bus_process fuel bus1 = Done (bus1, []) /\
    (pending bus = [] -> bus1 = bus /\ calls = []).
Proof.
  intros Hwf Hq Hfuel. destruct (queue bus) as [q|] eqn:Hqq; [|contradiction].
  destruct (wf_queue bus q Hwf Hqq) as (Hc & _ & Hh & Ht).
  pose proof (pending_count_range bus Hc) as Hr.
  exists (drained bus),
         (flat_map (deliveries (subscriptions bus)) (pending bus)).
  assert (Hempty : pending (drained bus) = [])
    by (apply pending_empty; [exact Hc|reflexivity]).
  split; [|split; [exact Hempty|split; [reflexivity|split]]].
  - unfold osusat_event_bus_process. rewrite Hqq.
    rewrite (process_loop_spec fuel bus q [] Hwf Hqq) by lia. reflexivity.
  - unfold osusat_event_bus_process. cbn [drained queue]. rewrite Hqq.
    rewrite (process_loop_spec fuel (drained bus) q [] (wf_drained bus Hwf))
      by (cbn [drained queue];
          first [exact Hqq
                | pose proof (pending_count_range (drained bus) Hc);
                  unfold pending_count in *; cbn [drained head tail capacity] in *;
                  rewrite Z.sub_diag, Z.mod_0_l in * by lia; lia]).
    rewrite Hempty. reflexivity.
  - intros Hnil. rewrite Hnil. split; [|reflexivity].
    assert (Hz : pending_count bus = 0).
    { rewrite <- (pending_length bus Hwf) by congruence.
      now rewrite Hnil. }
    rewrite (pending_count_cases bus Hc Hh Ht) in Hz.
    assert (E : tail bus = head bus)
      by (destruct (Z.geb_spec (head bus) (tail bus)); lia).
    unfold drained. clear - E.
    destruct bus as [s c qq cap h t]. cbn [head tail] in E. subst t.
    reflexivity.
Qed.

Lemma process_is_idempotent_witness :
  exists bus1 calls,
    osusat_event_bus_process 4 full_bus = Done (bus1, calls) /\
    pending bus1 = [] /\
    osusat_event_bus_process 4 bus1 = Done (bus1, []).
Proof.
  destruct (process_is_idempotent full_bus 4%nat wf_full_bus)
    as (bus1 & calls & Hp & Hn & _ & Hagain & _).
  - discriminate.
  - vm_compute. lia.
  - exists bus1, calls. auto.
Defined.

Lemma in_deliveries (table : list subscriber_entry_t) (ev : osusat_event_t)
    (c : call_t) :
  In c (deliveries table ev) ->
  exists s, In s table /\ sub_id s = id ev /\
            handler s = Some (call_handler c) /\ ctx s = call_ctx c /\
            call_event c = ev.
Proof.
  unfold deliveries. intros Hin. apply in_flat_map in Hin.
  destruct Hin as (s & Hs & Hc). exists s. split; [exact Hs|].
  destruct (Z.eqb_spec (sub_id s) (id ev)) as [E | E]; [|contradiction].
  destruct (handler s) as [h|]; [|contradiction].
  destruct Hc as [<- | []]. cbn. auto.
Qed.

(** X17.  [process] calls nothing but registered handlers on waiting events
    of the registered id: every call it makes is the handler of a
    subscription in the table, with that subscription's context, on an
    event that was waiting and carries the subscription's id.  An event no
    subscription asks for is taken off the queue without any call. *)
Theorem process_calls_only_subscribers (bus : bus_t) (fuel : nat) :
  wf bus -> queue bus <> None ->
  (Z.to_nat (capacity bus) <= fuel)%nat ->
  exists bus1 calls,
    osusat_event_bus_process fuel bus = Done (bus1, calls) /\
    pending bus1 = [] /\
    (forall c, In c calls ->
               exists s,
                 In s (subscriptions bus) /\
                 In (call_event c) (pending bus) /\
                 sub_id s = id (call_event c) /\
                 handler s = Some (call_handler c) /\
                 ctx s = call_ctx c) /\
    ((forall s ev, In s (subscriptions bus) -> In ev (pending bus) ->
                   sub_id s <> id ev) ->
     calls = []).
Proof.
  intros Hwf Hq Hfuel. destruct (queue bus) as [q|] eqn:Hqq; [|contradiction].
  destruct (wf_queue bus q Hwf Hqq) as (Hc & _).
  pose proof (pending_count_range bus Hc) as Hr.
  exists (drained bus),
         (flat_map (deliveries (subscriptions bus)) (pending bus)).
  split; [|split; [apply pending_empty; [exact Hc|reflexivity]|split]].
  - unfold osusat_event_bus_process. rewrite Hqq.
    rewrite (process_loop_spec fuel bus q [] Hwf Hqq) by lia. reflexivity.
  - intros c Hin. apply in_flat_map in Hin. destruct Hin as (ev & Hev & Hin).
    destruct (in_deliveries _ _ _ Hin) as (s & Hs & Hid & Hh & Hx & Hce).
    exists s. rewrite Hce. auto.
  - intros Hnone.
    destruct (flat_map (deliveries (subscriptions bus)) (pending bus))
      as [|c rest] eqn:E; [reflexivity|exfalso].
    assert (Hin : In c (flat_map (deliveries (subscriptions bus))
                          (pending bus))) by (rewrite E; left; reflexivity).
    apply in_flat_map in Hin. destruct Hin as (ev & Hev & Hin).
    destruct (in_deliveries _ _ _ Hin) as (s & Hs & Hid & _).
    exact (Hnone s ev Hs Hev Hid).
Qed.

Lemma process_calls_only_subscribers_witness :
  exists bus1 calls,
    osusat_event_bus_process 4 full_bus = Done (bus1, calls) /\
    forall c, In c calls ->
              exists s, In s (subscriptions full_bus) /\
                        sub_id s = id (call_event c) /\
                        handler s = Some (call_handler c).
Proof.
  destruct (process_calls_only_subscribers full_bus 4%nat wf_full_bus)
    as (bus1 & calls & Hp & _ & Hsound & _).
  - discriminate.
  - vm_compute. lia.
  - exists bus1, calls. split; [exact Hp|]. intros c Hc.
    destruct (Hsound c Hc) as (s & Hs & _ & Hid & Hh & _).
    exists s. auto.
Defined.

Lemma publish_all_run (ps : list publication) :
  forall bus bus1 : bus_t,
    publish_all bus ps = Some bus1 -> run bus (publish_ops ps) = bus1.
Proof.
  unfold run, publish_ops.
  induction ps as [|p ps IH]; intros bus bus1 H;
    cbn [publish_all map fold_left step] in *.
  - now injection H.
  - destruct (osusat_event_bus_publish bus (pub_id p) (pub_data p) (pub_len p))
      as [[|] bus'] eqn:E; [|discriminate].
    cbn [snd]. apply IH, H.
Qed.

Lemma run_full (ps : list publication) (bus : bus_t) :
  (head bus + 1) mod capacity bus = tail bus ->
  run bus (publish_ops ps) = bus.
Proof.
  intros Hf. unfold run, publish_ops.
  induction ps as [|p ps IH]; cbn [map fold_left step]; [reflexivity|].
  rewrite (publish_full bus _ _ _ Hf). exact IH.
Qed.

(** X18.  When more events are published than the queue has room for, the
    first ones are queued in order and the later ones are dropped: after the
    batch the queue holds what it held, followed by the events of the first
    [capacity - 1 - pending] publications. *)
Theorem publish_drops_newest (bus : bus_t) (ps : list publication) :
  wf bus -> queue bus <> None -> Forall publication_ok ps ->
  exists evs,
    Forall2 stored_as
      (firstn (Z.to_nat (capacity bus - 1 - pending_count bus)) ps) evs /\
    pending (run bus (publish_ops ps)) = pending bus ++ evs /\
    subscriptions (run bus (publish_ops ps)) = subscriptions bus.
Proof.
  intros Hwf Hq Hok.
  destruct (queue bus) as [q|] eqn:Hqq; [|contradiction].
  destruct (wf_queue bus q Hwf Hqq) as (Hc & _).
  pose proof (pending_count_range bus Hc) as Hr.
  set (room := Z.to_nat (capacity bus - 1 - pending_count bus)).
  assert (Hlen : (length (firstn room ps) <= room)%nat)
    by (rewrite length_firstn; lia).
  destruct (publish_all_room (firstn room ps) bus Hwf)
    as (bus1 & evs & Hall & Hwf1 & Hq1 & Hc1 & Hs1 & Hsc1 & Hpc1 & Hst & Hp1);
    [congruence | apply ArrFacts.Forall_firstn, Hok | unfold room in *; lia |].
  assert (Hrun : run bus (publish_ops ps) = bus1).
  { rewrite <- (firstn_skipn room ps) at 1.
    unfold publish_ops, run. rewrite map_app, fold_left_app.
    fold (publish_ops (firstn room ps)) (publish_ops (skipn room ps)).
    fold (run bus (publish_ops (firstn room ps))).
    rewrite (publish_all_run _ _ _ Hall).
    fold (run bus1 (publish_ops (skipn room ps))).
    destruct (Nat.le_gt_cases (length ps) room) as [Hshort | Hlong].
    - rewrite skipn_all2 by exact Hshort. reflexivity.
    - apply run_full. destruct (queue bus1) as [q1|] eqn:Hqq1;
        [|contradiction].
      apply (not_full_iff bus1 q1 Hwf1 Hqq1).
      rewrite Hpc1, Hc1, length_firstn. unfold room in *. lia. }
  exists evs. rewrite Hrun. split; [exact Hst|]. split; [exact Hp1|].
  unfold subscriptions. now rewrite Hs1, Hsc1.
Qed.

Lemma publish_drops_newest_witness :
  exists evs,
    Forall2 stored_as test_publications evs /\
    pending (run test_bus
               (publish_ops
                  (test_publications
                   ++ [{| pub_id := EVENT_B; pub_data := None;
                          pub_len := 0 |}])))
    = evs.
Proof.
  destruct (publish_drops_newest test_bus
              (test_publications
               ++ [{| pub_id := EVENT_B; pub_data := None; pub_len := 0 |}])
              wf_test_bus) as (evs & Hst & Hp & _).
  - discriminate.
  - unfold test_publications, publication_ok.
    repeat (constructor; [cbn; lia|]). constructor.
  - exists evs. split; [exact Hst|exact Hp].
Defined.

End EventBusProps.

(** ** slog.c: records in the store *)

Module SlogProps.
Import RingBuffer Slog RingBufferFacts SlogFacts.

Lemma bytes_of_entry (bs : list Z) :
  length bs = 10%nat -> Forall (fun c => 0 <= c < 256) bs ->
  entry_bytes (entry_of_bytes bs) = bs /\ entry_in_range (entry_of_bytes bs).
Proof.
  intros Hlen Hb.
  do 10 (destruct bs as [|?b bs]; [discriminate|]).
  destruct bs; [|discriminate]. clear Hlen.
  repeat match goal with
         | H : Forall _ (_ :: _) |- _ => inversion H; clear H; subst
         end.
  unfold entry_of_bytes, entry_bytes, entry_in_range, Arr.get, uint8.
  cbn [timestamp_ms level component_id line message_len].
  change (Z.to_nat 0) with 0%nat. change (Z.to_nat 1) with 1%nat.
  change (Z.to_nat 2) with 2%nat. change (Z.to_nat 3) with 3%nat.
  change (Z.to_nat 4) with 4%nat. change (Z.to_nat 5) with 5%nat.
  change (Z.to_nat 6) with 6%nat. change (Z.to_nat 7) with 7%nat.
  change (Z.to_nat 8) with 8%nat. change (Z.to_nat 9) with 9%nat.
  cbn [nth]. split; [|lia].
  repeat (f_equal; [Z.div_mod_to_equations; lia|]).
  f_equal. Z.div_mod_to_equations. lia.
Qed.

(** X19.  The ten header bytes and the header carry the same information.
    Encoding a header whose fields fit their C types and decoding the bytes
    gives the header back; decoding any ten bytes gives a header whose
    fields fit their types and whose encoding is those ten bytes. *)
Theorem header_bytes_roundtrip (e : osusat_slog_entry_t) (bs : list Z) :
  Z.of_nat (length (entry_bytes e)) = sizeof_entry /\
  Forall (fun c => 0 <= c < 256) (entry_bytes e) /\
  (entry_in_range e -> entry_of_bytes (entry_bytes e) = e) /\
  (Z.of_nat (length bs) = sizeof_entry ->
   Forall (fun c => 0 <= c < 256) bs ->
   entry_bytes (entry_of_bytes bs) = bs /\
   entry_in_range (entry_of_bytes bs)).
Proof.
  split; [reflexivity|]. split; [apply entry_bytes_range|].
  split; [apply entry_roundtrip|].
  intros Hlen Hb. apply bytes_of_entry; [|exact Hb].
  unfold sizeof_entry in Hlen. lia.
Qed.

Lemma header_bytes_roundtrip_witness :
  entry_of_bytes
    (entry_bytes {| timestamp_ms := 1000; level := 1; component_id := 16;
                    line := 90; message_len := 12 |})
  = {| timestamp_ms := 1000; level := 1; component_id := 16;
       line := 90; message_len := 12 |} /\
  entry_bytes (entry_of_bytes [232; 3; 0; 0; 1; 16; 90; 0; 12; 0])
  = [232; 3; 0; 0; 1; 16; 90; 0; 12; 0].
Proof.
  destruct (header_bytes_roundtrip
              {| timestamp_ms := 1000; level := 1; component_id := 16;
                 line := 90; message_len := 12 |}
              [232; 3; 0; 0; 1; 16; 90; 0; 12; 0]) as (_ & _ & He & Hb).
  split.
  - apply He. unfold entry_in_range. cbn. lia.
  - apply Hb; [reflexivity|]. repeat (constructor; [lia|]). constructor.
Defined.

(** One turn of the flush loop on a stored record: the callback sees the
    record, and the loop goes on with the bytes behind it. *)
Lemma flush_one_record (fuel : nat) (rb : osusat_ring_buffer_t)
    (e : osusat_slog_entry_t) (msg rest : list Z) (stack : nat -> list Z)
    (k : nat) (count : Z) (calls : list flush_call) :
  wf rb -> contents rb = record_bytes e msg ++ rest ->
  record_ok (e, msg) -> stack_ok stack ->
  exists rb' m,
    flush_loop (S fuel) rb stack k count calls
    = flush_loop fuel rb' stack (S k) (count + 1)
        (calls ++ [{| flushed_entry := e; flushed_message := m |}]) /\
    wf rb' /\ capacity rb' = capacity rb /\ contents rb' = rest /\
    Arr.cstring m = msg.
Proof.
  intros Hwf Hk (Hrange & Hml & Hchars & Hshort) Hstack.
  cbn [fst snd] in *. unfold MAX_LOG_MESSAGE_LEN in Hshort.
  assert (Hnz : Forall (fun ch => ch <> 0) msg).
  { eapply Forall_impl; [|exact Hchars]. cbv beta. intros; lia. }
  unfold record_bytes in Hk. rewrite <- !app_assoc in Hk. cbn [app] in Hk.
  cbn [flush_loop]. rewrite (empty_size rb Hwf).
  destruct (Z.eqb_spec (osusat_ring_buffer_size rb) 0) as [Hz | _].
  { rewrite <- (contents_length rb Hwf), Hk, length_app in Hz.
    rewrite entry_bytes_length in Hz. unfold sizeof_entry in Hz. lia. }
  change (Z.to_nat sizeof_entry) with (length (entry_bytes e)).
  destruct (pop_bytes_prefix (entry_bytes e) rb (msg ++ 0 :: rest) Hwf Hk)
    as (rb2 & Hp2 & Hwf2 & Hc2 & Hk2).
  rewrite Hp2, (entry_roundtrip e Hrange), Hml.
  destruct (read_message_string msg (Z.to_nat (Z.of_nat (length msg) + 1)) 0
              rb2 (stack k) rest Hwf2 Hk2 Hnz)
    as (rb3 & m & junk & Hr & Hwf3 & Hc3 & Hk3 & Hl3 & Hm);
    [lia | unfold MAX_LOG_MESSAGE_LEN; lia | apply Hstack | lia |].
  rewrite Hr. cbn [bind].
  rewrite ArrFacts.store_done by (unfold MAX_LOG_MESSAGE_LEN in *; lia).
  cbn [bind].
  exists rb3, (Arr.set m (MAX_LOG_MESSAGE_LEN - 1) 0).
  split; [reflexivity|]. split; [exact Hwf3|]. split; [congruence|].
  split; [exact Hk3|].
  unfold Arr.set. rewrite ArrFacts.cstring_upd_nul;
    rewrite Hm; cbn [firstn app Z.to_nat];
    rewrite (ArrFacts.cstring_app_nul _ _ Hnz);
    [reflexivity | unfold MAX_LOG_MESSAGE_LEN; lia].
Qed.

(** A store that holds whole records, one behind the other, is flushed
    record by record, in order, and left empty. *)
Lemma flush_records (records : list (osusat_slog_entry_t * list Z)) :
  forall (fuel : nat) (rb : osusat_ring_buffer_t) (stack : nat -> list Z)
         (k : nat) (count : Z) (calls : list flush_call),
    wf rb ->
    contents rb
    = concat (map (fun r => record_bytes (fst r) (snd r)) records) ->
    Forall record_ok records -> stack_ok stack ->
    (length records <= fuel)%nat ->
    exists r new,
      flush_loop fuel rb stack k count calls = Done r /\
      flush_calls r = calls ++ new /\ seen new = records /\
      flush_count r = count + Z.of_nat (length records) /\
      wf (flush_buffer r) /\ contents (flush_buffer r) = [] /\
      capacity (flush_buffer r) = capacity rb.
Proof.
  induction records as [|[e msg] records IH];
    intros fuel rb stack k count calls Hwf Hk Hok Hstack Hfuel.
  - cbn [map concat] in Hk.
    assert (He : osusat_ring_buffer_empty rb = true).
    { rewrite (empty_size rb Hwf), <- (contents_length rb Hwf), Hk.
      reflexivity. }
    exists {| flush_count := count; flush_calls := calls;
              flush_buffer := rb |}, [].
    split; [destruct fuel; cbn [flush_loop]; rewrite He; reflexivity|].
    cbn [flush_calls flush_count flush_buffer length seen map].
    rewrite app_nil_r. split; [reflexivity|]. split; [reflexivity|].
    split; [lia|]. split; [exact Hwf|]. split; [exact Hk|reflexivity].
  - destruct fuel as [|fuel]; [cbn [length] in Hfuel; lia|].
    inversion Hok as [|? ? Hr Hrs]; subst.
    cbn [map concat fst snd] in Hk.
    destruct (flush_one_record fuel rb e msg _ stack k count calls Hwf Hk Hr
                Hstack) as (rb' & m & Hstep & Hwf' & Hc' & Hk' & Hm).
    destruct (IH fuel rb' stack (S k) (count + 1)
                (calls ++ [{| flushed_entry := e; flushed_message := m |}])
                Hwf' Hk' Hrs Hstack)
      as (r & new & Hrun & Hcalls & Hseen & Hcount & Hwfr & Hkr & Hcr);
      [cbn [length] in Hfuel; lia|].
    exists r, ({| flushed_entry := e; flushed_message := m |} :: new).
    split; [rewrite Hstep; exact Hrun|].
    split; [rewrite Hcalls, <- app_assoc; reflexivity|].
    split; [cbn [seen map flushed_entry flushed_message];
            fold (seen new); rewrite Hseen, Hm; reflexivity|].
    split; [cbn [length]; lia|]. split; [exact Hwfr|].
    split; [exact Hkr|congruence].
Qed.

Lemma not_accepted_is_noop (st : slog_state) (c : log_call) :
  accepted (g_min_level st) c = false ->
  osusat_slog_write_internal st (log_env c) (log_level c) (log_component c)
    (log_line c) (log_formatted c) = st.
Proof.
  unfold accepted, osusat_slog_write_internal. intros H.
  destruct (g_log_buffer st); [|reflexivity].
  destruct (level_value (log_level c) <? level_value (g_min_level st));
    [reflexivity|].
  destruct (log_formatted c); [discriminate|]. reflexivity.
Qed.

Lemma stored_record_ok (st : slog_state) (c : log_call) :
  call_ok st c -> record_ok (stored_entry st c, stored_message c).
Proof.
  intros (Hc & Hl & Hts & Hm). unfold record_ok, stored_entry, stored_message.
  cbn [fst snd]. unfold entry_in_range, build_entry, MAX_LOG_MESSAGE_LEN.
  cbn [timestamp_ms level component_id line message_len].
  rewrite length_firstn, uint16_small by lia.
  split; [|split; [lia|split; [apply ArrFacts.Forall_firstn, Hm|lia]]].
  split.
  { destruct (g_timestamp_fn st) as [f|]; [|lia].
    unfold uint32. apply Z.mod_pos_bound. lia. }
  split; [destruct (log_level c); cbn; lia|]. lia.
Qed.

(** Writes that fit append their records to the store, in write order. *)
Lemma write_all_stores (cs : list log_call) :
  forall (st : slog_state) (rb : osusat_ring_buffer_t),
    g_log_buffer st = Some rb -> wf rb -> Forall (call_ok st) cs ->
    osusat_ring_buffer_size rb + Z.of_nat (length (stored_bytes st cs))
    < capacity rb ->
    exists rb',
      write_all st cs = with_buffer st rb' /\ wf rb' /\
      capacity rb' = capacity rb /\
      contents rb' = contents rb ++ stored_bytes st cs.
Proof.
  induction cs as [|c cs IH]; intros st rb Hb Hwf Hok Hroom.
  - exists rb. split; [|split; [exact Hwf|split; [reflexivity|]]].
    + destruct st as [b f m]. cbn in Hb. subst b. reflexivity.
    + unfold stored_bytes, stored_records. cbn. now rewrite app_nil_r.
  - inversion Hok as [|? ? Hc Hcs]; subst.
    unfold write_all. cbn [fold_left]. fold (write_all
      (osusat_slog_write_internal st (log_env c) (log_level c)
         (log_component c) (log_line c) (log_formatted c)) cs).
    destruct (accepted (g_min_level st) c) eqn:Hacc.
    + assert (Hsb : stored_bytes st (c :: cs)
                    = record_bytes (stored_entry st c) (stored_message c)
                      ++ stored_bytes st cs).
      { unfold stored_bytes, stored_records. cbn [filter]. rewrite Hacc.
        reflexivity. }
      unfold accepted in Hacc. apply andb_true_iff in Hacc as [Hlvl Hfmt].
      apply negb_true_iff, Z.ltb_ge in Hlvl.
      destruct (log_formatted c) as [M|] eqn:HM; [|discriminate].
      assert (Hmsg : call_message c = M) by (unfold call_message; now rewrite HM).
      pose proof Hc as (_ & _ & _ & Hchars). rewrite Hmsg in Hchars.
      assert (Hrec : record_bytes (stored_entry st c) (stored_message c)
                     = entry_bytes (build_entry st (log_env c) (log_level c)
                                      (log_component c) (log_line c)
                                      (Z.min (Z.of_nat (length M)) 127))
                       ++ map uint8 (firstn 127 M) ++ [0]).
      { unfold record_bytes, stored_entry, stored_message. rewrite Hmsg.
        rewrite map_uint8_id; [reflexivity|].
        apply ArrFacts.Forall_firstn. eapply Forall_impl; [|exact Hchars].
        cbv beta. intros; lia. }
      rewrite Hsb, length_app in Hroom.
      assert (Hlen : Z.of_nat (length (record_bytes (stored_entry st c)
                                         (stored_message c)))
                     = sizeof_entry + Z.min (Z.of_nat (length M)) 127 + 1).
      { rewrite Hrec, length_app, entry_bytes_length, length_app, length_map,
          length_firstn. cbn [length]. unfold sizeof_entry. lia. }
      destruct (write_room st rb (log_env c) (log_level c) (log_component c)
                  (log_line c) M Hb Hwf Hlvl)
        as (rb1 & Hw & Hwf1 & Hc1 & Hs1 & Hk1); [lia|].
      rewrite Hw.
      destruct (IH (with_buffer st rb1) rb1 eq_refl Hwf1 Hcs)
        as (rb2 & Hw2 & Hwf2 & Hc2 & Hk2).
      { change (stored_bytes (with_buffer st rb1) cs)
          with (stored_bytes st cs). lia. }
      exists rb2. split; [rewrite Hw2; reflexivity|]. split; [exact Hwf2|].
      split; [congruence|].
      change (stored_bytes (with_buffer st rb1) cs)
        with (stored_bytes st cs) in Hk2.
      rewrite Hk2, Hk1, Hsb, Hrec, <- !app_assoc. reflexivity.
    + rewrite (not_accepted_is_noop st c Hacc).
      assert (Hsb : stored_bytes st (c :: cs) = stored_bytes st cs).
      { unfold stored_bytes, stored_records. cbn [filter]. rewrite Hacc.
        reflexivity. }
      rewrite Hsb in *. apply (IH st rb Hb Hwf Hcs Hroom).
Qed.

Lemma calls_ok (st : slog_state) (cs : list log_call) :
  Forall (call_typed st) cs -> Forall nul_free cs -> Forall (call_ok st) cs.
Proof.
  rewrite !Forall_forall. intros Ht Hn c Hin.
  destruct (Ht c Hin) as (Hc & Hl & Hts & Hbytes).
  split; [exact Hc|]. split; [exact Hl|]. split; [exact Hts|].
  rewrite Forall_forall in *. intros ch Hch.
  specialize (Hbytes ch Hch).
  assert (ch <> 0) by (intros ->; exact (Hn c Hin Hch)). lia.
Qed.

(** X20.  Round trip of a sequence of writes whose formatted outputs have
    no NUL byte in them.  Let the store be bound and empty, with room for
    all the records, and let the arguments of the calls be values of their
    C types.  Then the calls that pass the level filter and format store
    one record each; one flush invokes the callback once per record, in
    write order, each time with the header as written and the message cut
    to 127 characters, returns their number and leaves the store empty.
    Calls below the minimum level leave no trace. *)
Theorem write_all_flush_roundtrip (st : slog_state)
    (rb : osusat_ring_buffer_t) (cs : list log_call) (fn : nat)
    (stack : nat -> list Z) (fuel : nat) :
  g_log_buffer st = Some rb -> wf rb ->
  osusat_ring_buffer_empty rb = true ->
  Forall (call_typed st) cs -> Forall nul_free cs ->
  Z.of_nat (length (stored_bytes st cs)) < capacity rb ->
  stack_ok stack -> (length cs <= fuel)%nat ->
  exists calls rb',
    osusat_slog_flush fuel (write_all st cs) (Some fn) stack
    = Done (written st cs, calls, with_buffer st rb') /\
    seen calls = stored_records st cs /\
    osusat_ring_buffer_empty rb' = true.
Proof.
  intros Hb Hwf Hempty Htyped Hnul Hroom Hstack Hfuel.
  pose proof (calls_ok st cs Htyped Hnul) as Hok.
  destruct (empty_contents rb Hwf Hempty) as [Hsize Hnil].
  destruct (write_all_stores cs st rb Hb Hwf Hok)
    as (rb1 & Hw & Hwf1 & Hc1 & Hk1); [lia|].
  rewrite Hnil in Hk1. cbn [app] in Hk1.
  assert (Hrecs : Forall record_ok (stored_records st cs)).
  { unfold stored_records. apply Forall_map. apply Forall_forall.
    intros c Hin. apply filter_In in Hin as [Hin _].
    apply stored_record_ok. rewrite Forall_forall in Hok. apply Hok, Hin. }
  assert (Hn : (length (stored_records st cs) <= fuel)%nat).
  { unfold stored_records. rewrite length_map.
    pose proof (filter_length_le (accepted (g_min_level st)) cs). lia. }
  destruct (flush_records (stored_records st cs) fuel rb1 stack 0%nat 0 []
              Hwf1 Hk1 Hrecs Hstack Hn)
    as (r & new & Hrun & Hcalls & Hseen & Hcount & Hwfr & Hkr & _).
  unfold osusat_slog_flush. rewrite Hw. cbn [with_buffer g_log_buffer].
  rewrite Hrun. cbn [bind]. cbn [app] in Hcalls.
  exists (flush_calls r), (flush_buffer r).
  split; [|split].
  - f_equal. f_equal. f_equal. rewrite Hcount. unfold written, stored_records.
    rewrite length_map. lia.
  - rewrite Hcalls. exact Hseen.
  - rewrite (empty_size _ Hwfr), <- (contents_length _ Hwfr), Hkr.
    reflexivity.
Qed.

Lemma log_typed (cap : Z) (min_level lvl : osusat_slog_level_t) :
  call_typed (test_logger cap min_level) (log lvl test_message).
Proof.
  unfold call_typed, log, call_message, test_message, TEST_COMPONENT_A.
  cbn [log_component log_line log_env log_formatted].
  split; [lia|]. split; [lia|]. split.
  - intros f Hf. cbn in Hf. injection Hf as <-.
    unfold mock_get_timestamp. lia.
  - repeat (constructor; [lia|]). constructor.
Qed.

Lemma log_nul_free (lvl : osusat_slog_level_t) :
  nul_free (log lvl test_message).
Proof.
  unfold nul_free, log, call_message, test_message.
  cbn [log_formatted In]. intros H.
  repeat (destruct H as [H | H]; [discriminate|]). exact H.
Qed.

Lemma write_all_flush_roundtrip_witness :
  exists calls rb',
    osusat_slog_flush 5
      (write_all (test_logger 512 OSUSAT_SLOG_WARN)
         [log OSUSAT_SLOG_DEBUG test_message;
          log OSUSAT_SLOG_INFO test_message;
          log OSUSAT_SLOG_WARN test_message;
          log OSUSAT_SLOG_ERROR test_message;
          log OSUSAT_SLOG_CRITICAL test_message])
      (Some 0%nat) zero_stack
    = Done (3, calls, with_buffer (test_logger 512 OSUSAT_SLOG_WARN) rb') /\
    map (fun r => (level (fst r), snd r)) (seen calls)
    = [(2, test_message); (3, test_message); (4, test_message)].
Proof.
  destruct (write_all_flush_roundtrip (test_logger 512 OSUSAT_SLOG_WARN)
              (test_store 512)
              [log OSUSAT_SLOG_DEBUG test_message;
               log OSUSAT_SLOG_INFO test_message;
               log OSUSAT_SLOG_WARN test_message;
               log OSUSAT_SLOG_ERROR test_message;
               log OSUSAT_SLOG_CRITICAL test_message]
              0%nat zero_stack 5%nat)
    as (calls & rb' & Hrun & Hseen & _).
  - reflexivity.
  - apply wf_test_store. lia.
  - reflexivity.
  - repeat (constructor; [apply log_typed|]). constructor.
  - repeat (constructor; [apply log_nul_free|]). constructor.
  - vm_compute. reflexivity.
  - intros k. reflexivity.
  - cbn [length]. lia.
  - exists calls, rb'. split; [exact Hrun|]. rewrite Hseen. reflexivity.
Defined.

(** A store that holds whole records and then fewer bytes than a header is
    flushed record by record; the remainder is read and thrown away. *)
Lemma flush_records_short (records : list (osusat_slog_entry_t * list Z)) :
  forall (fuel : nat) (rb : osusat_ring_buffer_t) (rest : list Z)
         (stack : nat -> list Z) (k : nat) (count : Z)
         (calls : list flush_call),
    wf rb ->
    contents rb
    = concat (map (fun r => record_bytes (fst r) (snd r)) records) ++ rest ->
    Forall record_ok records -> stack_ok stack ->
    Z.of_nat (length rest) < sizeof_entry ->
    (length records < fuel)%nat ->
    exists r new,
      flush_loop fuel rb stack k count calls = Done r /\
      flush_calls r = calls ++ new /\ seen new = records /\
      flush_count r = count + Z.of_nat (length records) /\
      wf (flush_buffer r) /\ contents (flush_buffer r) = [] /\
      capacity (flush_buffer r) = capacity rb.
Proof.
  induction records as [|[e msg] records IH];
    intros fuel rb rest stack k count calls Hwf Hk Hok Hstack Hrest Hfuel;
    (destruct fuel as [|fuel]; [cbn [length] in Hfuel; lia|]).
  - cbn [map concat app] in Hk. cbn [flush_loop].
    pose proof (contents_length rb Hwf) as Hl. rewrite Hk in Hl.
    rewrite (empty_size rb Hwf).
    destruct (Z.eqb_spec (osusat_ring_buffer_size rb) 0) as [Hz | Hnz].
    + exists {| flush_count := count; flush_calls := calls;
                flush_buffer := rb |}, [].
      cbn [flush_calls flush_count flush_buffer length seen map].
      rewrite app_nil_r. split; [reflexivity|]. split; [reflexivity|].
      split; [reflexivity|]. split; [lia|]. split; [exact Hwf|].
      split; [|reflexivity]. unfold contents. rewrite Hz. reflexivity.
    + destruct (pop_bytes_size (Z.to_nat sizeof_entry) rb Hwf)
        as (r & rb1 & Hp & Hwf1 & Hr).
      pose proof (pop_bytes_capacity (Z.to_nat sizeof_entry) rb) as Hc1.
      rewrite Hp in *. cbn [snd] in Hc1.
      pose proof (size_range rb1 Hwf1) as Hrange1.
      destruct r as [hb|];
        [change (Z.of_nat (Z.to_nat sizeof_entry)) with sizeof_entry in Hr;
         lia|].
      exists {| flush_count := count; flush_calls := calls;
                flush_buffer := rb1 |}, [].
      cbn [flush_calls flush_count flush_buffer length seen map].
      rewrite app_nil_r. split; [reflexivity|]. split; [reflexivity|].
      split; [reflexivity|]. split; [lia|]. split; [exact Hwf1|].
      split; [|exact Hc1]. unfold contents. rewrite Hr. reflexivity.
  - inversion Hok as [|? ? Hr Hrs]; subst.
    cbn [map concat fst snd] in Hk. rewrite <- app_assoc in Hk.
    destruct (flush_one_record fuel rb e msg _ stack k count calls Hwf Hk Hr
                Hstack) as (rb' & m & Hstep & Hwf' & Hc' & Hk' & Hm).
    destruct (IH fuel rb' rest stack (S k) (count + 1)
                (calls ++ [{| flushed_entry := e; flushed_message := m |}])
                Hwf' Hk' Hrs Hstack Hrest)
      as (r & new & Hrun & Hcalls & Hseen & Hcount & Hwfr & Hkr & Hcr);
      [cbn [length] in Hfuel; lia|].
    exists r, ({| flushed_entry := e; flushed_message := m |} :: new).
    split; [rewrite Hstep; exact Hrun|].
    split; [rewrite Hcalls, <- app_assoc; reflexivity|].
    split; [cbn [seen map flushed_entry flushed_message];
            fold (seen new); rewrite Hseen, Hm; reflexivity|].
    split; [cbn [length]; lia|]. split; [exact Hwfr|].
    split; [exact Hkr|congruence].
Qed.

(** X21.  [flush] stops at a remainder that is too short to be a header.
    When the store holds whole records followed by fewer than ten bytes,
    the callback sees the records, in order, and the remaining bytes are
    consumed without a callback: the store is empty afterwards.  In
    particular a store that holds fewer than ten bytes is emptied with no
    callback at all. *)
Theorem flush_discards_short_remainder (st : slog_state)
    (rb : osusat_ring_buffer_t)
    (records : list (osusat_slog_entry_t * list Z)) (rest : list Z)
    (fn : nat) (stack : nat -> list Z) (fuel : nat) :
  g_log_buffer st = Some rb -> wf rb ->
  contents rb
  = concat (map (fun r => record_bytes (fst r) (snd r)) records) ++ rest ->
  Forall record_ok records ->
  Z.of_nat (length rest) < sizeof_entry ->
  stack_ok stack -> (length records < fuel)%nat ->
  exists calls rb',
    osusat_slog_flush fuel st (Some fn) stack
    = Done (Z.of_nat (length records), calls, with_buffer st rb') /\
    seen calls = records /\ wf rb' /\ contents rb' = [].
Proof.
  intros Hb Hwf Hk Hok Hrest Hstack Hfuel.
  destruct (flush_records_short records fuel rb rest stack 0%nat 0 []
              Hwf Hk Hok Hstack Hrest Hfuel)
    as (r & new & Hrun & Hcalls & Hseen & Hcount & Hwfr & Hkr & _).
  unfold osusat_slog_flush. rewrite Hb, Hrun. cbn [bind].
  cbn [app] in Hcalls. exists (flush_calls r), (flush_buffer r).
  split; [rewrite Hcount; reflexivity|]. rewrite Hcalls. auto.
Qed.

Lemma flush_discards_short_remainder_witness :
  exists calls rb',
    osusat_slog_flush 1
      (osusat_slog_init (Some (push_list (test_store 16) [7; 8; 9])) None
         OSUSAT_SLOG_DEBUG)
      (Some 0%nat) zero_stack
    = Done (0, calls,
            with_buffer
              (osusat_slog_init (Some (push_list (test_store 16) [7; 8; 9]))
                 None OSUSAT_SLOG_DEBUG) rb') /\
    seen calls = [] /\ contents rb' = [].
Proof.
  destruct (flush_discards_short_remainder
              (osusat_slog_init (Some (push_list (test_store 16) [7; 8; 9]))
                 None OSUSAT_SLOG_DEBUG)
              (push_list (test_store 16) [7; 8; 9]) [] [7; 8; 9]
              0%nat zero_stack 1%nat)
    as (calls & rb' & Hrun & Hseen & _ & Hk).
  - reflexivity.
  - apply RingBufferProps.wf_push_list, wf_test_store. lia.
  - reflexivity.
  - constructor.
  - vm_compute. reflexivity.
  - intros k. reflexivity.
  - cbn [length]. lia.
  - exists calls, rb'. auto.
Defined.

(** X22.  [flush] drains the store whatever it holds: afterwards nothing is
    buffered, [pending_count] is 0, and a second flush returns 0 without
    invoking the callback and leaves the state as it is. *)
Theorem flush_drains_the_store (st : slog_state) (rb : osusat_ring_buffer_t)
    (fn : nat) (stack : nat -> list Z) (fuel : nat) :
  g_log_buffer st = Some rb -> wf rb -> stack_ok stack ->
  capacity rb <= Z.of_nat fuel ->
  exists count calls rb',
    osusat_slog_flush fuel st (Some fn) stack
    = Done (count, calls, with_buffer st rb') /\
    wf rb' /\ contents rb' = [] /\
    osusat_slog_pending_count (with_buffer st rb') = 0 /\
    forall (fn' fuel' : nat) (stack' : nat -> list Z),
      osusat_slog_flush fuel' (with_buffer st rb') (Some fn') stack'
      = Done (0, [], with_buffer st rb').
Proof.
  intros Hb Hwf Hstack Hfuel. pose proof (size_range rb Hwf) as Hrange.
  destruct (flush_loop_total fuel rb stack 0%nat 0 [] Hwf Hstack)
    as (r & new & Hrun & Hwfr & _ & Hsr & _); [lia|].
  unfold osusat_slog_flush at 1. rewrite Hb, Hrun. cbn [bind].
  exists (flush_count r), (flush_calls r), (flush_buffer r).
  split; [reflexivity|]. split; [exact Hwfr|].
  split; [unfold contents; rewrite Hsr; reflexivity|].
  split; [unfold osusat_slog_pending_count; cbn [with_buffer g_log_buffer];
          rewrite Hsr; reflexivity|].
  intros fn' fuel' stack'. unfold osusat_slog_flush.
  cbn [with_buffer g_log_buffer].
  assert (He : osusat_ring_buffer_empty (flush_buffer r) = true)
    by (rewrite (empty_size _ Hwfr), Hsr; reflexivity).
  destruct fuel'; cbn [flush_loop]; rewrite He; reflexivity.
Qed.

Lemma flush_drains_the_store_witness :
  exists count calls rb',
    osusat_slog_flush 128
      (write_all (test_logger 128 OSUSAT_SLOG_DEBUG) overwrite_calls)
      (Some 0%nat) zero_stack
    = Done (count, calls,
            with_buffer
              (write_all (test_logger 128 OSUSAT_SLOG_DEBUG) overwrite_calls)
              rb') /\
    contents rb' = [] /\
    osusat_slog_flush 128
      (with_buffer
         (write_all (test_logger 128 OSUSAT_SLOG_DEBUG) overwrite_calls) rb')
      (Some 0%nat) zero_stack
    = Done (0, [],
            with_buffer
              (write_all (test_logger 128 OSUSAT_SLOG_DEBUG) overwrite_calls)
              rb').
Proof.
  destruct (write_all_wf overwrite_calls (test_logger 128 OSUSAT_SLOG_DEBUG)
              (test_store 128) eq_refl (wf_test_store 128 ltac:(lia)))
    as (rb1 & Hb1 & Hwf1 & Hc1).
  destruct (flush_drains_the_store
              (write_all (test_logger 128 OSUSAT_SLOG_DEBUG) overwrite_calls)
              rb1 0%nat zero_stack 128%nat Hb1 Hwf1)
    as (count & calls & rb' & Hrun & _ & Hk & _ & Hagain).
  - intros k. reflexivity.
  - rewrite Hc1. vm_compute. discriminate.
  - exists count, calls, rb'. split; [exact Hrun|]. split; [exact Hk|].
    apply Hagain.
Defined.





(** Without overwrite [push_bytes] stores bytes until the store is full,
    and reports whether all of them went in. *)
Lemma push_bytes_no_overwrite (n : nat) :
  forall (rb : osusat_ring_buffer_t) (src : list Z) (i : Z),
    wf rb -> overwrite rb = false ->
    wf (snd (push_bytes rb src i n)) /\
    overwrite (snd (push_bytes rb src i n)) = false /\
    capacity (snd (push_bytes rb src i n)) = capacity rb /\
    contents (snd (push_bytes rb src i n))
    = contents rb
      ++ firstn (Z.to_nat (capacity rb - 1 - osusat_ring_buffer_size rb))
           (pushed src i n) /\
    (fst (push_bytes rb src i n) = true
     <-> osusat_ring_buffer_size rb + Z.of_nat n <= capacity rb - 1) /\
    (fst (push_bytes rb src i n) = true ->
     osusat_ring_buffer_size (snd (push_bytes rb src i n))
     = osusat_ring_buffer_size rb + Z.of_nat n).
Proof.
  induction n as [|n IH]; intros rb src i Hwf Hov;
    pose proof (size_range rb Hwf) as Hr.
  - cbn [push_bytes fst snd]. unfold pushed. cbn [seq map].
    rewrite firstn_nil, app_nil_r.
    split; [exact Hwf|]. split; [exact Hov|]. split; [reflexivity|].
    split; [reflexivity|]. split; [|intros _; lia].
    split; [intros _; lia|reflexivity].
  - cbn [push_bytes].
    assert (Hp : pushed src i (S n)
                 = uint8 (Arr.get 0 src i) :: pushed src (i + 1) n).
    { unfold pushed. rewrite <- cons_seq, <- seq_shift. cbn [map].
      rewrite map_map. f_equal.
      - change (Z.of_nat 0) with 0. now rewrite Z.add_0_r.
      - apply map_ext. intros k. do 2 f_equal. lia. }
    destruct (Z.eq_dec (osusat_ring_buffer_size rb) (capacity rb - 1))
      as [Hfull | Hroom].
    + assert (Hpush : osusat_ring_buffer_push rb (uint8 (Arr.get 0 src i))
                      = (false, rb)).
      { apply (RingBufferProps.full_iff_size rb Hwf) in Hfull.
        unfold osusat_ring_buffer_push.
        unfold osusat_ring_buffer_full in Hfull. now rewrite Hfull, Hov. }
      rewrite Hpush. cbn [fst snd].
      replace (Z.to_nat (capacity rb - 1 - osusat_ring_buffer_size rb))
        with 0%nat by lia.
      cbn [firstn]. rewrite app_nil_r.
      split; [exact Hwf|]. split; [exact Hov|]. split; [reflexivity|].
      split; [reflexivity|]. split; [|discriminate].
      split; [discriminate|lia].
    + destruct (push_room rb (uint8 (Arr.get 0 src i)) Hwf)
        as (rb1 & Hpush & Hwf1 & Hc1 & Hs1 & Hk1); [lia|].
      assert (Hov1 : overwrite rb1 = false).
      { unfold osusat_ring_buffer_push in Hpush.
        destruct (((head rb + 1) mod capacity rb =? tail rb)
                  && negb (overwrite rb)); [discriminate|].
        injection Hpush as <-. exact Hov. }
      rewrite Hpush.
      destruct (IH rb1 src (i + 1) Hwf1 Hov1)
        as (Hwf2 & Hov2 & Hc2 & Hk2 & Hok2 & Hs2).
      split; [exact Hwf2|]. split; [exact Hov2|]. split; [congruence|].
      split; [|split].
      * rewrite Hk2, Hk1, Hc1, Hs1, Hp, <- app_assoc. f_equal.
        replace (Z.to_nat (capacity rb - 1 - osusat_ring_buffer_size rb))
          with (S (Z.to_nat (capacity rb - 1
                             - (osusat_ring_buffer_size rb + 1)))) by lia.
        reflexivity.
      * rewrite Hok2, Hc1, Hs1. lia.
      * intros Hok. rewrite (Hs2 Hok), Hs1. lia.
Qed.

(** X24.  In a store without overwrite a write never evicts: what the store
    held stays in place, and behind it goes as much of the record as there
    is room for.  A record that does not fit is left truncated, and a write
    into a full store changes nothing. *)
Theorem write_without_overwrite_truncates (st : slog_state)
    (rb : osusat_ring_buffer_t) (env : Z) (lvl : osusat_slog_level_t)
    (c n : Z) (M : list Z) :
  g_log_buffer st = Some rb -> wf rb -> overwrite rb = false ->
  level_value (g_min_level st) <= level_value lvl ->
  exists rb' record,
    osusat_slog_write_internal st env lvl c n (Some M) = with_buffer st rb' /\
    wf rb' /\ capacity rb' = capacity rb /\
    record = entry_bytes (build_entry st env lvl c n
                            (Z.min (Z.of_nat (length M)) 127))
             ++ map uint8 (firstn 127 M) ++ [0] /\
    contents rb'
    = contents rb
      ++ firstn (Z.to_nat (capacity rb - 1
                           - Z.of_nat (length (contents rb)))) record /\
    (Z.of_nat (length (contents rb)) = capacity rb - 1 ->
     contents rb' = contents rb).
Proof.
  intros Hb Hwf Hov Hlvl. pose proof (contents_length rb Hwf) as Hcl.
  pose proof (size_range rb Hwf) as Hr.
  unfold osusat_slog_write_internal. rewrite Hb.
  destruct (Z.ltb_spec (level_value lvl) (level_value (g_min_level st)));
    [lia|].
  cbn [vsnprintf].
  destruct (Z.ltb_spec (Z.of_nat (length M)) 0); [lia|].
  rewrite clamp_len_min.
  change (Z.to_nat (MAX_LOG_MESSAGE_LEN - 1)) with 127%nat.
  set (len := Z.min (Z.of_nat (length M)) 127) in *.
  set (e := build_entry st env lvl c n len).
  set (room := Z.to_nat (capacity rb - 1 - Z.of_nat (length (contents rb)))).
  destruct (push_bytes_no_overwrite (Z.to_nat sizeof_entry) rb
              (entry_bytes e) 0 Hwf Hov)
    as (Hwf1 & Hov1 & Hc1 & Hk1 & Hok1 & Hs1).
  assert (Hhdr : pushed (entry_bytes e) 0 (Z.to_nat sizeof_entry)
                 = entry_bytes e).
  { change (Z.to_nat sizeof_entry) with (length (entry_bytes e)).
    now rewrite pushed_all, (map_uint8_id _ (entry_bytes_range e)). }
  rewrite Hhdr, <- Hcl in Hk1. fold room in Hk1.
  assert (Hmsg : pushed (firstn 127 M ++ [0]) 0 (Z.to_nat (len + 1))
                 = map uint8 (firstn 127 M) ++ [0]).
  { replace (Z.to_nat (len + 1)) with (length (firstn 127 M ++ [0]))
      by (pose proof (truncated_length M); lia).
    rewrite pushed_all, map_app. reflexivity. }
  assert (Hfinal : forall rb',
             contents rb'
             = contents rb
               ++ firstn room (entry_bytes e ++ map uint8 (firstn 127 M) ++ [0]) ->
             Z.of_nat (length (contents rb)) = capacity rb - 1 ->
             contents rb' = contents rb).
  { intros rb' Hk Hfull. rewrite Hk.
    replace room with 0%nat by (unfold room; lia).
    cbn [firstn]. apply app_nil_r. }
  destruct (push_bytes rb (entry_bytes e) 0 (Z.to_nat sizeof_entry))
    as [[|] rb1] eqn:Hp1; cbn [fst snd] in *.
  - destruct Hok1 as [Hok1 _]. specialize (Hok1 eq_refl).
    specialize (Hs1 eq_refl).
    change (Z.of_nat (Z.to_nat sizeof_entry)) with 10 in Hok1, Hs1.
    destruct (push_bytes_no_overwrite (Z.to_nat (len + 1)) rb1
                (firstn 127 M ++ [0]) 0 Hwf1 Hov1)
      as (Hwf2 & _ & Hc2 & Hk2 & _).
    rewrite Hmsg in Hk2.
    assert (Hk : contents (snd (push_bytes rb1 (firstn 127 M ++ [0]) 0
                                  (Z.to_nat (len + 1))))
                 = contents rb
                   ++ firstn room
                        (entry_bytes e ++ map uint8 (firstn 127 M) ++ [0])).
    { pose proof (entry_bytes_length e) as Hel.
      change (Z.to_nat sizeof_entry) with 10%nat in Hel.
      rewrite Hk2, Hk1, Hc1, Hs1, <- app_assoc. f_equal.
      rewrite (firstn_app room (entry_bytes e)), Hel.
      f_equal. f_equal. unfold room. lia. }
    eexists. eexists. split; [reflexivity|]. split; [exact Hwf2|].
    split; [congruence|]. split; [reflexivity|].
    split; [exact Hk|apply Hfinal, Hk].
  - assert (Hshort : (room < 10)%nat).
    { destruct Hok1 as [_ Hok1].
      change (Z.of_nat (Z.to_nat sizeof_entry)) with 10 in Hok1.
      destruct (Z_le_gt_dec (osusat_ring_buffer_size rb + 10)
                  (capacity rb - 1)) as [Hle | Hgt];
        [specialize (Hok1 Hle); discriminate|].
      unfold room. lia. }
    assert (Hk : contents rb1
                 = contents rb
                   ++ firstn room
                        (entry_bytes e ++ map uint8 (firstn 127 M) ++ [0])).
    { pose proof (entry_bytes_length e) as Hel.
      change (Z.to_nat sizeof_entry) with 10%nat in Hel.
      rewrite Hk1. f_equal. rewrite (firstn_app room (entry_bytes e)), Hel.
      replace (room - 10)%nat with 0%nat by lia.
      cbn [firstn]. now rewrite app_nil_r. }
    eexists. eexists. split; [reflexivity|]. split; [exact Hwf1|].
    split; [exact Hc1|]. split; [reflexivity|].
    split; [exact Hk|apply Hfinal, Hk].
Qed.

Lemma write_without_overwrite_truncates_witness :
  exists rb',
    osusat_slog_write_internal
      (osusat_slog_init (Some (fresh 16 false)) None OSUSAT_SLOG_DEBUG) 0
      OSUSAT_SLOG_INFO TEST_COMPONENT_A 7 (Some test_message)
    = with_buffer
        (osusat_slog_init (Some (fresh 16 false)) None OSUSAT_SLOG_DEBUG) rb' /\
    contents rb' = [0; 0; 0; 0; 1; 16; 7; 0; 12; 0; 84; 101; 115; 116; 32].
Proof.
  destruct (write_without_overwrite_truncates
              (osusat_slog_init (Some (fresh 16 false)) None OSUSAT_SLOG_DEBUG)
              (fresh 16 false) 0 OSUSAT_SLOG_INFO TEST_COMPONENT_A 7
              test_message)
    as (rb' & record & Hw & _ & _ & Hrec & Hk & _).
  - reflexivity.
  - apply RingBufferProps.wf_fresh. lia.
  - reflexivity.
  - vm_compute. discriminate.
  - exists rb'. split; [exact Hw|]. rewrite Hk, Hrec. reflexivity.
Defined.



End SlogProps.

(** ** The repository's tests, replayed on the embedding *)

Module Tests.
Import RingBuffer.

(** test_basic of the ring buffer: two pushes, then the bytes come back in
    order. *)
Example ring_buffer_test_basic :
  let rb0 := osusat_ring_buffer_init (repeat 0 4) 4 false in
  let rb1 := snd (osusat_ring_buffer_push rb0 1) in
  let rb2 := snd (osusat_ring_buffer_push rb1 2) in
  osusat_ring_buffer_empty rb0 = true /\
  exists rb3 rb4,
    osusat_ring_buffer_pop rb2 = Some (1, rb3) /\
    osusat_ring_buffer_pop rb3 = Some (2, rb4) /\
    osusat_ring_buffer_empty rb4 = true.
Proof. cbv zeta. split; [reflexivity|]. eexists. eexists. repeat split. Qed.

(** test_full_condition of the power-of-two buffer: four slots hold three
    bytes, the fourth push fails, and the first byte pops first. *)
Example pow2_test_full_condition :
  let blank := {| RingBufferPow2.buffer := []; RingBufferPow2.capacity := 0;
                  RingBufferPow2.mask := 0; RingBufferPow2.head := 0;
                  RingBufferPow2.tail := 0 |} in
  let rb0 := snd (RingBufferPow2.osusat_ring_buffer_pow2_init blank
                    (repeat 0 4) 4) in
  let rb1 := snd (RingBufferPow2.osusat_ring_buffer_pow2_push rb0 1) in
  let rb2 := snd (RingBufferPow2.osusat_ring_buffer_pow2_push rb1 2) in
  let rb3 := snd (RingBufferPow2.osusat_ring_buffer_pow2_push rb2 3) in
  RingBufferPow2.osusat_ring_buffer_pow2_full rb3 = true /\
  fst (RingBufferPow2.osusat_ring_buffer_pow2_push rb3 4) = false /\
  exists rb4, RingBufferPow2.osusat_ring_buffer_pow2_pop rb3 = Some (1, rb4).
Proof. cbv zeta. split; [reflexivity|]. split; [reflexivity|]. eexists. reflexivity. Qed.

Import Slog.

(** test_level_filtering: below WARN nothing is stored, the three records at
    or above it are flushed. *)
Example slog_test_level_filtering :
  flushed (osusat_slog_flush 512
             (write_all (test_logger 512 OSUSAT_SLOG_WARN)
                [log OSUSAT_SLOG_DEBUG test_message;
                 log OSUSAT_SLOG_INFO test_message;
                 log OSUSAT_SLOG_WARN test_message;
                 log OSUSAT_SLOG_ERROR test_message;
                 log OSUSAT_SLOG_CRITICAL test_message])
             (Some 0%nat) zero_stack) = 3.
Proof. vm_compute. reflexivity. Qed.

(** test_change_min_level: Info 1, Debug 2 and Info 2 are stored. *)
Example slog_test_change_min_level :
  let st1 := write_all (test_logger 512 OSUSAT_SLOG_INFO)
               [log OSUSAT_SLOG_DEBUG test_message;
                log OSUSAT_SLOG_INFO test_message] in
  let st2 := osusat_slog_change_min_log_level st1 OSUSAT_SLOG_DEBUG in
  let st3 := write_all st2 [log OSUSAT_SLOG_DEBUG test_message;
                            log OSUSAT_SLOG_INFO test_message] in
  flushed (osusat_slog_flush 512 st3 (Some 0%nat) zero_stack) = 3.
Proof. vm_compute. reflexivity. Qed.

(** test_overwrite_mode: of the twenty records seven come back, the first of
    them torn. *)
Example slog_test_overwrite_mode :
  flushed (osusat_slog_flush 128
             (write_all (test_logger 128 OSUSAT_SLOG_DEBUG) overwrite_calls)
             (Some 0%nat) zero_stack) = 7.
Proof. vm_compute. reflexivity. Qed.

(** test_null_flush_callback: a NULL callback flushes nothing. *)
Example slog_test_null_flush_callback :
  flushed (osusat_slog_flush 512
             (write_all (test_logger 512 OSUSAT_SLOG_DEBUG)
                [log OSUSAT_SLOG_INFO test_message])
             None zero_stack) = 0.
Proof. reflexivity. Qed.

End Tests.
